(** * stencil-cli: theme packaging and deployment pipeline

    A shallow embedding of the worker bundle builder
    (lib/stencil-bundle-worker.js) and of the push workflow steps
    (lib/stencil-push.utils.js), with the properties of the specification
    stated over them.

    JavaScript values, thrown errors and promise outcomes are modelled
    explicitly: a step returns [Ok v] or [Throw e]; console output, the
    progress bar and the timer are fields of a [world] record threaded
    through the effectful steps. *)

From Stdlib Require Import ZArith String Ascii DecimalString List Bool Lia.
From stdpp Require Import base option list strings gmap.
Import ListNotations.

Local Open Scope Z_scope.

(** ** JavaScript values, errors and outcomes *)

Module Js.

Inductive jsval :=
| JUndefined
| JNull
| JBool (b : bool)
| JNum (n : Z)
| JStr (s : string).

(** ToBoolean. *)
Definition truthy (v : jsval) : bool :=
  match v with
  | JUndefined | JNull => false
  | JBool b => b
  | JNum n => negb (n =? 0)
  | JStr s => negb (String.eqb s "")
  end.

(** [===] on the values above. *)
Definition strict_eq (a b : jsval) : bool :=
  match a, b with
  | JUndefined, JUndefined => true
  | JNull, JNull => true
  | JBool x, JBool y => Bool.eqb x y
  | JNum x, JNum y => x =? y
  | JStr x, JStr y => String.eqb x y
  | _, _ => false
  end.

(** An [Error] object: the two properties the code reads and writes. *)
Record error := Error { name : string; message : string }.

Definition TypeError (msg : string) : error :=
  {| name := "TypeError"; message := msg |}.

(** The outcome of a call (or of an awaited promise): a value, or a
    thrown error (a rejection). *)
Inductive result (A : Type) :=
| Ok (a : A)
| Throw (e : error).
Arguments Ok {A} a.
Arguments Throw {A} e.

(** Sequencing of awaited calls: the first rejection ends the chain. *)
#[export] Instance result_ret : MRet result := fun A a => Ok a.
#[export] Instance result_bind : MBind result := fun A B k r =>
  match r with
  | Ok a => k a
  | Throw e => Throw e
  end.

(** [arr.reduce(f)] without an initial value: the first element seeds
    the accumulator; on an empty array the engine throws a TypeError. *)
Definition reduce {A} (f : A -> A -> A) (arr : list A) : result A :=
  match arr with
  | [] => Throw (TypeError "Reduce of empty array with no initial value")
  | x :: rest => Ok (fold_left f rest x)
  end.

(** [a < b] on numbers, [None] standing for NaN: every comparison with
    NaN is false. *)
Definition num_lt (a b : option Z) : bool :=
  match a, b with
  | Some x, Some y => x <? y
  | _, _ => false
  end.

(** [arr.join(sep)] on strings. *)
Fixpoint join (sep : string) (arr : list string) : string :=
  match arr with
  | [] => ""
  | [x] => x
  | x :: rest => x +:+ sep +:+ join sep rest
  end.

End Js.

Export Js.


(** ** The world of the effectful steps, and [async.retry] *)

Module Async.

(** What the effectful steps can touch: the progress bar (the arguments
    of [markJobProgressPercentage], oldest first), the console, the
    timer (the delays waited for, in milliseconds) and the number of
    remote calls made so far. *)
Record world := World {
  bar : list jsval;
  console : list string;
  slept : list Z;
  calls : nat;
}.

Definition log (line : string) (w : world) : world :=
  {| bar := bar w; console := console w ++ [line];
     slept := slept w; calls := calls w |}.

Definition setTimeout (ms : Z) (w : world) : world :=
  {| bar := bar w; console := console w;
     slept := slept w ++ [ms]; calls := calls w |}.

Definition bar_update (v : jsval) (w : world) : world :=
  {| bar := bar w ++ [v]; console := console w;
     slept := slept w; calls := calls w |}.

(** A remote call: the [k]-th call made in this world gets the [k]-th
    outcome of the remote side. *)
Definition remote_call {R} (remote : nat -> result R) (w : world) : world * result R :=
  ({| bar := bar w; console := console w;
      slept := slept w; calls := S (calls w) |}, remote (calls w)).

(** The options object of [async.retry]; [times = None] is
    [Number.POSITIVE_INFINITY]. *)
Record retry_options := RetryOptions {
  interval : Z;
  errorFilter : error -> world -> world * bool;
  times : option nat;
}.

(** [attempt < options.times] *)
Definition below (attempt : nat) (times : option nat) : bool :=
  match times with
  | None => true
  | Some n => (attempt <? n)%nat
  end.

(** [async.retry] (async/retry.js): run the task; on an error, when
    [attempt++ < times] and the error filter accepts the error, wait
    for the interval and run it again; otherwise hand the outcome to the
    caller.  The filter is not consulted once the attempts are used up.
    [fuel] bounds the attempts observed: [None] means the loop is still
    retrying after that many attempts. *)
Fixpoint retryAttempt {A} (opts : retry_options) (task : world -> world * result A)
    (fuel attempt : nat) (w : world) : world * option (result A) :=
  match fuel with
  | O => (w, None)
  | S fuel' =>
      let (w1, r) := task w in
      match r with
      | Ok a => (w1, Some (Ok a))
      | Throw err =>
          if below attempt (times opts) then
            let (w2, again) := errorFilter opts err w1 in
            if again
            then retryAttempt opts task fuel' (S attempt) (setTimeout (interval opts) w2)
            else (w2, Some (Throw err))
          else (w1, Some (Throw err))
      end
  end.

(** [async.retryable(opts, task)] applied to the task's arguments. *)
Definition retryable {A} (opts : retry_options) (task : world -> world * result A)
    (fuel : nat) (w : world) : world * option (result A) :=
  retryAttempt opts task fuel 1 w.

(** The remote side as a script: the listed outcomes in order, then
    [last] for every later call. *)
Definition script {R} (outcomes : list (result R)) (last : result R) : nat -> result R :=
  fun k => nth k outcomes last.

End Async.

Export Async.

(** ** The push workflow steps (lib/stencil-push.utils.js) *)

Module Theme.
(** A theme record as the themes API returns it. *)
Record t := Build {
  uuid : string;
  name : string;
  is_private : bool;
  is_active : bool;
  updated_at : string;
}.
End Theme.

Module Variation.
Record t := Build { uuid : string; name : string }.
End Variation.

Module Push.

(** The [options] object threaded through the steps.  A property that
    has not been set yet is [None] (undefined). *)
Record options := Options {
  themes : list Theme.t;
  themeLimitReached : bool;
  deleteOldest : bool;
  themeIdsToDelete : option (list string);
  applyTheme : bool;
  activate : jsval;
  themeId : string;
  variationId : option string;
  variations : option (list Variation.t);
}.

(** [{ ...options, themeIdsToDelete }] *)
Definition with_themeIdsToDelete (o : options) (ids : list string) : options :=
  {| themes := themes o; themeLimitReached := themeLimitReached o;
     deleteOldest := deleteOldest o; themeIdsToDelete := Some ids;
     applyTheme := applyTheme o; activate := activate o;
     themeId := themeId o; variationId := variationId o;
     variations := variations o |}.

(** [{ ...options, variationId }] *)
Definition with_variationId (o : options) (id : string) : options :=
  {| themes := themes o; themeLimitReached := themeLimitReached o;
     deleteOldest := deleteOldest o; themeIdsToDelete := themeIdsToDelete o;
     applyTheme := applyTheme o; activate := activate o;
     themeId := themeId o; variationId := Some id;
     variations := variations o |}.

(** [{ ...options, variations }] *)
Definition with_variations (o : options) (vs : list Variation.t) : options :=
  {| themes := themes o; themeLimitReached := themeLimitReached o;
     deleteOldest := deleteOldest o; themeIdsToDelete := themeIdsToDelete o;
     applyTheme := applyTheme o; activate := activate o;
     themeId := themeId o; variationId := variationId o;
     variations := Some vs |}.

(** The entry the oldest-theme computation maps a theme to. *)
Record dated := Dated { dated_uuid : string; dated_updated_at : option Z }.

(** A checkbox choice of the deletion prompt. *)
Record choice := Choice { disabled : bool; choice_name : string; value : string }.

Section Steps.

(** [new Date(s).valueOf()]: milliseconds since the epoch, [None] for
    an invalid date (NaN). *)
Variable Date_valueOf : string -> option Z.

(** The answer of the interactive checkbox prompt. *)
Variable Inquirer_prompt : list choice -> list string.

(** [themeApiClient.getVariationsByThemeId] for a theme id. *)
Variable getVariationsByThemeId : string -> result (list Variation.t).

Definition deletable (theme : Theme.t) : bool :=
  Theme.is_private theme && negb (Theme.is_active theme).

Definition to_dated (theme : Theme.t) : dated :=
  {| dated_uuid := Theme.uuid theme;
     dated_updated_at := Date_valueOf (Theme.updated_at theme) |}.

(** [(prev, current) => (prev.updated_at < current.updated_at ? prev : current)] *)
Definition older (prev current : dated) : dated :=
  if num_lt (dated_updated_at prev) (dated_updated_at current)
  then prev else current.

Definition oldestTheme (ts : list Theme.t) : result dated :=
  reduce older (map to_dated (List.filter deletable ts)).

(** The timestamp the computation compares. *)
Definition stamp (t : Theme.t) : option Z := Date_valueOf (Theme.updated_at t).

(** The reducer read on the themes themselves. *)
Definition older_theme (prev current : Theme.t) : Theme.t :=
  if num_lt (stamp prev) (stamp current) then prev else current.

(** [t] has the least timestamp of [l] and is the last theme of [l]
    to have it. *)
Definition last_oldest (l : list Theme.t) (t : Theme.t) : Prop :=
  exists before after ts,
    l = before ++ t :: after /\
    stamp t = Some ts /\
    (forall x, In x before -> exists v, stamp x = Some v /\ ts <= v) /\
    (forall x, In x after -> exists v, stamp x = Some v /\ ts < v).

(** [t] has the least timestamp of [l] and is the first theme of [l]
    to have it: the tie-break the specification words. *)
Definition first_oldest (l : list Theme.t) (t : Theme.t) : Prop :=
  exists before after ts,
    l = before ++ t :: after /\
    stamp t = Some ts /\
    (forall x, In x before -> exists v, stamp x = Some v /\ ts < v) /\
    (forall x, In x after -> exists v, stamp x = Some v /\ ts <= v).

Definition promptUserToDeleteThemesIfNecessary (o : options) : result options :=
  if negb (themeLimitReached o) then Ok o
  else if deleteOldest o then
    oldest ← oldestTheme (themes o);
    Ok (with_themeIdsToDelete o [dated_uuid oldest])
  else
    let choices :=
      map (fun theme =>
             {| disabled := Theme.is_active theme || negb (Theme.is_private theme);
                choice_name := Theme.name theme;
                value := Theme.uuid theme |}) (themes o) in
    Ok (with_themeIdsToDelete o (Inquirer_prompt choices)).

(** [utils.promptUserWhetherToApplyTheme], with the answer of the
    confirmation prompt as an argument. *)
Definition promptUserWhetherToApplyTheme (answer : bool) (o : options) : options :=
  let apply := if truthy (activate o) then true else answer in
  {| themes := themes o; themeLimitReached := themeLimitReached o;
     deleteOldest := deleteOldest o; themeIdsToDelete := themeIdsToDelete o;
     applyTheme := apply; activate := activate o;
     themeId := themeId o; variationId := variationId o;
     variations := variations o |}.

Definition is_undefined (v : jsval) : bool :=
  match v with JUndefined => true | _ => false end.

Definition invalid_variation (vs : list Variation.t) : error :=
  {| Js.name := "Error";
     message := "Invalid theme variation provided!. Available options "
                +:+ join ", " (map Variation.name vs) +:+ "..." |}.

Definition getVariations (o : options) : result options :=
  if negb (applyTheme o) then Ok o
  else
    vs ← getVariationsByThemeId (themeId o);
    if negb (truthy (activate o)) && negb (is_undefined (activate o)) then
      match find (fun item => strict_eq (JStr (Variation.name item)) (activate o)) vs with
      | Some found =>
          if negb (truthy (JStr (Variation.uuid found)))
          then Throw (invalid_variation vs)
          else Ok (with_variationId o (Variation.uuid found))
      | None => Throw (invalid_variation vs)
      end
    else if truthy (activate o) then
      match vs with
      | first :: _ => Ok (with_variationId o (Variation.uuid first))
      | [] => Throw (TypeError "Cannot read properties of undefined (reading 'uuid')")
      end
    else Ok (with_variations o vs).

(** *** Job completion poll *)

(** What [getJob] resolves with (already passed through the caller's
    result filter), and its spread into the options. *)
Variable job_result : Type.
Variable merge : options -> job_result -> options.

(** [themeApiClient.getJob]: the outcome of its [k]-th call. *)
Variable getJob : nat -> result job_result.

Definition markJobProgressPercentage (percentComplete : jsval) (w : world) : world :=
  bar_update percentComplete w.

Definition markJobComplete (w : world) : world :=
  log "ok -- Theme Processing Finished" (markJobProgressPercentage (JNum 100) w).

Definition checkIfJobIsComplete (o : options) (w : world) : world * result options :=
  let (w1, r) := remote_call getJob w in
  match r with
  | Throw e => (w1, Throw e)
  | Ok res => (markJobComplete w1, Ok (merge o res))
  end.

Definition pollFilter (err : error) (w : world) : world * bool :=
  if String.eqb (Js.name err) "JobCompletionStatusCheckPendingError"
  then (markJobProgressPercentage (JStr (message err)) w, true)
  else (w, false).

Definition pollOptions : retry_options :=
  {| interval := 1000; errorFilter := pollFilter; times := None |}.

Definition pollForJobCompletion (o : options) : nat -> world -> world * option (result options) :=
  retryable pollOptions (checkIfJobIsComplete o).

(** *** Activation with retries *)

(** [themeApiClient.activateThemeByVariationId]: the outcome of its
    [k]-th call. *)
Variable activateThemeByVariationId : nat -> result unit.

Definition requestToApplyVariation (o : options) (w : world) : world * result options :=
  if applyTheme o then
    let (w1, r) := remote_call activateThemeByVariationId w in
    match r with
    | Throw e => (w1, Throw e)
    | Ok _ => (w1, Ok o)
    end
  else (w, Ok o).

Definition activationFilter (err : error) (w : world) : world * bool :=
  if String.eqb (Js.name err) "VariationActivationTimeoutError"
  then (log "warning -- Theme Activation Timed Out; Retrying..." w, true)
  else (w, false).

Definition activationOptions : retry_options :=
  {| interval := 1000; errorFilter := activationFilter; times := Some 3%nat |}.

Definition requestToApplyVariationWithRetrys (o : options)
  : nat -> world -> world * option (result options) :=
  retryable activationOptions (requestToApplyVariation o).

End Steps.

(** The error [getJob] rejects with while the job is still running: its
    message carries the percentage. *)
Definition pending (percent : string) : error :=
  {| Js.name := "JobCompletionStatusCheckPendingError"; message := percent |}.

Definition timeout (msg : string) : error :=
  {| Js.name := "VariationActivationTimeoutError"; message := msg |}.

(** A pending answer of [getJob]. *)
Definition pendingR {R} (percent : string) : result R := Throw (pending percent).

(** A timed-out answer of the activation call. *)
Definition timeoutR (msg : string) : result unit := Throw (timeout msg).

(** The world after pending answers with the percentages [ps]: each one
    was a call, a progress update and a wait of one second. *)
Definition after_pending (ps : list string) (w : world) : world :=
  {| bar := bar w ++ map JStr ps; console := console w;
     slept := slept w ++ repeat 1000 (length ps);
     calls := calls w + length ps |}.

(** The world after [n] timed-out activation attempts that were
    retried: each one was a call, a warning and a wait of one second. *)
Definition after_timeouts (n : nat) (w : world) : world :=
  {| bar := bar w;
     console := console w ++ repeat "warning -- Theme Activation Timed Out; Retrying..." n;
     slept := slept w ++ repeat 1000 n;
     calls := calls w + n |}.

(** What the activation step hands to its caller when the remote side
    answers [last]. *)
Definition surfaced (o : options) (last : result unit) : result options :=
  match last with
  | Ok _ => Ok o
  | Throw e => Throw e
  end.

Definition is_timeout (r : result unit) : bool :=
  match r with
  | Ok _ => false
  | Throw e => String.eqb (Js.name e) "VariationActivationTimeoutError"
  end.

End Push.

(** ** String operations of the bundle builder *)

Module Str.

Definition is_digit (c : ascii) : bool :=
  let n := nat_of_ascii c in ((48 <=? n) && (n <=? 57))%nat.
Definition is_upper (c : ascii) : bool :=
  let n := nat_of_ascii c in ((65 <=? n) && (n <=? 90))%nat.
Definition is_lower (c : ascii) : bool :=
  let n := nat_of_ascii c in ((97 <=? n) && (n <=? 122))%nat.

(** The character class [[a-zA-Z0-9]]. *)
Definition alnum (c : ascii) : bool := is_lower c || is_upper c || is_digit c.

Fixpoint map_chars (f : ascii -> ascii) (s : string) : string :=
  match s with
  | EmptyString => EmptyString
  | String c rest => String (f c) (map_chars f rest)
  end.

(** [s.slice(n)] for a non-negative [n]. *)
Fixpoint slice (n : nat) (s : string) : string :=
  match n, s with
  | O, _ => s
  | S n', String _ rest => slice n' rest
  | S _, EmptyString => EmptyString
  end.

(** The text before and after the first occurrence of [sep] in [s];
    [None] when [sep] does not occur. *)
Fixpoint split_first (sep s : string) : option (string * string) :=
  if String.prefix sep s then Some (EmptyString, slice (String.length sep) s)
  else match s with
       | EmptyString => None
       | String c rest =>
           match split_first sep rest with
           | Some (before, after) => Some (String c before, after)
           | None => None
           end
       end.

(** [s.split(sep)[0]] *)
Definition split_0 (sep s : string) : string :=
  match split_first sep s with
  | Some (before, _) => before
  | None => s
  end.

(** [s.split(sep)[1]]: undefined when [sep] does not occur. *)
Definition split_1 (sep s : string) : option string :=
  match split_first sep s with
  | Some (_, after) => Some (split_0 sep after)
  | None => None
  end.

(** [s.replace(pat, '')] with a string pattern: the first occurrence
    only. *)
Definition remove_first (pat s : string) : string :=
  match split_first pat s with
  | Some (before, after) => before +:+ after
  | None => s
  end.

(** [s.replace(/suffix$/, '')] for a literal suffix. *)
Fixpoint remove_suffix (suffix s : string) : string :=
  if String.eqb s suffix then EmptyString
  else match s with
       | EmptyString => EmptyString
       | String c rest => String c (remove_suffix suffix rest)
       end.

Definition backslash : ascii := ascii_of_nat 92.

(** [s.replace(/\\/g, '/')] *)
Definition slashes (s : string) : string :=
  map_chars (fun c => if Ascii.eqb c backslash then "/"%char else c) s.

End Str.

(** ** More JavaScript string operations *)

Module Text.

(** No occurrence of [sep] starts at one of the first [n] positions of
    [s]. *)
Fixpoint absent_before (sep s : string) (n : nat) : bool :=
  match n with
  | O => true
  | S n' =>
      negb (String.prefix sep s) &&
      match s with
      | EmptyString => true
      | String _ rest => absent_before sep rest n'
      end
  end.

(** [s.includes(sub)] *)
Definition includes (sub s : string) : bool :=
  match Str.split_first sub s with
  | Some _ => true
  | None => false
  end.

Fixpoint has_char (c : ascii) (s : string) : bool :=
  match s with
  | EmptyString => false
  | String x rest => Ascii.eqb x c || has_char c rest
  end.

(** The replacement text of [String.prototype.replace] for a string
    pattern (no capture groups): "$$" stands for a dollar sign, "$&" for
    the matched text, "$`" for the text before the match and "$'" for the
    text after it; any other dollar sign is kept. *)
Fixpoint substitution (replacement matched before after : string) : string :=
  match replacement with
  | EmptyString => EmptyString
  | String c rest =>
      if Ascii.eqb c "$" then
        match rest with
        | EmptyString => String c EmptyString
        | String d rest' =>
            if Ascii.eqb d "$" then String "$" (substitution rest' matched before after)
            else if Ascii.eqb d "&" then matched +:+ substitution rest' matched before after
            else if Ascii.eqb d "`" then before +:+ substitution rest' matched before after
            else if Ascii.eqb d "'" then after +:+ substitution rest' matched before after
            else String c (substitution rest matched before after)
        end
      else String c (substitution rest matched before after)
  end.

(** [s.replace(pattern, replacement)] with a string pattern: the first
    occurrence only. *)
Definition replace (pattern replacement s : string) : string :=
  match Str.split_first pattern s with
  | Some (before, after) =>
      before +:+ substitution replacement pattern before after +:+ after
  | None => s
  end.

(** [c.toLowerCase()] on the ASCII range. *)
Definition lower (c : ascii) : ascii :=
  if Str.is_upper c then ascii_of_nat (nat_of_ascii c + 32) else c.

Definition toLowerCase (s : string) : string := Str.map_chars lower s.

(** [s.substring(s.lastIndexOf(c))] for a one-character [c]: the text
    from the last [c] on, or all of [s] when [c] does not occur (the index
    -1 is clamped to 0). *)
Fixpoint from_last (c : ascii) (s : string) : string :=
  match s with
  | EmptyString => EmptyString
  | String x rest =>
      if has_char c rest then from_last c rest else String x rest
  end.

End Text.

(** ** The worker script and the descriptors (lib/stencil-bundle-worker.js) *)

Module Link.

Definition default_api_url : string := "https://stencil-on-workers.store".

(** [this.options.apiUrl || 'https://stencil-on-workers.store'] *)
Definition apiUrl (option_apiUrl : option string) : string :=
  match option_apiUrl with
  | Some url => if truthy (JStr url) then url else default_api_url
  | None => default_api_url
  end.

(** The text [_generateWorkerScript] writes to worker.source.js: the
    entry template with the four placeholders replaced in turn.
    [translations], [schema] and [configuration] are the texts
    [JSON.stringify(..., null, 2)] gives. *)
Definition workerScript (workerTemplate translations schema configuration : string)
    (option_apiUrl : option string) : string :=
  Text.replace "__API_URL__" (apiUrl option_apiUrl)
    (Text.replace "__CONFIG_DATA__" configuration
       (Text.replace "__SCHEMA_DATA__" schema
          (Text.replace "__TRANSLATIONS_DATA__" translations workerTemplate))).

(** [_getPaperVersion] and [_getPaperHandlebarsVersion]: [version] is
    what reading and parsing the package file and taking its [version]
    gives, or the error thrown on the way; [fallback] is the constant of
    the method. *)
Definition packageVersion (fallback : string) (version : result jsval) : jsval :=
  match version with
  | Ok v => if truthy v then v else JStr fallback
  | Throw _ => JStr fallback
  end.

Definition _getPaperVersion : result jsval -> jsval := packageVersion "^5.3.0".
Definition _getPaperHandlebarsVersion : result jsval -> jsval := packageVersion "^6.4.1".

(** The [dependencies] object of the generated package.json. *)
Definition dependencies (paper paperHandlebars : result jsval) : list (string * jsval) :=
  [ ("@bigcommerce/stencil-paper", _getPaperVersion paper);
    ("@bigcommerce/stencil-paper-handlebars", _getPaperHandlebarsVersion paperHandlebars) ].

End Link.

(** ** The worker bundle builder (lib/stencil-bundle-worker.js) *)

Module WorkerBundle.

(** What the template assembler returns for a partial: the flat source,
    an object keyed by partial name, or anything else, of which the loop
    reads the [typeof] only ("object" for null). *)
Inductive templateData :=
| Source (s : string)
| Bundle (m : gmap string string)
| Other (type : string).

(** The number a canonical decimal text denotes. *)
Fixpoint decimal (s : string) (acc : Z) : option Z :=
  match s with
  | EmptyString => Some acc
  | String c rest =>
      if Str.is_digit c
      then decimal rest (10 * acc + (Z.of_nat (nat_of_ascii c) - 48))
      else None
  end.

(** An array index: a key that is the canonical decimal text (no sign,
    no leading zero) of an integer below 2^32 - 1. *)
Definition array_index (k : string) : option Z :=
  match k with
  | EmptyString => None
  | String c rest =>
      if Ascii.eqb c "0" && negb (String.eqb rest "") then None
      else match decimal k 0 with
           | Some n => if n <? 4294967295 then Some n else None
           | None => None
           end
  end.

(** Assignment to a key the object has: the value changes, the key
    keeps its place. *)
Fixpoint replace_value {V} (obj : list (string * V)) (k : string) (v : V)
  : list (string * V) :=
  match obj with
  | [] => []
  | (k', v') :: rest =>
      if String.eqb k' k then (k, v) :: rest else (k', v') :: replace_value rest k v
  end.

(** A new array-index key goes after the smaller array indices and
    before everything else. *)
Fixpoint insert_index {V} (i : Z) (k : string) (v : V) (obj : list (string * V))
  : list (string * V) :=
  match obj with
  | [] => [(k, v)]
  | (k', v') :: rest =>
      match array_index k' with
      | Some j => if j <? i then (k', v') :: insert_index i k v rest
                  else (k, v) :: (k', v') :: rest
      | None => (k, v) :: (k', v') :: rest
      end
  end.

(** An object built by assignments, as [Object.entries] lists it: the
    array-index keys in ascending order, then the other keys in order of
    first assignment; a later assignment to a key replaces the value in
    place. *)
Definition obj_set {V} (obj : list (string * V)) (k : string) (v : V) : list (string * V) :=
  if existsb (fun entry => String.eqb (fst entry) k) obj then replace_value obj k v
  else match array_index k with
       | Some i => insert_index i k v obj
       | None => obj ++ [(k, v)]
       end.

(** [new Set(arr)] in iteration order: first occurrences. *)
Fixpoint unique_from (seen : list string) (arr : list string) : list string :=
  match arr with
  | [] => []
  | x :: rest =>
      if existsb (String.eqb x) seen then unique_from seen rest
      else x :: unique_from (x :: seen) rest
  end.

(** [(arr) => Array.from(new Set(arr.flat()))] *)
Definition removeDuplicates (arr : list (list string)) : list string :=
  unique_from [] (concat arr).

(** [Promise.all] / [async.map] over outcomes already determined: the
    values in order, or the first error. *)
Fixpoint all {A} (rs : list (result A)) : result (list A) :=
  match rs with
  | [] => Ok []
  | r :: rest => a ← r; as' ← all rest; Ok (a :: as')
  end.

(** The [value] property of a [Promise.allSettled] entry: undefined for
    a rejected promise. *)
Definition settled_value {A} (r : result A) : option A :=
  match r with
  | Ok a => Some a
  | Throw _ => None
  end.

Definition undefined_has_no (prop : string) : error :=
  TypeError ("Cannot read properties of undefined (reading '" +:+ prop +:+ "')").

(** An outcome is a value or a TypeError. *)
Definition type_error_or_value {A} (r : result A) : Prop :=
  forall e, r = Throw e -> Js.name e = "TypeError".

Section Assemble.

(** The file system and the template assembler the method calls. *)
Variable path_join : list string -> string.
Variable path_sep : string.
Variable recursiveReadDir : string -> result (list string).
Variable readFile : string -> result string.
(** [content.match(externalPathRegex)]: [None] for null. *)
Variable match_externalPath : string -> option (list string).
(** Capture 1 of [templateAssembler.partialRegex.exec]; [None] when
    the regular expression does not match. *)
Variable partialRegex_exec : string -> option string.
Variable packageMarker : string.
Variable assembleAndBundle : string -> string -> result templateData.

Variable themePath : string.

Definition templatesPath : string := path_join [themePath; "templates"].

Definition getExternalLibs (templatePath : string) : result (list string) :=
  content ← readFile templatePath;
  match match_externalPath content with
  | None => Ok []
  | Some externalTemplatesImports =>
      all (map (fun templateImport =>
                  match partialRegex_exec templateImport with
                  | None => Throw (TypeError "object null is not iterable")
                  | Some importPath =>
                      Ok (Str.slice (String.length packageMarker + 1)
                                    (Str.split_0 "/templates/" importPath))
                  end) externalTemplatesImports)
  end.

Definition internalPartial (file : string) : string :=
  Str.slashes (Str.remove_suffix ".html" (Str.remove_first (templatesPath +:+ path_sep) file)).

Definition externalPartial (file : string) : result string :=
  match Str.split_1 "node_modules" file with
  | None => Throw (undefined_has_no "replace")
  | Some tail => Ok (Str.slashes ("external" +:+ Str.remove_suffix ".html" tail))
  end.

(** The reducer over the settled external listings. *)
Definition addExternal (partials : result (list string))
    (settled : result (list string)) : result (list string) :=
  acc ← partials;
  match settled_value settled with
  | None => Throw (undefined_has_no "map")
  | Some externalTemplates =>
      extracted ← all (map externalPartial externalTemplates);
      Ok (acc ++ extracted)
  end.

(** The partial identifiers, external ones first. *)
Definition allPartials : result (list string) :=
  internalTemplatesList ← recursiveReadDir templatesPath;
  libs ← all (map getExternalLibs internalTemplatesList);
  let externalLibs := removeDuplicates libs in
  let externalLibPaths :=
    map (fun lib => recursiveReadDir (path_join [themePath; "node_modules"; lib; "templates"]))
        externalLibs in
  (* Promise.allSettled never rejects: every outcome is kept. *)
  let first := recursiveReadDir templatesPath in
  let externalTemplatesList := externalLibPaths in
  match settled_value first with
  | None => Throw (undefined_has_no "map")
  | Some internalTemplates =>
      let internalPartials := map internalPartial internalTemplates in
      externalPartials ← fold_left addExternal externalTemplatesList (Ok []);
      Ok (externalPartials ++ internalPartials)
  end.

Definition _assembleTemplates : result (list (string * templateData)) :=
  partials ← allPartials;
  results ← all (map (assembleAndBundle templatesPath) partials);
  Ok (fold_left (fun ret '(file, data) => obj_set ret file data) (combine partials results) []).

End Assemble.

(** *** Pre-compilation of the templates *)

Definition nl : string := String (ascii_of_nat 10) EmptyString.

(** The UTF-16 code units of a text.  A text is held here as its UTF-8
    bytes: an ASCII character is one unit; any other character of the
    basic plane (a sequence of two or three bytes) is one unit, and a
    character beyond it (four bytes) is a surrogate pair, two units.
    The units above the ASCII range are not told apart: none of them is
    a letter or a digit of [[a-zA-Z0-9]]. *)
Inductive codeUnit :=
| Plain (c : ascii)
| NonAscii.

Definition units_of_byte (c : ascii) : list codeUnit :=
  let n := nat_of_ascii c in
  if (n <? 128)%nat then [Plain c]
  else if (n <? 192)%nat then []                 (* a continuation byte *)
  else if (n <? 240)%nat then [NonAscii]         (* leads two or three bytes *)
  else [NonAscii; NonAscii].                     (* leads four bytes *)

Fixpoint code_units (s : string) : list codeUnit :=
  match s with
  | EmptyString => []
  | String c rest => units_of_byte c ++ code_units rest
  end.

(** A unit matched by [[a-zA-Z0-9]]. *)
Definition unit_alnum (u : codeUnit) : bool :=
  match u with
  | Plain c => Str.alnum c
  | NonAscii => false
  end.

(** What the replacement leaves of a unit. *)
Definition safe_unit (u : codeUnit) : ascii :=
  match u with
  | Plain c => if Str.alnum c then c else "_"%char
  | NonAscii => "_"%char
  end.

(** [templateName.replace(/[^a-zA-Z0-9]/g, '_')]: the regular expression
    has no [u] flag, so it replaces unit by unit. *)
Definition safeName (templateName : string) : string :=
  string_of_list_ascii (map safe_unit (code_units templateName)).

Definition functionName (templateName : string) : string :=
  "template_" +:+ safeName templateName.

Record templateExport := TemplateExport {
  export_name : string;
  export_functionName : string;
}.

(** The source string of an entry, or [None] when the loop skips it
    (no truthy source under the partial's own key, or an unexpected
    type). *)
Definition templateSource (templateName : string) (data : templateData) : option string :=
  match data with
  | Source src => Some src
  | Bundle m =>
      match m !! templateName with
      | Some src => if truthy (JStr src) then Some src else None
      | None => None
      end
  | Other _ => None
  end.

Definition header : string :=
  "// Pre-compiled template functions - NO EVAL!" +:+ nl +:+
  "import Handlebars from 'handlebars/runtime';" +:+ nl +:+ nl.

Definition exportLine (e : templateExport) : string :=
  "  '" +:+ export_name e +:+ "': " +:+ export_functionName e +:+ "," +:+ nl.

Definition exportMapping (templateExports : list templateExport) : string :=
  "// Export mapping of template names to functions" +:+ nl +:+
  "export default {" +:+ nl +:+
  fold_left (fun text e => text +:+ exportLine e) templateExports "" +:+
  "};" +:+ nl.

Section Compile.

(** [Handlebars.precompile(source, handlebarsOptions)] *)
Variable precompile : string -> result string.

Fixpoint compileEntries (entries : list (string * templateData))
    (templateFunctions : string) (templateExports : list templateExport)
  : result (string * list templateExport) :=
  match entries with
  | [] => Ok (templateFunctions, templateExports)
  | (templateName, data) :: rest =>
      match templateSource templateName data with
      | None => compileEntries rest templateFunctions templateExports
      | Some src =>
          precompiled ← precompile src;
          compileEntries rest
            (templateFunctions +:+
             "// Template: " +:+ templateName +:+ nl +:+
             "const " +:+ functionName templateName +:+
             " = Handlebars.template(" +:+ precompiled +:+ ");" +:+ nl +:+ nl)
            (templateExports ++
             [{| export_name := templateName;
                 export_functionName := functionName templateName |}])
      end
  end.

(** The text written to templates.js and the export table it was
    generated from; [templates] is the object's entry list. *)
Definition _generateStaticTemplates (templates : list (string * templateData))
  : result (string * list templateExport) :=
  '(templateFunctions, templateExports) ← compileEntries templates header [];
  Ok (templateFunctions +:+ exportMapping templateExports, templateExports).

End Compile.

(** The entries the loop compiles, each with its source: those that
    have one, in order. *)
Definition sources_of (templates : list (string * templateData)) : list (string * string) :=
  omap (fun '(templateName, data) =>
          match templateSource templateName data with
          | Some src => Some (templateName, src)
          | None => None
          end) templates.

(** Two identifiers with the same number of code units that agree
    wherever either has a letter or a digit. *)
Fixpoint same_skeleton (a b : list codeUnit) : Prop :=
  match a, b with
  | [], [] => True
  | x :: a', y :: b' =>
      (x = y \/ (unit_alnum x = false /\ unit_alnum y = false)) /\ same_skeleton a' b'
  | _, _ => False
  end.

(** *** The esbuild plugins *)

(** A module text a plugin hands to the bundler in place of a file. *)
Inductive contents :=
| staticHelpersIndex   (* the static index of all helper modules *)
| staticHelpers.       (* the static third-party helpers module *)

(** [build.onResolve({ filter }, callback)]: the filter on the import
    specifier and the [path] the callback returns for it. *)
Record onResolve := OnResolve {
  resolve_filter : string -> bool;
  resolve_path : string -> result string;
}.

(** [build.onLoad({ filter }, callback)]: the filter on the file path
    and the [contents] the callback returns. *)
Record onLoad := OnLoad {
  load_filter : string -> bool;
  load_contents : contents;
}.

Record plugin := Plugin {
  plugin_name : string;
  resolvers : list onResolve;
  loaders : list onLoad;
}.

(** [/suffix$/] for a literal suffix. *)
Fixpoint ends_with (suffix path : string) : bool :=
  if String.eqb path suffix then true
  else match path with
       | EmptyString => false
       | String _ rest => ends_with suffix rest
       end.

(** esbuild runs the resolve callbacks of the registered plugins in
    registration order; the first one whose filter matches decides the
    path, and without one esbuild resolves the import itself. *)
Definition esbuild_resolve (plugins : list plugin) (default : string -> result string)
    (specifier : string) : result string :=
  match find (fun h => resolve_filter h specifier) (flat_map resolvers plugins) with
  | Some h => resolve_path h specifier
  | None => default specifier
  end.

(** Likewise for the load callbacks: [None] when esbuild reads the file
    itself. *)
Definition esbuild_load (plugins : list plugin) (path : string) : option contents :=
  match find (fun h => load_filter h path) (flat_map loaders plugins) with
  | Some h => Some (load_contents h)
  | None => None
  end.

Section Plugins.

(** [createRequire(import.meta.url).resolve] *)
Variable require_resolve : string -> result string.

(** The two polyfill plugins of the @esbuild-plugins packages. *)
Variable NodeModulesPolyfillPlugin : plugin.
Variable NodeGlobalsPolyfillPlugin : plugin.

Definition handlebarsRuntimePlugin : plugin :=
  {| plugin_name := "handlebars-runtime";
     resolvers :=
       [ {| resolve_filter := String.eqb "handlebars";
            resolve_path := fun _ => require_resolve "handlebars/runtime" |};
         {| resolve_filter := String.eqb "@bigcommerce/handlebars-v4";
            resolve_path := fun _ =>
              match require_resolve "@bigcommerce/handlebars-v4/runtime" with
              | Ok path => Ok path
              | Throw _ => require_resolve "@bigcommerce/handlebars-v4"
              end |} ];
     loaders := [] |}.

Definition staticHelpersPlugin : plugin :=
  {| plugin_name := "static-helpers";
     resolvers := [];
     loaders :=
       [ {| load_filter := ends_with "stencil-paper-handlebars/helpers.js";
            load_contents := staticHelpersIndex |};
         {| load_filter := ends_with "helpers/thirdParty.js";
            load_contents := staticHelpers |} ] |}.

(** The [plugins] entry of the options passed to [esbuild.build]. *)
Definition build_plugins : list plugin :=
  [ staticHelpersPlugin; NodeModulesPolyfillPlugin; NodeGlobalsPolyfillPlugin ].

End Plugins.

(** *** The static third-party helpers module *)

Record whitelistEntry := WhitelistEntry {
  group : string;            (* [name] in the source *)
  include : list string;
}.

Definition whitelist : list whitelistEntry :=
  [ {| group := "array";
       include := ["after"; "arrayify"; "before"; "eachIndex"; "filter"; "first";
                   "forEach"; "inArray"; "isArray"; "last"; "lengthEqual"; "map";
                   "some"; "sort"; "sortBy"; "withAfter"; "withBefore"; "withFirst";
                   "withLast"; "withSort"] |};
    {| group := "collection"; include := ["isEmpty"; "iterate"; "length"] |};
    {| group := "comparison";
       include := ["and"; "gt"; "gte"; "has"; "eq"; "ifEven"; "ifNth"; "ifOdd";
                   "is"; "isnt"; "lt"; "lte"; "neither"; "unlessEq"; "unlessGt";
                   "unlessLt"; "unlessGteq"; "unlessLteq"] |};
    {| group := "html"; include := ["ellipsis"; "sanitize"; "ul"; "ol"; "thumbnailImage"] |};
    {| group := "inflection"; include := ["inflect"; "ordinalize"] |};
    {| group := "markdown"; include := ["markdown"] |};
    {| group := "math";
       include := ["add"; "subtract"; "divide"; "multiply"; "floor"; "ceil"; "round";
                   "sum"; "avg"] |};
    {| group := "number";
       include := ["addCommas"; "phoneNumber"; "random"; "toAbbr"; "toExponential";
                   "toFixed"; "toFloat"; "toInt"; "toPrecision"] |};
    {| group := "object";
       include := ["extend"; "forIn"; "forOwn"; "toPath"; "hasOwn"; "isObject";
                   "merge"; "JSONparse"; "JSONstringify"] |};
    {| group := "string";
       include := ["camelcase"; "capitalize"; "capitalizeAll"; "center"; "chop";
                   "dashcase"; "dotcase"; "hyphenate"; "isString"; "lowercase";
                   "pascalcase"; "pathcase"; "plusify"; "reverse"; "sentence";
                   "snakecase"; "split"; "startsWith"; "titleize"; "trim"; "uppercase"] |};
    {| group := "url";
       include := ["encodeURI"; "decodeURI"; "urlResolve"; "urlParse"; "stripProtocol"] |} ].

Section ThirdParty.

(** A helper implementation, opaque here. *)
Variable helper : Type.

(** The default export of an imported helper module: an object from
    names to members, or [None] when the export is falsy. *)
Variable import_default : string -> option (gmap string helper).

Definition modules : list (string * option (gmap string helper)) :=
  [ ("array", import_default "./3p/array.js");
    ("collection", import_default "./3p/collection.js");
    ("comparison", import_default "./3p/comparison.js");
    ("html", import_default "./3p/html.js");
    ("inflection", import_default "./3p/inflection.js");
    ("markdown", import_default "./3p/markdown.js");
    ("math", import_default "./3p/math.js");
    ("number", import_default "./3p/number.js");
    ("object", import_default "./3p/object.js");
    ("string", import_default "./3p/string.js");
    ("url", import_default "./3p/url.js") ].

(** [modules[name]], when truthy. *)
Definition module_of (name : string) : option (gmap string helper) :=
  match find (fun kv => String.eqb (fst kv) name) modules with
  | Some (_, m) => m
  | None => None
  end.

(** An entry of the exported table; [factory] is the closure
    [() => module[name]]. *)
Record exportedHelper := ExportedHelper {
  helper_name : string;
  factory : unit -> option helper;
}.

(** One iteration of the outer loop: what the group pushes. *)
Definition exportGroup (spec : whitelistEntry) : list exportedHelper :=
  match module_of (group spec) with
  | None => []      (* console.warn('Missing module:', spec.name); continue *)
  | Some module =>
      map (fun name => {| helper_name := name; factory := fun _ => module !! name |})
          (include spec)
  end.

Definition exportedHelpers : list exportedHelper :=
  flat_map exportGroup whitelist.

End ThirdParty.

(** *** The orchestrator *)

(** The awaited steps of [initBundle]. *)
Inductive stage :=
| ValidateTheme
| CreateOutputDirectory
| AssembleTemplates
| AssembleLang
| GetSchema
| GetConfig
| GenerateWorkerPackageJson
| InstallWorkerDependencies
| GenerateWorkerScript
| CopyAssets
| GenerateWranglerConfig.

Definition stage_eq_dec (a b : stage) : {a = b} + {a <> b}.
Proof. decide equality. Defined.

(** What a run leaves behind, in order: the lines this file's code
    writes with [console.log], [console.warn] and [console.error], and
    the steps entered. *)
Inductive event :=
| ConsoleLog (line : string)
| ConsoleWarn (line : string)
| ConsoleError (line : string)
| Enter (s : stage).

(** A computation that appends to the run's events and returns or
    throws. *)
Definition run (A : Type) : Type := list event -> list event * result A.

#[export] Instance run_ret : MRet run := fun A a events => (events, Ok a).
#[export] Instance run_bind : MBind run := fun A B k m events =>
  match m events with
  | (events', Ok a) => k a events'
  | (events', Throw e) => (events', Throw e)
  end.

Definition console_log (line : string) : run unit :=
  fun events => (events ++ [ConsoleLog line], Ok tt).

Definition console_warn (line : string) : run unit :=
  fun events => (events ++ [ConsoleWarn line], Ok tt).

Definition console_error (line : string) : run unit :=
  fun events => (events ++ [ConsoleError line], Ok tt).

(** The console lines of a loop, written in order. *)
Definition console_lines (lines : list event) : run unit :=
  fun events => (events ++ lines, Ok tt).

(** Awaiting a step whose outcome the environment determines. *)
Definition await {A} (s : stage) (outcome : result A) : run A :=
  fun events => (events ++ [Enter s], outcome).

(** Awaiting a step of this class that writes to the console itself. *)
Definition await_step {A} (s : stage) (step : run A) : run A :=
  fun events => step (events ++ [Enter s]).

(** A call inside a step: its outcome, nothing on the console. *)
Definition call {A} (outcome : result A) : run A := fun events => (events, outcome).

Definition throw {A} (e : error) : run A := fun events => (events, Throw e).

(** [try { body } catch (err) { handler(err) }] *)
Definition try_catch {A} (body : run A) (handler : error -> run A) : run A :=
  fun events =>
    match body events with
    | (events', Ok a) => (events', Ok a)
    | (events', Throw e) => handler e events'
    end.

(** [err.message ? err.message : String(err)] for an Error object. *)
Definition errorMessage (err : error) : string :=
  if truthy (JStr (message err)) then message err else Js.name err.

(** The steps a run entered, in order. *)
Definition stages_of (events : list event) : list stage :=
  omap (fun ev => match ev with Enter s => Some s | _ => None end) events.

(** The lines a run wrote with [console.error], in order. *)
Definition errors_of (events : list event) : list string :=
  omap (fun ev => match ev with ConsoleError line => Some line | _ => None end) events.

(** A computation that enters no step and only appends to the events: it
    writes the same lines and has the same outcome whatever was written
    before. *)
Definition console_only {A} (m : run A) : Prop :=
  stages_of (fst (m [])) = [] /\
  forall events, m events = (events ++ fst (m []), snd (m [])).

(** The error of a rejection. *)
Definition error_of {A} (outcome : result A) : option error :=
  match outcome with
  | Ok _ => None
  | Throw e => Some e
  end.

Section Orchestrator.

Variables translations schema configuration : Type.

(** The collaborators and the silent steps, each with the outcome it has
    in this run; [assembleTemplates] gives the entries of the object
    [_assembleTemplates] returns. *)
Variable validateTheme : option error.   (* the callback's [err] *)
Variable mkdir : string -> result unit.
Variable assembleTemplates : result (list (string * templateData)).
Variable assembleLang : result translations.
Variable getSchema : result schema.
Variable getConfig : result configuration.
Variable generateWorkerPackageJson : string -> result unit.
Variable installWorkerDependencies : string -> result unit.
Variable copyAssets : string -> result unit.
Variable generateWranglerConfig : string -> result unit.

(** What the worker-script step calls. *)
Variable import_Handlebars : result unit.      (* [await import('handlebars')] *)
Variable precompile : string -> result string.
Variable writeFile : string -> string -> result unit.
Variable readFile : string -> result string.
Variable unlink : string -> result unit.
(** The text [_getInlineWorkerTemplate] returns. *)
Variable inlineWorkerTemplate : string.
(** The text [JSON.stringify(value, null, 2)] puts in place of a
    placeholder, or the error it throws. *)
Variable JSON_stringify : forall A : Type, A -> result string.
(** The dynamic imports and [esbuild.build], with the options of the
    method, for an entry point and an output file. *)
Variable esbuild_build : string -> string -> result unit.
(** How the console renders an error object. *)
Variable inspect : error -> string.
Variable dirname : string.                     (* [__dirname] *)
Variable option_apiUrl : option string.        (* [this.options.apiUrl] *)

Variable path_join : list string -> string.
Variable themePath : string.
(** [this.options.dest] *)
Variable dest : option string.

Definition _validateTheme : run bool :=
  _ ← console_log "Validating theme...";
  await ValidateTheme
    match validateTheme with
    | Some err => Throw err
    | None => Ok true
    end.

Definition outputDirectory : string :=
  match dest with
  | Some d => if truthy (JStr d) then d else path_join [themePath; "worker-bundle"]
  | None => path_join [themePath; "worker-bundle"]
  end.

(** The warning for an entry the loop skips. *)
Definition skipped (templateName : string) (data : templateData) : string :=
  match data with
  | Other type => "Skipping " +:+ templateName +:+ ": unexpected data type " +:+ type
  | _ => "Skipping " +:+ templateName +:+ ": no template source found in object"
  end.

(** What the loop of [_generateStaticTemplates] writes to the console: a
    warning for every entry it skips and, for the first entry whose
    source does not compile, the error line after which it throws the
    error again. *)
Fixpoint compileConsole (entries : list (string * templateData)) : list event :=
  match entries with
  | [] => []
  | (templateName, data) :: rest =>
      match templateSource templateName data with
      | None => ConsoleWarn (skipped templateName data) :: compileConsole rest
      | Some src =>
          match precompile src with
          | Ok _ => compileConsole rest
          | Throw err =>
              [ConsoleError ("Error pre-compiling template " +:+ templateName +:+ ": "
                             +:+ message err)]
          end
      end
  end.

(** [_generateStaticTemplates] as a step of the build: the console
    output of its loop, the module text of [_generateStaticTemplates]
    above written to templates.js, and the closing line. *)
Definition _generateStaticTemplates_step (outputDir : string)
    (templates : list (string * templateData)) : run unit :=
  _ ← call import_Handlebars;
  _ ← console_lines (compileConsole templates);
  '(templateFunctions, templateExports) ← call (_generateStaticTemplates precompile templates);
  _ ← call (writeFile (path_join [outputDir; "templates.js"]) templateFunctions);
  console_log ("ok -- Pre-compiled " +:+
               NilEmpty.string_of_uint (Nat.to_uint (length templateExports)) +:+
               " templates to static functions").

Definition _bundleWorkerWithEsbuild (outputDir sourceWorkerPath : string) : run unit :=
  try_catch
    (call (esbuild_build sourceWorkerPath (path_join [outputDir; "worker.js"])))
    (fun err =>
       _ ← console_error ("esbuild bundling failed: " +:+ inspect err);
       throw err).

Definition _generateWorkerScript (outputDir : string)
    (templates : list (string * templateData)) (translationsData : translations)
    (schemaData : schema) (configurationData : configuration) : run unit :=
  _ ← console_log "Pre-compiling templates to JavaScript functions...";
  _ ← _generateStaticTemplates_step outputDir templates;
  let workerTemplatePath := path_join [dirname; "../templates/worker-entry.js"] in
  let workerTemplate :=
    match readFile workerTemplatePath with
    | Ok text => text
    | Throw _ => inlineWorkerTemplate
    end in
  translationsText ← call (JSON_stringify _ translationsData);
  schemaText ← call (JSON_stringify _ schemaData);
  configurationText ← call (JSON_stringify _ configurationData);
  let workerScript :=
    Link.workerScript workerTemplate translationsText schemaText configurationText
      option_apiUrl in
  let sourceWorkerPath := path_join [outputDir; "worker.source.js"] in
  _ ← call (writeFile sourceWorkerPath workerScript);
  _ ← console_log "Bundling worker with esbuild...";
  _ ← _bundleWorkerWithEsbuild outputDir sourceWorkerPath;
  _ ← call (unlink sourceWorkerPath);
  console_log "ok -- Worker bundling complete".

Definition initBundle : run string :=
  try_catch
    (_ ← console_log "Starting Cloudflare Worker bundle process...";
     _ ← _validateTheme;
     let outputDir := outputDirectory in
     _ ← await CreateOutputDirectory (mkdir outputDir);
     _ ← console_log "Template Parsing Started...";
     templates ← await AssembleTemplates assembleTemplates;
     _ ← console_log "ok -- Template Parsing Finished";
     _ ← console_log "Language Files Parsing Started...";
     translations ← await AssembleLang assembleLang;
     _ ← console_log "ok -- Language Files Parsing Finished";
     _ ← console_log "Building Theme Schema...";
     schema ← await GetSchema getSchema;
     _ ← console_log "ok -- Theme Schema Building Finished";
     configuration ← await GetConfig getConfig;
     _ ← await GenerateWorkerPackageJson (generateWorkerPackageJson outputDir);
     _ ← console_log "Installing worker dependencies...";
     _ ← await InstallWorkerDependencies (installWorkerDependencies outputDir);
     _ ← console_log "ok -- Dependencies Installed";
     _ ← console_log "Generating Worker Script...";
     _ ← await_step GenerateWorkerScript
           (_generateWorkerScript outputDir templates translations schema configuration);
     _ ← console_log "ok -- Worker Script Generation Finished";
     _ ← console_log "Copying Assets...";
     _ ← await CopyAssets (copyAssets outputDir);
     _ ← console_log "ok -- Assets Copying Finished";
     _ ← console_log "Generating Wrangler Configuration...";
     _ ← await GenerateWranglerConfig (generateWranglerConfig outputDir);
     _ ← console_log "ok -- Wrangler Configuration Generated";
     mret outputDir)
    (fun err =>
       _ ← console_error ("failed  -- " +:+ errorMessage err);
       throw err).

(** The error with which step [s] rejects when it is reached in this
    environment, if it does.  The worker-script step works on what the
    four assembling steps return; where one of those is missing it is
    not reached and has no outcome. *)
Definition failure (s : stage) : option error :=
  match s with
  | ValidateTheme => validateTheme
  | CreateOutputDirectory => error_of (mkdir outputDirectory)
  | AssembleTemplates => error_of assembleTemplates
  | AssembleLang => error_of assembleLang
  | GetSchema => error_of getSchema
  | GetConfig => error_of getConfig
  | GenerateWorkerPackageJson => error_of (generateWorkerPackageJson outputDirectory)
  | InstallWorkerDependencies => error_of (installWorkerDependencies outputDirectory)
  | GenerateWorkerScript =>
      match assembleTemplates, assembleLang, getSchema, getConfig with
      | Ok t, Ok tr, Ok sc, Ok c =>
          error_of (snd (_generateWorkerScript outputDirectory t tr sc c []))
      | _, _, _, _ => None
      end
  | CopyAssets => error_of (copyAssets outputDirectory)
  | GenerateWranglerConfig => error_of (generateWranglerConfig outputDirectory)
  end.

End Orchestrator.

(** The order in which [initBundle] awaits its steps. *)
Definition stage_order : list stage :=
  [ ValidateTheme; CreateOutputDirectory; AssembleTemplates; AssembleLang;
    GetSchema; GetConfig; GenerateWorkerPackageJson; InstallWorkerDependencies;
    GenerateWorkerScript; CopyAssets; GenerateWranglerConfig ].

(** The steps that come before [s] in an order. *)
Fixpoint earlier (s : stage) (order : list stage) : list stage :=
  match order with
  | [] => []
  | x :: rest => if stage_eq_dec x s then [] else x :: earlier s rest
  end.

(** The order as the specification words it: the output directory is
    created after the schema and configuration are fetched. *)
Definition worded_order : list stage :=
  [ ValidateTheme; AssembleTemplates; AssembleLang; GetSchema; GetConfig;
    CreateOutputDirectory; GenerateWorkerPackageJson; InstallWorkerDependencies;
    GenerateWorkerScript; CopyAssets; GenerateWranglerConfig ].

End WorkerBundle.

(** ** Timestamps in the UTC form the themes API uses *)

Module IsoDate.

Definition digit (c : ascii) : option Z :=
  if Str.is_digit c then Some (Z.of_nat (nat_of_ascii c) - 48) else None.

Fixpoint number (s : string) (acc : Z) : option Z :=
  match s with
  | EmptyString => Some acc
  | String c rest => d ← digit c; number rest (10 * acc + d)
  end.

Definition field (start len : nat) (s : string) : option Z :=
  number (substring start len s) 0.

Definition is_leap (y : Z) : bool :=
  ((y mod 4 =? 0) && negb (y mod 100 =? 0)) || (y mod 400 =? 0).

Definition days_in_month (y m : Z) : Z :=
  if m =? 2 then (if is_leap y then 29 else 28)
  else if (m =? 4) || (m =? 6) || (m =? 9) || (m =? 11) then 30 else 31.

(** Days from 1970-01-01 to the given civil date. *)
Definition days_from_civil (y m d : Z) : Z :=
  let y' := if m <=? 2 then y - 1 else y in
  let era := y' / 400 in
  let yoe := y' - era * 400 in
  let mp := if m <=? 2 then m + 9 else m - 3 in
  let doy := (153 * mp + 2) / 5 + d - 1 in
  let doe := yoe * 365 + yoe / 4 - yoe / 100 + doy in
  era * 146097 + doe - 719468.

Definition separators_ok (s : string) : bool :=
  String.eqb (substring 4 1 s) "-" && String.eqb (substring 7 1 s) "-" &&
  String.eqb (substring 10 1 s) "T" && String.eqb (substring 13 1 s) ":" &&
  String.eqb (substring 16 1 s) ":" && String.eqb (substring 19 1 s) "Z".

(** [new Date(s).valueOf()] on strings of the form
    YYYY-MM-DDTHH:MM:SSZ with every field in range; any other string is
    given [None]. *)
Definition valueOf (s : string) : option Z :=
  if (String.length s =? 20)%nat && separators_ok s then
    y ← field 0 4 s; mo ← field 5 2 s; d ← field 8 2 s;
    h ← field 11 2 s; mi ← field 14 2 s; sec ← field 17 2 s;
    if (1 <=? mo) && (mo <=? 12) && (1 <=? d) && (d <=? days_in_month y mo) &&
       (h <=? 23) && (mi <=? 59) && (sec <=? 59)
    then Some ((((days_from_civil y mo d * 24 + h) * 60 + mi) * 60 + sec) * 1000)
    else None
  else None.

End IsoDate.

(** ** Concrete sessions and inputs used below *)

Module Examples.

Definition theme (uuid updated_at : string) (is_private is_active : bool) : Theme.t :=
  {| Theme.uuid := uuid; Theme.name := uuid;
     Theme.is_private := is_private; Theme.is_active := is_active;
     Theme.updated_at := updated_at |}.

Definition session (themes : list Theme.t) (activate : jsval) : Push.options :=
  {| Push.themes := themes; Push.themeLimitReached := true;
     Push.deleteOldest := true; Push.themeIdsToDelete := None;
     Push.applyTheme := true; Push.activate := activate;
     Push.themeId := "theme-1"; Push.variationId := None;
     Push.variations := None |}.

(** Two deletable themes last updated at the same instant, and a newer
    one. *)
Definition tied_themes : list Theme.t :=
  [ theme "a" "2021-01-01T00:00:00Z" true false;
    theme "b" "2021-01-01T00:00:00Z" true false;
    theme "c" "2022-06-15T08:30:00Z" true false ].

(** No theme is both private and inactive. *)
Definition no_deletable : list Theme.t :=
  [ theme "live" "2021-01-01T00:00:00Z" true true;
    theme "shared" "2020-01-01T00:00:00Z" false false ].

Definition no_prompt (_ : list Push.choice) : list string := [].

Definition light_dark : list Variation.t :=
  [ {| Variation.uuid := "uuid-light"; Variation.name := "Light" |};
    {| Variation.uuid := "uuid-dark"; Variation.name := "Dark" |} ].

Definition variations_of (_ : string) : result (list Variation.t) := Ok light_dark.

Definition start : world :=
  {| bar := []; console := []; slept := []; calls := 0 |}.

(** [path.join] on segments that need no normalising. *)
Definition path_join (segments : list string) : string := join "/" segments.

(** A build in which every step succeeds, except the steps [failing]
    selects, which reject with [ENOENT]. *)
Definition ENOENT : error := {| Js.name := "Error"; message := "ENOENT: no such file or directory" |}.

Definition step (failing : WorkerBundle.stage -> bool) (s : WorkerBundle.stage) : result unit :=
  if failing s then Throw ENOENT else Ok tt.

Definition nothing_fails (_ : WorkerBundle.stage) : bool := false.

Definition templates_fail (s : WorkerBundle.stage) : bool :=
  match s with WorkerBundle.AssembleTemplates => true | _ => false end.

(** A theme with one template, which includes a partial of the external
    library "lib"; the library is not installed, so listing its template
    directory fails. *)
Definition home : string := "/theme/templates/pages/home.html".
Definition home_import : string := "{{> 'external/lib/templates/card'}}".

Definition recursiveReadDir (dir : string) : result (list string) :=
  if String.eqb dir "/theme/templates" then Ok [home] else Throw ENOENT.

Definition readFile (file : string) : result string :=
  if String.eqb file home then Ok ("<main>" +:+ home_import +:+ "</main>")
  else Throw ENOENT.

Definition match_externalPath (content : string) : option (list string) :=
  if String.eqb content ("<main>" +:+ home_import +:+ "</main>")
  then Some [home_import] else None.

Definition partialRegex_exec (templateImport : string) : option string :=
  if String.eqb templateImport home_import
  then Some "'external/lib/templates/card'" else None.

Definition assembleAndBundle (_ partial : string) : result WorkerBundle.templateData :=
  Ok (WorkerBundle.Source ("<p>" +:+ partial +:+ "</p>")).

Definition assemble_home : result (list (string * WorkerBundle.templateData)) :=
  WorkerBundle._assembleTemplates path_join "/" recursiveReadDir readFile
    match_externalPath partialRegex_exec "external/" assembleAndBundle "/theme".

(** The same theme with the library installed. *)
Definition recursiveReadDir_installed (dir : string) : result (list string) :=
  if String.eqb dir "/theme/node_modules/lib/templates"
  then Ok ["/theme/node_modules/lib/templates/card.html"]
  else recursiveReadDir dir.

Definition assemble_home_installed : result (list (string * WorkerBundle.templateData)) :=
  WorkerBundle._assembleTemplates path_join "/" recursiveReadDir_installed readFile
    match_externalPath partialRegex_exec "external/" assembleAndBundle "/theme".

(** Module resolution in a flat node_modules directory. *)
Definition node_resolve (specifier : string) : result string :=
  Ok ("/node_modules/" +:+ specifier +:+ ".js").

(** Stand-ins for the two polyfill plugins: they claim the names of
    Node built-ins and nothing else. *)
Definition NodeModulesPolyfillPlugin : WorkerBundle.plugin :=
  {| WorkerBundle.plugin_name := "node-modules-polyfills";
     WorkerBundle.resolvers :=
       [ {| WorkerBundle.resolve_filter :=
              fun s => existsb (String.eqb s) ["fs"; "path"; "os"; "crypto"; "stream"; "util"];
            WorkerBundle.resolve_path := fun s => Ok ("polyfill:" +:+ s) |} ];
     WorkerBundle.loaders := [] |}.

Definition NodeGlobalsPolyfillPlugin : WorkerBundle.plugin :=
  {| WorkerBundle.plugin_name := "node-globals-polyfill";
     WorkerBundle.resolvers :=
       [ {| WorkerBundle.resolve_filter :=
              fun s => existsb (String.eqb s) ["_node-buffer-polyfill_.js"; "_node-process-polyfill_.js"];
            WorkerBundle.resolve_path := fun s => Ok ("polyfill:" +:+ s) |} ];
     WorkerBundle.loaders := [] |}.

(** A math helper module that defines "add" and also a member that is
    not on the allow-list; the other modules are empty objects. *)
Definition math_module : gmap string nat := {[ "add" := 1%nat; "pow" := 2%nat ]}.

Definition import_default (path : string) : option (gmap string nat) :=
  if String.eqb path "./3p/math.js" then Some math_module else Some ∅.

(** The same with a math module that has no default export. *)
Definition import_without_math (path : string) : option (gmap string nat) :=
  if String.eqb path "./3p/math.js" then None else import_default path.

(** A stand-in for the template compiler that accepts every source. *)
Definition precompile (src : string) : result string :=
  Ok ("{ /* " +:+ src +:+ " */ }").

(** Two partials whose identifiers differ only in a separator. *)
Definition card_templates : list (string * WorkerBundle.templateData) :=
  [ ("components/product-card", WorkerBundle.Source "<a>{{name}}</a>");
    ("components/product/card", WorkerBundle.Source "<b>{{name}}</b>") ].

(** How the console shows an error here: name and message. *)
Definition inspect (err : error) : string := Js.name err +:+ ": " +:+ message err.

(** A build of the theme with the two product-card partials.  The worker
    entry template is not found, so the inline one is used; the bundler
    stands for the whole worker-script step when that is to fail. *)
Definition build (failing : WorkerBundle.stage -> bool) : WorkerBundle.run string :=
  WorkerBundle.initBundle unit unit unit
    (if failing WorkerBundle.ValidateTheme then Some ENOENT else None)
    (fun _ => step failing WorkerBundle.CreateOutputDirectory)
    (if failing WorkerBundle.AssembleTemplates then Throw ENOENT else Ok card_templates)
    (step failing WorkerBundle.AssembleLang)
    (step failing WorkerBundle.GetSchema)
    (step failing WorkerBundle.GetConfig)
    (fun _ => step failing WorkerBundle.GenerateWorkerPackageJson)
    (fun _ => step failing WorkerBundle.InstallWorkerDependencies)
    (fun _ => step failing WorkerBundle.CopyAssets)
    (fun _ => step failing WorkerBundle.GenerateWranglerConfig)
    (Ok tt) precompile (fun _ _ => Ok tt) (fun _ => Throw ENOENT) (fun _ => Ok tt)
    "export default {};" (fun _ _ => Ok "{}")
    (fun _ _ => step failing WorkerBundle.GenerateWorkerScript)
    inspect "/cli/lib" None path_join "/theme" None.

End Examples.

(** ** The other steps of the push workflow (lib/stencil-push.utils.js) *)

Module Upload.

(** The parsed deployment configuration: the two properties the steps
    read; [None] is a missing key. *)
Record stencilConfig := StencilConfig {
  normalStoreUrl : option string;
  accessToken : option string;
}.

(** The options object with the properties the upload steps add to the
    ones of [Push.options]. *)
Record session := Session {
  options : Push.options;
  dotStencilFilePath : option string;
  config : option stencilConfig;
  apiHost : string;
  storeHash : option string;
  bundleZipPath : option string;
  saveBundleName : option string;
  jobId : option string;
}.

Definition with_options (s : session) (o : Push.options) : session :=
  {| options := o; dotStencilFilePath := dotStencilFilePath s; config := config s;
     apiHost := apiHost s; storeHash := storeHash s; bundleZipPath := bundleZipPath s;
     saveBundleName := saveBundleName s; jobId := jobId s |}.

(** [{ ...options, config }] *)
Definition with_config (s : session) (c : stencilConfig) : session :=
  {| options := options s; dotStencilFilePath := dotStencilFilePath s; config := Some c;
     apiHost := apiHost s; storeHash := storeHash s; bundleZipPath := bundleZipPath s;
     saveBundleName := saveBundleName s; jobId := jobId s |}.

(** [{ ...options, storeHash }] *)
Definition with_storeHash (s : session) (h : string) : session :=
  {| options := options s; dotStencilFilePath := dotStencilFilePath s; config := config s;
     apiHost := apiHost s; storeHash := Some h; bundleZipPath := bundleZipPath s;
     saveBundleName := saveBundleName s; jobId := jobId s |}.

(** [{ ...options, bundleZipPath }] *)
Definition with_bundleZipPath (s : session) (path : string) : session :=
  {| options := options s; dotStencilFilePath := dotStencilFilePath s; config := config s;
     apiHost := apiHost s; storeHash := storeHash s; bundleZipPath := Some path;
     saveBundleName := saveBundleName s; jobId := jobId s |}.

Definition set_themeLimitReached (o : Push.options) (reached : bool) : Push.options :=
  {| Push.themes := Push.themes o; Push.themeLimitReached := reached;
     Push.deleteOldest := Push.deleteOldest o;
     Push.themeIdsToDelete := Push.themeIdsToDelete o;
     Push.applyTheme := Push.applyTheme o; Push.activate := Push.activate o;
     Push.themeId := Push.themeId o; Push.variationId := Push.variationId o;
     Push.variations := Push.variations o |}.

(** [{ ...options, jobId, themeLimitReached }] *)
Definition with_upload (s : session) (job : string) (reached : bool) : session :=
  {| options := set_themeLimitReached (options s) reached;
     dotStencilFilePath := dotStencilFilePath s; config := config s;
     apiHost := apiHost s; storeHash := storeHash s; bundleZipPath := bundleZipPath s;
     saveBundleName := saveBundleName s; jobId := Some job |}.

(** [err.name = tag; throw err]: the same error object under a new name. *)
Definition rename (tag : string) (err : error) : error :=
  {| Js.name := tag; message := message err |}.

Definition required (field : string) : error :=
  {| Js.name := "Error"; message := field +:+ " is required!" |}.

(** [validateOptions(options, fields)]; [has field] is
    [_.has(options, field)]. *)
Fixpoint validateOptions (has : string -> bool) (fields : list string) : result unit :=
  match fields with
  | [] => Ok tt
  | field :: rest =>
      if has field then validateOptions has rest else Throw (required field)
  end.

Definition is_some {A} (x : option A) : bool :=
  match x with Some _ => true | None => false end.

(** [_.has(options, path)] for the paths the steps validate. *)
Definition has (s : session) (path : string) : bool :=
  if String.eqb path "dotStencilFilePath" then is_some (dotStencilFilePath s)
  else if String.eqb path "config" then is_some (config s)
  else if String.eqb path "config.normalStoreUrl" then
    match config s with
    | Some c => is_some (normalStoreUrl c)
    | None => false
    end
  else false.

(** The destructuring [const { config: { accessToken }, ... } = options]:
    a TypeError when [options.config] is undefined. *)
Definition destructure_config (s : session) : result stencilConfig :=
  match config s with
  | Some c => Ok c
  | None => Throw (TypeError "Cannot read properties of undefined (reading 'accessToken')")
  end.

Section Steps.

(** [parseJsonFile] of fsUtils. *)
Variable parseJsonFile : string -> result stencilConfig.

Definition readStencilConfigFile (s : session) : result session :=
  _ ← validateOptions (has s) ["dotStencilFilePath"];
  match dotStencilFilePath s with
  | None => Throw (required "dotStencilFilePath")
  | Some path =>
      match parseJsonFile path with
      | Ok c => Ok (with_config s c)
      | Throw err => Throw (rename "StencilConfigReadError" err)
      end
  end.

(** The answer to the discovery request. *)
Record payload := Payload { store_hash : option string }.
Record response := Response {
  ok : bool;
  statusText : string;
  json : result payload;
}.

(** [new URL(url).host]: a TypeError for an invalid URL. *)
Variable URL_host : string -> result string.
(** [fetch(url)] of node-fetch. *)
Variable fetch : string -> result response.

Definition getStoreHash (s : session) : result session :=
  _ ← validateOptions (has s) ["config.normalStoreUrl"];
  match config s with
  | None => Throw (required "config.normalStoreUrl")
  | Some c =>
      match normalStoreUrl c with
      | None => Throw (required "config.normalStoreUrl")
      | Some url =>
          host ← URL_host url;
          let attempt :=
            response ← fetch ("https://" +:+ host +:+ "/admin/oauth/info");
            if negb (ok response)
            then Throw {| Js.name := "Error"; message := statusText response |}
            else
              body ← json response;
              match store_hash body with
              | Some h =>
                  if truthy (JStr h) then Ok (with_storeHash s h)
                  else Throw {| Js.name := "Error";
                                message := "Received empty store_hash value in the server response" |}
              | None =>
                  Throw {| Js.name := "Error";
                           message := "Received empty store_hash value in the server response" |}
              end in
          match attempt with
          | Ok s' => Ok s'
          | Throw err => Throw (rename "StoreHashReadError" err)
          end
      end
  end.

(** What [themeApiClient.postTheme] resolves with. *)
Record uploaded := Uploaded {
  uploaded_jobId : string;
  uploaded_themeLimitReached : jsval;
}.

(** [utils.uploadBundle]; [posted] is the outcome of the [postTheme]
    call it makes. *)
Definition uploadBundle (posted : result uploaded) (s : session) : result session :=
  _ ← destructure_config s;
  match posted with
  | Ok result =>
      Ok (with_upload s (uploaded_jobId result) (truthy (uploaded_themeLimitReached result)))
  | Throw err => Throw (rename "ThemeUploadError" err)
  end.

Definition uploadBundleAgainIfNecessary (posted : result uploaded) (s : session)
  : result session :=
  if negb (Push.themeLimitReached (options s)) then Ok s
  else uploadBundle posted s.

(** [themeApiClient.deleteThemeById] for a theme id. *)
Variable deleteThemeById : string -> result unit.

(** [utils.deleteThemesIfNecessary]: the delete requests issued, in
    order, and the outcome.  Every request is issued before any is
    awaited; the first rejection in list order stands for the one
    [Promise.all] rejects with. *)
Definition deleteThemesIfNecessary (s : session) : list string * result session :=
  match destructure_config s with
  | Throw e => ([], Throw e)
  | Ok _ =>
      if negb (Push.themeLimitReached (options s)) then ([], Ok s)
      else
        match Push.themeIdsToDelete (options s) with
        | None =>
            ([], Throw (rename "ThemeDeletionError"
                          (WorkerBundle.undefined_has_no "map")))
        | Some themeIdsToDelete =>
            (themeIdsToDelete,
             match WorkerBundle.all (map deleteThemeById themeIdsToDelete) with
             | Ok _ => Ok s
             | Throw err => Throw (rename "ThemeDeletionError" err)
             end)
        end
  end.

(** [themeConfig.getRawConfig()] and [bundle.initBundle()] of the archive
    bundle, the latter for the output descriptor [(dest, name)]. *)
Variable getRawConfig : result unit.
Variable initBundle : string * string -> result string.
Variables THEME_PATH tmpdir uuid : string.

Definition generateBundle (s : session) : result session :=
  if match bundleZipPath s with Some path => truthy (JStr path) | None => false end
  then Ok s
  else
    let output :=
      match saveBundleName s with
      | Some name => if truthy (JStr name) then (THEME_PATH, name) else (tmpdir, uuid)
      | None => (tmpdir, uuid)
      end in
    _ ← getRawConfig;
    match initBundle output with
    | Ok path => Ok (with_bundleZipPath s path)
    | Throw err => Throw (rename "BundleInitError" err)
    end.

(** [utils.promptUserForVariation]; [prompt] is the answer to the list
    prompt for the choices (name, value). *)
Variable prompt : list (string * string) -> string.

Definition promptUserForVariation (o : Push.options) : result Push.options :=
  if negb (Push.applyTheme o) ||
     match Push.variationId o with Some id => truthy (JStr id) | None => false end
  then Ok o
  else
    match Push.variations o with
    | None => Throw (WorkerBundle.undefined_has_no "map")
    | Some vs =>
        Ok (Push.with_variationId o
              (prompt (map (fun v => (Variation.name v, Variation.uuid v)) vs)))
    end.

End Steps.

End Upload.

(** ** The worker entry script (templates/worker-entry.js) *)

Module WorkerEntry.

Definition MIME_TYPES : list (string * string) :=
  [ (".js", "application/javascript"); (".mjs", "application/javascript");
    (".json", "application/json"); (".css", "text/css");
    (".html", "text/html"); (".htm", "text/html");
    (".svg", "image/svg+xml"); (".png", "image/png");
    (".jpg", "image/jpeg"); (".jpeg", "image/jpeg");
    (".gif", "image/gif"); (".webp", "image/webp");
    (".ico", "image/x-icon"); (".woff", "font/woff");
    (".woff2", "font/woff2"); (".ttf", "font/ttf");
    (".otf", "font/otf"); (".eot", "application/vnd.ms-fontobject");
    (".xml", "application/xml"); (".pdf", "application/pdf");
    (".txt", "text/plain"); (".map", "application/json") ].

(** An own property of an object literal. *)
Fixpoint own (key : string) (table : list (string * string)) : option string :=
  match table with
  | [] => None
  | (k, v) :: rest => if String.eqb k key then Some v else own key rest
  end.

(** The members every object inherits whose names are all lower case,
    the only ones a lower-cased key can name. *)
Definition inherited (key : string) : bool :=
  String.eqb key "constructor" || String.eqb key "__proto__".

(** What [MIME_TYPES[ext] || 'application/octet-stream'] evaluates to: a
    type, or an inherited member of the table object. *)
Inductive contentType :=
| Mime (type : string)
| Inherited (member : string).

Definition getMimeType (pathname : string) : contentType :=
  let ext := Text.toLowerCase (Text.from_last "." pathname) in
  match own ext MIME_TYPES with
  | Some type => if truthy (JStr type) then Mime type else Mime "application/octet-stream"
  | None => if inherited ext then Inherited ext else Mime "application/octet-stream"
  end.

(** The parsed request URL. *)
Record location := Location { pathname : string; search : string }.

Record response := Response {
  status : Z;
  statusText : string;
  content_type : option contentType;     (* the content-type header *)
  headers : list (string * string);      (* the other headers *)
  body : string;
}.

(** [new Response(body, { headers: { 'content-type': type } })] *)
Definition respond (type body : string) : response :=
  {| status := 200; statusText := ""; content_type := Some (Mime type);
     headers := []; body := body |}.

(** The response of the [catch] block. *)
Definition internalServerError (err : error) : response :=
  {| status := 500; statusText := ""; content_type := Some (Mime "text/plain");
     headers := []; body := "Internal Server Error: " +:+ message err |}.

(** What [apiResponse.json()] resolves with: null, or a value whose
    [template_file] can be read. *)
Inductive parsed (stencilData : Type) :=
| Null
| Data (d : stencilData).
Arguments Null {stencilData}.
Arguments Data {stencilData} d.

Section Handler.

Variable stencilData : Type.
Variable template_file : stencilData -> jsval.
(** The property key (and text) of a truthy [template_file]. *)
Variable ToString : jsval -> string.
(** [TEMPLATE_FUNCTIONS[templatePath]]: [None] when the lookup is falsy,
    otherwise the function, applied to the context built from the data. *)
Variable templateFunc : string -> option (stencilData -> result string).
(** [new URL(url.pathname + url.search, API_BASE_URL).toString()] *)
Variable apiUrl : location -> result string.
(** [fetch] of the upstream URL; the flag tells whether the request
    carries the X-BC-Json-Context header. *)
Variable fetch : string -> bool -> result response.
Variable json : response -> result (parsed stencilData).
(** [JSON.stringify(stencilData)] *)
Variable stringify : stencilData -> string.

Definition renderTemplate (d : stencilData) : result string :=
  let templatePath :=
    if truthy (template_file d) then ToString (template_file d) else "pages/home" in
  match templateFunc templatePath with
  | None => Throw {| Js.name := "Error";
                     message := "Template not found: " +:+ templatePath |}
  | Some render => render d
  end.

(** [apiResponse.headers.get('content-type') || ''] *)
Definition contentTypeText (r : response) : string :=
  match content_type r with
  | Some (Mime type) => type
  | _ => ""
  end.

(** The body of the [try] block of the fetch handler; [url] is
    [new URL(request.url)]. *)
Definition serve (url : result location) : result response :=
  loc ← url;
  if String.prefix "/assets/" (pathname loc) || String.prefix "/content/" (pathname loc)
  then
    target ← apiUrl loc;
    upstream ← fetch target false;
    Ok {| status := status upstream; statusText := statusText upstream;
          content_type := Some (getMimeType (pathname loc));
          headers := headers upstream; body := body upstream |}
  else
    target ← apiUrl loc;
    apiResponse ← fetch target true;
    if negb (Text.includes "application/json" (contentTypeText apiResponse))
    then Ok apiResponse
    else
      answer ← json apiResponse;
      match answer with
      | Null => Throw (TypeError "Cannot read properties of null (reading 'template_file')")
      | Data d =>
          if negb (truthy (template_file d))
          then Ok (respond "application/json" (stringify d))
          else
            html ← renderTemplate d;
            Ok (respond "text/html;charset=UTF-8" html)
      end.

(** The fetch handler. *)
Definition handle (url : result location) : response :=
  match serve url with
  | Ok r => r
  | Throw err => internalServerError err
  end.

End Handler.

End WorkerEntry.

(** ** More concrete inputs *)

Module Samples.

(** A template compiler that rejects one source. *)
Definition parse_error : error :=
  {| Js.name := "Error"; message := "Parse error on line 1" |}.

Definition precompile (src : string) : result string :=
  if String.eqb src "{{#if}}" then Throw parse_error else Ok ("{ /* " +:+ src +:+ " */ }").

Definition broken_templates : list (string * WorkerBundle.templateData) :=
  [ ("layout/base", WorkerBundle.Source "<html>{{{body}}}</html>");
    ("pages/broken", WorkerBundle.Source "{{#if}}");
    ("pages/home", WorkerBundle.Source "<h1>home</h1>") ].

(** A build of a theme whose second template does not compile; every
    other step and call succeeds, and the worker entry template is read
    from the file. *)
Definition build : WorkerBundle.run string :=
  WorkerBundle.initBundle unit unit unit
    None (fun _ => Ok tt) (Ok broken_templates) (Ok tt) (Ok tt) (Ok tt)
    (fun _ => Ok tt) (fun _ => Ok tt) (fun _ => Ok tt) (fun _ => Ok tt)
    (Ok tt) precompile (fun _ _ => Ok tt) (fun _ => Ok "export default {};")
    (fun _ => Ok tt) "" (fun _ _ => Ok "{}") (fun _ _ => Ok tt)
    Examples.inspect "/cli/lib" None Examples.path_join "/theme" None.

(** Three templates assigned in this order to an empty object. *)
Definition numbered_templates : list (string * WorkerBundle.templateData) :=
  fold_left (fun ret '(file, data) => WorkerBundle.obj_set ret file data)
    [ ("pages/home", WorkerBundle.Source "<h1>home</h1>");
      ("404", WorkerBundle.Source "<h1>not found</h1>");
      ("5", WorkerBundle.Source "<h1>five</h1>");
      ("007", WorkerBundle.Source "<h1>bond</h1>") ] [].

(** A store session with its configuration read. *)
Definition session (o : Push.options) : Upload.session :=
  {| Upload.options := o;
     Upload.dotStencilFilePath := Some "/theme/.stencil";
     Upload.config :=
       Some {| Upload.normalStoreUrl := Some "https://store.example.com";
               Upload.accessToken := Some "token" |};
     Upload.apiHost := "https://api.example.com";
     Upload.storeHash := Some "abc123";
     Upload.bundleZipPath := Some "/tmp/bundle.zip";
     Upload.saveBundleName := None;
     Upload.jobId := Some "job-1" |}.

Definition store_config : Upload.stencilConfig :=
  {| Upload.normalStoreUrl := Some "https://store.example.com";
     Upload.accessToken := Some "token" |}.

(** The host of an https URL, and a store that answers the discovery
    request with its hash. *)
Definition URL_host (url : string) : result string :=
  if String.prefix "https://" url then Ok (Str.slice 8 url)
  else Throw (TypeError "Invalid URL").

Definition store_info : Upload.response :=
  {| Upload.ok := true; Upload.statusText := "OK";
     Upload.json := Ok {| Upload.store_hash := Some "abc123" |} |}.

Definition fetch_info (url : string) : result Upload.response :=
  if String.eqb url "https://store.example.com/admin/oauth/info" then Ok store_info
  else Throw {| Js.name := "FetchError"; message := "request failed" |}.

(** Deleting theme "b" fails, every other deletion succeeds. *)
Definition deleteThemeById (id : string) : result unit :=
  if String.eqb id "b" then Throw {| Js.name := "Error"; message := "locked" |} else Ok tt.

(** A deletable theme with a valid date followed by one whose date does
    not parse. *)
Definition undated_themes : list Theme.t :=
  [ Examples.theme "a" "2021-01-01T00:00:00Z" true false;
    Examples.theme "x" "last week" true false ].

(** A session where the limit is reached and themes are picked by
    hand. *)
Definition manual (themes : list Theme.t) : Push.options :=
  {| Push.themes := themes; Push.themeLimitReached := true;
     Push.deleteOldest := false; Push.themeIdsToDelete := None;
     Push.applyTheme := true; Push.activate := JUndefined;
     Push.themeId := "theme-1"; Push.variationId := None;
     Push.variations := None |}.

Definition pick_first (choices : list (string * string)) : string :=
  match choices with
  | (_, value) :: _ => value
  | [] => ""
  end.

(** A worker whose only template is "pages/home"; the context is the
    name of the template to render. *)
Definition template_file (d : jsval) : jsval := d.

Definition ToString (v : jsval) : string :=
  match v with
  | JStr s => s
  | JBool true => "true"
  | JBool false => "false"
  | JNull => "null"
  | JUndefined => "undefined"
  | JNum _ => "0"
  end.

Definition templateFunc (templatePath : string) : option (jsval -> result string) :=
  if String.eqb templatePath "pages/home" then Some (fun _ => Ok "<h1>home</h1>") else None.

Definition apiUrl (loc : WorkerEntry.location) : result string :=
  Ok ("https://api.example.com" +:+ WorkerEntry.pathname loc +:+ WorkerEntry.search loc).

(** Upstream answers every asset request with a 404 HTML page and every
    page request with a JSON context. *)
Definition not_found : WorkerEntry.response :=
  {| WorkerEntry.status := 404; WorkerEntry.statusText := "Not Found";
     WorkerEntry.content_type := Some (WorkerEntry.Mime "text/html");
     WorkerEntry.headers := []; WorkerEntry.body := "<p>not found</p>" |}.

Definition context_response : WorkerEntry.response :=
  {| WorkerEntry.status := 200; WorkerEntry.statusText := "OK";
     WorkerEntry.content_type := Some (WorkerEntry.Mime "application/json; charset=utf-8");
     WorkerEntry.headers := []; WorkerEntry.body := "{}" |}.

Definition fetch (_ : string) (context : bool) : result WorkerEntry.response :=
  if context then Ok context_response else Ok not_found.

(** The context names the template "pages/cart", which the worker does
    not have. *)
Definition json (_ : WorkerEntry.response) : result (WorkerEntry.parsed jsval) :=
  Ok (WorkerEntry.Data (JStr "pages/cart")).

Definition stringify (d : jsval) : string := ToString d.

End Samples.

(** * Properties of the push workflow *)

Module PushSpec.

Import Push.

Section Quota.

Variable Date_valueOf : string -> option Z.
Variable Inquirer_prompt : list choice -> list string.

Local Abbreviation stamp := (stamp Date_valueOf).
Local Abbreviation older_theme := (older_theme Date_valueOf).
Local Abbreviation last_oldest := (last_oldest Date_valueOf).

Lemma older_to_dated prev current :
  older (to_dated Date_valueOf prev) (to_dated Date_valueOf current)
  = to_dated Date_valueOf (older_theme prev current).
Proof.
  unfold older, Push.older_theme, to_dated, Push.stamp; simpl.
  destruct (num_lt _ _); reflexivity.
Qed.

Lemma fold_older_to_dated rest acc :
  fold_left older (map (to_dated Date_valueOf) rest) (to_dated Date_valueOf acc)
  = to_dated Date_valueOf (fold_left older_theme rest acc).
Proof.
  revert acc; induction rest as [|c rest IH]; intros acc; simpl; [reflexivity|].
  rewrite older_to_dated. apply IH.
Qed.

Lemma last_oldest_step l acc c v :
  last_oldest l acc -> stamp c = Some v ->
  last_oldest (l ++ [c]) (older_theme acc c).
Proof.
  intros (before & after & ts & -> & Hts & Hb & Ha) Hc.
  unfold Push.older_theme. rewrite Hts, Hc. simpl.
  destruct (Z.ltb_spec ts v) as [Hlt|Hge].
  - exists before, (after ++ [c]), ts. repeat split; auto.
    + rewrite <- app_assoc. reflexivity.
    + intros x Hx. apply in_app_or in Hx as [Hx|[<-|[]]]; eauto.
  - exists (before ++ acc :: after), [], v. repeat split; auto.
    + intros x Hx. apply in_app_or in Hx as [Hx|[<-|Hx]].
      * destruct (Hb x Hx) as (w & Hw & Hle). exists w. split; [assumption|lia].
      * exists ts. split; [assumption|lia].
      * destruct (Ha x Hx) as (w & Hw & Hle). exists w. split; [assumption|lia].
    + intros x [].
Qed.

Lemma fold_older_last_oldest rest : forall l acc,
  last_oldest l acc ->
  (forall x, In x rest -> stamp x <> None) ->
  last_oldest (l ++ rest) (fold_left older_theme rest acc).
Proof.
  induction rest as [|c rest IH]; intros l acc Hl Hvalid; simpl.
  - rewrite app_nil_r. assumption.
  - destruct (stamp c) as [v|] eqn:Hc.
    + replace (l ++ c :: rest) with ((l ++ [c]) ++ rest)
        by (rewrite <- app_assoc; reflexivity).
      apply IH.
      * eapply last_oldest_step; eassumption.
      * intros x Hx. apply Hvalid. right. assumption.
    + exfalso. apply (Hvalid c); [left; reflexivity | assumption].
Qed.

Lemma oldestTheme_last_oldest (ts : list Theme.t) :
  List.filter deletable ts <> [] ->
  (forall t, In t (List.filter deletable ts) -> stamp t <> None) ->
  exists t, last_oldest (List.filter deletable ts) t /\
            oldestTheme Date_valueOf ts = Ok (to_dated Date_valueOf t).
Proof.
  unfold oldestTheme. intros Hne Hvalid.
  destruct (List.filter deletable ts) as [|x rest]; [congruence|]. simpl.
  exists (fold_left older_theme rest x). split.
  - change (x :: rest) with ([x] ++ rest). apply fold_older_last_oldest.
    + destruct (stamp x) as [v|] eqn:Hx.
      * exists [], [], v. repeat split; auto; intros y [].
      * exfalso. apply (Hvalid x); [left; reflexivity | assumption].
    + intros y Hy. apply Hvalid. right. assumption.
  - rewrite fold_older_to_dated. reflexivity.
Qed.

(** C4 (amended): with the limit reached and delete-oldest chosen, when
    some theme is private and not active and the candidates' dates are
    valid, the deletion list is the single identifier of the candidate
    with the least [updated_at]; among candidates sharing that least
    value it is the one that comes last in list order. *)
Theorem delete_oldest_picks_last_of_the_oldest (o : options) :
  themeLimitReached o = true ->
  deleteOldest o = true ->
  List.filter deletable (themes o) <> [] ->
  (forall t, In t (List.filter deletable (themes o)) -> stamp t <> None) ->
  exists t,
    last_oldest (List.filter deletable (themes o)) t /\
    promptUserToDeleteThemesIfNecessary Date_valueOf Inquirer_prompt o
    = Ok (with_themeIdsToDelete o [Theme.uuid t]).
Proof.
  intros Hlimit Hdel Hne Hvalid.
  destruct (oldestTheme_last_oldest (themes o) Hne Hvalid) as (t & Hlast & Hold).
  exists t. split; [assumption|].
  unfold promptUserToDeleteThemesIfNecessary.
  rewrite Hlimit, Hdel. simpl. rewrite Hold. reflexivity.
Qed.

(** C10: with the limit reached and delete-oldest chosen, when no theme
    is both private and not active, the step throws the TypeError of a
    reduce over an empty array: it neither returns a session nor raises
    a named workflow error. *)
Theorem delete_oldest_without_candidate_throws (o : options) :
  themeLimitReached o = true ->
  deleteOldest o = true ->
  (forall t, In t (themes o) -> ~ (Theme.is_private t = true /\ Theme.is_active t = false)) ->
  promptUserToDeleteThemesIfNecessary Date_valueOf Inquirer_prompt o
  = Throw (TypeError "Reduce of empty array with no initial value")
  /\ Js.name (TypeError "Reduce of empty array with no initial value") <> "ThemeDeletionError".
Proof.
  intros Hlimit Hdel Hnone.
  assert (Hfilter : List.filter deletable (themes o) = []).
  { induction (themes o) as [|t ts IH]; [reflexivity|]. simpl.
    destruct (deletable t) eqn:Ht.
    - exfalso. apply (Hnone t); [left; reflexivity|].
      unfold deletable in Ht. apply andb_prop in Ht as [Hp Ha].
      split; [assumption|]. destruct (Theme.is_active t); [discriminate | reflexivity].
    - apply IH. intros x Hx. apply Hnone. right. assumption. }
  split; [|discriminate].
  unfold promptUserToDeleteThemesIfNecessary, oldestTheme.
  rewrite Hlimit, Hdel, Hfilter. reflexivity.
Qed.

End Quota.

(** Witness for C4: the tied themes, where "b" is the last of the two
    oldest. *)
Lemma delete_oldest_picks_last_of_the_oldest_witness :
  exists t,
    last_oldest IsoDate.valueOf
      (List.filter deletable (themes (Examples.session Examples.tied_themes JUndefined))) t /\
    promptUserToDeleteThemesIfNecessary IsoDate.valueOf Examples.no_prompt
      (Examples.session Examples.tied_themes JUndefined)
    = Ok (with_themeIdsToDelete (Examples.session Examples.tied_themes JUndefined)
            [Theme.uuid t]).
Proof.
  apply (delete_oldest_picks_last_of_the_oldest IsoDate.valueOf Examples.no_prompt
           (Examples.session Examples.tied_themes JUndefined)).
  - reflexivity.
  - reflexivity.
  - simpl. discriminate.
  - intros t Ht. simpl in Ht.
    destruct Ht as [<-|[<-|[<-|[]]]]; vm_compute; discriminate.
Defined.

(** C4 as worded fails: of two candidates tied on the least date the
    code deletes the later one, "b", not the first, "a". *)
Lemma delete_oldest_tie_is_not_first :
  ~ (forall o : options,
       themeLimitReached o = true ->
       deleteOldest o = true ->
       List.filter deletable (themes o) <> [] ->
       exists t,
         first_oldest IsoDate.valueOf (List.filter deletable (themes o)) t /\
         promptUserToDeleteThemesIfNecessary IsoDate.valueOf Examples.no_prompt o
         = Ok (with_themeIdsToDelete o [Theme.uuid t])).
Proof.
  intros claim.
  destruct (claim (Examples.session Examples.tied_themes JUndefined))
    as (t & (before & after & ts & Hsplit & Hts & Hbefore & _) & Hrun);
    [reflexivity | reflexivity | simpl; discriminate |].
  vm_compute in Hrun.
  assert (Hb : Theme.uuid t = "b") by (injection Hrun; auto).
  simpl in Hsplit.
  destruct before as [|x before].
  - injection Hsplit as Ht _. subst t. discriminate Hb.
  - injection Hsplit as Hx Hrest. subst x.
    destruct (Hbefore (Examples.theme "a" "2021-01-01T00:00:00Z" true false))
      as (v & Hv & Hlt); [left; reflexivity|].
    destruct before as [|y before].
    + injection Hrest as Ht _. subst t.
      vm_compute in Hts, Hv. injection Hts as <-. injection Hv as <-. lia.
    + injection Hrest as _ Hrest.
      destruct before as [|z before].
      * injection Hrest as Ht _. subst t. discriminate Hb.
      * injection Hrest as _ Hrest. destruct before; discriminate Hrest.
Qed.

(** Witness for C10. *)
Lemma delete_oldest_without_candidate_throws_witness :
  promptUserToDeleteThemesIfNecessary IsoDate.valueOf Examples.no_prompt
    (Examples.session Examples.no_deletable JUndefined)
  = Throw (TypeError "Reduce of empty array with no initial value")
  /\ Js.name (TypeError "Reduce of empty array with no initial value") <> "ThemeDeletionError".
Proof.
  apply (delete_oldest_without_candidate_throws IsoDate.valueOf Examples.no_prompt
           (Examples.session Examples.no_deletable JUndefined)).
  - reflexivity.
  - reflexivity.
  - intros t Ht. simpl in Ht.
    destruct Ht as [<-|[<-|[]]]; simpl; intros [? ?]; discriminate.
Defined.

Section Variations.

Variable getVariationsByThemeId : string -> result (list Variation.t).

(** C2 (what the code does): when activation is requested with a
    variation name, the name is never looked up: the guard of the lookup
    branch only lets falsy values through, so any supplied (non-empty)
    name selects the first listed variation, whether it matches one or
    not, and no error lists the valid names. *)
Theorem getVariations_supplied_name_selects_first
    (o : options) (supplied : string) (first : Variation.t) (rest : list Variation.t) :
  applyTheme o = true ->
  activate o = JStr supplied ->
  supplied <> "" ->
  getVariationsByThemeId (themeId o) = Ok (first :: rest) ->
  getVariations getVariationsByThemeId o
  = Ok (with_variationId o (Variation.uuid first)).
Proof.
  intros Happly Hactivate Hname Hvs.
  unfold getVariations. rewrite Happly, Hvs, Hactivate. simpl.
  destruct (String.eqb_spec supplied ""); [contradiction|]. reflexivity.
Qed.

(** Activation requested without a name ([activate === true]) selects
    the first listed variation. *)
Lemma getVariations_generic_selects_first
    (o : options) (first : Variation.t) (rest : list Variation.t) :
  applyTheme o = true ->
  activate o = JBool true ->
  getVariationsByThemeId (themeId o) = Ok (first :: rest) ->
  getVariations getVariationsByThemeId o
  = Ok (with_variationId o (Variation.uuid first)).
Proof.
  intros Happly Hactivate Hvs.
  unfold getVariations. rewrite Happly, Hvs, Hactivate. reflexivity.
Qed.

End Variations.

(** The failing input of C2: "Dark" is supplied with the variations
    Light, Dark, and the code selects Light's identifier. *)
Lemma getVariations_supplied_name_selects_first_witness :
  getVariations Examples.variations_of (Examples.session [] (JStr "Dark"))
  = Ok (with_variationId (Examples.session [] (JStr "Dark")) "uuid-light").
Proof.
  apply (getVariations_supplied_name_selects_first Examples.variations_of
           (Examples.session [] (JStr "Dark")) "Dark"
           {| Variation.uuid := "uuid-light"; Variation.name := "Light" |}
           [ {| Variation.uuid := "uuid-dark"; Variation.name := "Dark" |} ]).
  - reflexivity.
  - reflexivity.
  - discriminate.
  - reflexivity.
Defined.

(** With "Purple", which names no variation, the step still succeeds
    with Light's identifier instead of failing. *)
Example getVariations_unknown_name_succeeds :
  getVariations Examples.variations_of (Examples.session [] (JStr "Purple"))
  = Ok (with_variationId (Examples.session [] (JStr "Purple")) "uuid-light").
Proof. reflexivity. Qed.

Section Poll.

Variable job_result : Type.
Variable merge : options -> job_result -> options.

Lemma after_pending_nil w : after_pending [] w = w.
Proof.
  unfold after_pending. destruct w; simpl. f_equal; try apply app_nil_r. lia.
Qed.

Lemma after_pending_cons p ps w :
  after_pending ps
    (setTimeout 1000 (markJobProgressPercentage (JStr p)
       {| bar := bar w; console := console w; slept := slept w; calls := S (calls w) |}))
  = after_pending (p :: ps) w.
Proof.
  unfold after_pending; simpl. f_equal.
  - rewrite <- app_assoc. reflexivity.
  - rewrite <- app_assoc. reflexivity.
  - lia.
Qed.

Lemma poll_attempts (getJob : nat -> result job_result) (o : options) (last : result job_result) :
  forall (ps : list string) (extra attempt : nat) (w : world),
  (forall i, getJob (calls w + i)%nat = nth i (map pendingR ps) last) ->
  retryAttempt pollOptions (checkIfJobIsComplete job_result merge getJob o)
    (length ps + S extra) attempt w
  = retryAttempt pollOptions (checkIfJobIsComplete job_result merge getJob o)
      (S extra) (attempt + length ps) (after_pending ps w).
Proof.
  induction ps as [|p ps IH]; intros extra attempt w Hscript.
  - rewrite after_pending_nil. simpl length. rewrite Nat.add_0_r. reflexivity.
  - change (length (p :: ps) + S extra)%nat with (S (length ps + S extra)).
    pose proof (Hscript 0%nat) as H0. rewrite Nat.add_0_r in H0. simpl in H0.
    rewrite <- after_pending_cons.
    replace (attempt + length (p :: ps))%nat with (S attempt + length ps)%nat
      by (simpl; lia).
    rewrite <- IH.
    + cbn [retryAttempt]. unfold checkIfJobIsComplete at 1, remote_call.
      rewrite H0. reflexivity.
    + intros i. simpl. specialize (Hscript (S i)). simpl in Hscript.
      rewrite <- Hscript. f_equal. lia.
Qed.

Lemma poll_never_gives_up (getJob : nat -> result job_result) (o : options) :
  (forall k, exists p, getJob k = pendingR p) ->
  forall (fuel attempt : nat) (w : world),
  snd (retryAttempt pollOptions (checkIfJobIsComplete job_result merge getJob o)
         fuel attempt w) = None /\
  calls (fst (retryAttempt pollOptions (checkIfJobIsComplete job_result merge getJob o)
                fuel attempt w)) = (calls w + fuel)%nat.
Proof.
  intros Hpending. induction fuel as [|fuel IH]; intros attempt w.
  - simpl. split; [reflexivity | lia].
  - cbn [retryAttempt]. unfold checkIfJobIsComplete at 1 3, remote_call.
    destruct (Hpending (calls w)) as (p & ->). unfold pendingR. cbn.
    match goal with |- context [retryAttempt _ _ fuel ?a ?w'] =>
      destruct (IH a w') as [Hnone Hcalls] end.
    split; [assumption|]. rewrite Hcalls. simpl. lia.
Qed.

(** C5: the poll waits 1000 ms between attempts and has no attempt
    limit.  Against a job that answers pending with the percentages [ps]
    and then (a) completes, the loop ends with the completed session
    after [length ps + 1] calls, having shown the percentages in order
    and then 100; (b) fails with any other error, the loop ends with that
    error, not retried.  (c) Against a job that is always pending the loop
    is still polling after any number of attempts. *)
Theorem poll_for_job_completion (o : options) (ps : list string) (fuel : nat) (w : world) :
  calls w = 0%nat ->
  (length ps < fuel)%nat ->
  (forall res,
     let '(w', r) := pollForJobCompletion job_result merge
                       (script (map pendingR ps) (Ok res)) o fuel w in
     r = Some (Ok (merge o res)) /\
     bar w' = bar w ++ map JStr ps ++ [JNum 100] /\
     slept w' = slept w ++ repeat 1000 (length ps) /\
     calls w' = S (length ps)) /\
  (forall e,
     Js.name e <> "JobCompletionStatusCheckPendingError" ->
     let '(w', r) := pollForJobCompletion job_result merge
                       (script (map pendingR ps) (Throw e)) o fuel w in
     r = Some (Throw e) /\
     bar w' = bar w ++ map JStr ps /\
     slept w' = slept w ++ repeat 1000 (length ps) /\
     calls w' = S (length ps)) /\
  (forall getJob attempts,
     (forall k, exists p, getJob k = pendingR p) ->
     let '(w', r) := pollForJobCompletion job_result merge getJob o attempts w in
     r = None /\ calls w' = attempts) /\
  interval pollOptions = 1000 /\ times pollOptions = None.
Proof.
  intros Hcalls Hfuel.
  assert (Hfuel' : exists extra, fuel = (length ps + S extra)%nat)
    by (exists (fuel - length ps - 1)%nat; lia).
  destruct Hfuel' as (extra & ->).
  repeat split.
  - intros res. unfold pollForJobCompletion, retryable.
    rewrite (poll_attempts _ o (Ok res)) by (intros i; rewrite Hcalls; reflexivity).
    cbn [retryAttempt]. unfold checkIfJobIsComplete, remote_call.
    replace (script (map pendingR ps) (Ok res) (calls (after_pending ps w)))
      with (Ok (A:=job_result) res).
    + simpl. rewrite Hcalls. repeat split.
      rewrite <- app_assoc. reflexivity.
    + unfold script. simpl. rewrite Hcalls. simpl.
      rewrite nth_overflow; [reflexivity | rewrite length_map; lia].
  - intros e He. unfold pollForJobCompletion, retryable.
    rewrite (poll_attempts _ o (Throw e)) by (intros i; rewrite Hcalls; reflexivity).
    cbn [retryAttempt]. unfold checkIfJobIsComplete, remote_call.
    replace (script (map pendingR ps) (Throw e) (calls (after_pending ps w)))
      with (Throw (A:=job_result) e).
    + simpl. unfold pollFilter.
      destruct (String.eqb_spec (Js.name e) "JobCompletionStatusCheckPendingError");
        [contradiction|].
      simpl. rewrite Hcalls. repeat split.
    + unfold script. simpl. rewrite Hcalls. simpl.
      rewrite nth_overflow; [reflexivity | rewrite length_map; lia].
  - intros getJob attempts Hpending.
    destruct (poll_never_gives_up getJob o Hpending attempts 1 w) as [Hnone Hc].
    unfold pollForJobCompletion, retryable.
    destruct (retryAttempt _ _ attempts 1 w) as [w' r]. simpl in *.
    split; [assumption | lia].
Qed.

End Poll.

(** Witness for C5: the answers pending(10), pending(55), complete give
    the progress updates 10, 55, 100 and the loop ends with the third
    call. *)
Lemma poll_for_job_completion_witness :
  let '(w', r) := pollForJobCompletion unit (fun o _ => o)
                    (script [pendingR "10"; pendingR "55"] (Ok tt))
                    (Examples.session [] JUndefined) 3 Examples.start in
  r = Some (Ok (Examples.session [] JUndefined)) /\
  bar w' = [JStr "10"; JStr "55"; JNum 100] /\
  slept w' = [1000; 1000] /\
  calls w' = 3%nat.
Proof.
  exact (proj1 (poll_for_job_completion unit (fun o _ => o)
                  (Examples.session [] JUndefined) ["10"; "55"] 3 Examples.start
                  eq_refl (le_n 3)) tt).
Defined.

Section Activation.

Lemma activation_at_most_three (activate : nat -> result unit) (o : options)
    (extra : nat) (w : world) :
  applyTheme o = true ->
  exists w' r,
    requestToApplyVariationWithRetrys activate o (3 + extra) w = (w', Some r) /\
    (calls w' <= calls w + 3)%nat.
Proof.
  intros Happly.
  unfold requestToApplyVariationWithRetrys, retryable.
  cbn [retryAttempt Nat.add]. unfold requestToApplyVariation, remote_call.
  rewrite Happly.
  destruct (activate (calls w)) as [[]|e1]; cbn.
  { eexists _, _. split; [reflexivity | simpl; lia]. }
  unfold activationFilter.
  destruct (String.eqb (Js.name e1) _); cbn;
    [| eexists _, _; split; [reflexivity | simpl; lia] ].
  destruct (activate (S (calls w))) as [[]|e2]; cbn.
  { eexists _, _. split; [reflexivity | simpl; lia]. }
  destruct (String.eqb (Js.name e2) _); cbn;
    [| eexists _, _; split; [reflexivity | simpl; lia] ].
  destruct (activate (S (S (calls w)))) as [[]|e3]; cbn;
    eexists _, _; (split; [reflexivity | simpl; lia]).
Qed.

Lemma activation_step (activate : nat -> result unit) (o : options)
    (fuel attempt : nat) (w : world) :
  applyTheme o = true ->
  retryAttempt activationOptions (requestToApplyVariation activate o) (S fuel) attempt w
  = let w1 := {| bar := bar w; console := console w; slept := slept w;
                 calls := S (calls w) |} in
    match activate (calls w) with
    | Ok _ => (w1, Some (Ok o))
    | Throw e =>
        if (attempt <? 3)%nat && is_timeout (Throw e) then
          retryAttempt activationOptions (requestToApplyVariation activate o) fuel (S attempt)
            (setTimeout 1000 (log "warning -- Theme Activation Timed Out; Retrying..." w1))
        else (w1, Some (Throw e))
    end.
Proof.
  intros Happly. cbn [retryAttempt].
  unfold requestToApplyVariation at 1, remote_call. rewrite Happly.
  destruct (activate (calls w)) as [[]|e]; [reflexivity|].
  cbn [activationOptions times below errorFilter interval is_timeout].
  destruct (attempt <? 3)%nat; [|reflexivity].
  unfold activationFilter. simpl andb.
  destruct (String.eqb (Js.name e) _); reflexivity.
Qed.

Lemma after_timeouts_0 w : after_timeouts 0 w = w.
Proof.
  unfold after_timeouts. destruct w; simpl. f_equal; try apply app_nil_r. lia.
Qed.

Lemma after_timeouts_S n w :
  after_timeouts n
    (setTimeout 1000 (log "warning -- Theme Activation Timed Out; Retrying..."
       {| bar := bar w; console := console w; slept := slept w; calls := S (calls w) |}))
  = after_timeouts (S n) w.
Proof.
  unfold after_timeouts; simpl. f_equal.
  - rewrite <- app_assoc. reflexivity.
  - rewrite <- app_assoc. reflexivity.
  - lia.
Qed.

Lemma is_timeout_timeoutR msg : is_timeout (timeoutR msg) = true.
Proof. reflexivity. Qed.

(** Timeouts met while attempts remain are retried. *)
Lemma activation_timeouts (activate : nat -> result unit) (o : options) :
  applyTheme o = true ->
  forall (ts : list string) (extra attempt : nat) (w : world),
  (forall i m, nth_error ts i = Some m -> activate (calls w + i)%nat = timeoutR m) ->
  (attempt + length ts <= 3)%nat ->
  retryAttempt activationOptions (requestToApplyVariation activate o)
    (length ts + S extra) attempt w
  = retryAttempt activationOptions (requestToApplyVariation activate o)
      (S extra) (attempt + length ts) (after_timeouts (length ts) w).
Proof.
  intros Happly. induction ts as [|m ts IH]; intros extra attempt w Hscript Hle.
  - rewrite after_timeouts_0. simpl length. rewrite Nat.add_0_r. reflexivity.
  - change (length (m :: ts) + S extra)%nat with (S (length ts + S extra)).
    pose proof (Hscript 0%nat m eq_refl) as H0. rewrite Nat.add_0_r in H0.
    rewrite activation_step by assumption. rewrite H0.
    unfold timeoutR at 1. cbv beta iota zeta.
    change (is_timeout (Throw (timeout m))) with true.
    simpl in Hle.
    replace (attempt <? 3)%nat with true by (symmetry; apply Nat.ltb_lt; lia).
    cbn [andb].
    rewrite IH.
    + rewrite after_timeouts_S. f_equal. simpl. lia.
    + intros i m' Hi. simpl. rewrite <- (Hscript (S i) m' Hi). f_equal. lia.
    + lia.
Qed.

Lemma script_timeouts (ts : list string) (more : list (result unit)) (last : result unit) :
  forall i m, nth_error ts i = Some m ->
  script (map timeoutR ts ++ more) last i = timeoutR m.
Proof.
  unfold script. induction ts as [|t ts IH]; intros [|i] m Hi; simpl in *;
    try discriminate.
  - injection Hi as ->. reflexivity.
  - apply IH. assumption.
Qed.

(** An answer that is not retried is handed to the caller. *)
Lemma activation_surfaces (activate : nat -> result unit) (o : options)
    (extra attempt : nat) (w : world) :
  applyTheme o = true ->
  ((attempt <? 3)%nat && is_timeout (activate (calls w)) = false) ->
  retryAttempt activationOptions (requestToApplyVariation activate o) (S extra) attempt w
  = ({| bar := bar w; console := console w; slept := slept w; calls := S (calls w) |},
     Some (surfaced o (activate (calls w)))).
Proof.
  intros Happly Hstop. rewrite activation_step by assumption.
  destruct (activate (calls w)) as [[]|e]; [reflexivity|].
  rewrite Hstop. reflexivity.
Qed.

(** C9: activation waits 1000 ms between attempts and makes at most 3.
    (a) After fewer than three timeouts in a row, an answer that is not a
    timeout (success or any other error) is handed to the caller at once:
    one call per timeout plus one, and another error is never retried.
    (b) After three timeouts in a row the third error is surfaced and no
    fourth call is made.  (c) Whatever the remote side answers, the step
    ends within three calls. *)
Theorem activation_retries_timeouts_three_times
    (o : options) (extra : nat) (w : world) :
  applyTheme o = true ->
  calls w = 0%nat ->
  (forall (ts : list string) (last : result unit),
     (length ts < 3)%nat ->
     is_timeout last = false ->
     let '(w', r) := requestToApplyVariationWithRetrys
                       (script (map timeoutR ts) last) o (3 + extra) w in
     r = Some (surfaced o last) /\
     calls w' = S (length ts) /\
     slept w' = slept w ++ repeat 1000 (length ts)) /\
  (forall (m1 m2 m3 : string) (last : result unit),
     let '(w', r) := requestToApplyVariationWithRetrys
                       (script [timeoutR m1; timeoutR m2; timeoutR m3] last) o (3 + extra) w in
     r = Some (Throw (timeout m3)) /\
     calls w' = 3%nat /\
     slept w' = slept w ++ [1000; 1000]) /\
  (forall activate : nat -> result unit,
     let '(w', r) := requestToApplyVariationWithRetrys activate o (3 + extra) w in
     (exists outcome, r = Some outcome) /\ (calls w' <= 3)%nat) /\
  interval activationOptions = 1000 /\ times activationOptions = Some 3%nat.
Proof.
  intros Happly Hcalls.
  split; [|split; [|split; [|split; reflexivity]]].
  - intros ts last Hlen Hlast.
    unfold requestToApplyVariationWithRetrys, retryable.
    replace (3 + extra)%nat with (length ts + S (2 + extra - length ts))%nat by lia.
    rewrite (activation_timeouts _ o Happly ts);
      [| intros i m Hi; rewrite Hcalls; simpl;
         rewrite <- (app_nil_r (map timeoutR ts)); apply script_timeouts; assumption
       | lia ].
    assert (Hnth : script (map timeoutR ts) last (calls (after_timeouts (length ts) w)) = last).
    { unfold script. simpl. rewrite Hcalls. simpl.
      apply nth_overflow. rewrite length_map. lia. }
    rewrite activation_surfaces; try assumption.
    + rewrite Hnth. simpl. rewrite Hcalls. repeat split.
    + rewrite Hnth, Hlast. apply andb_false_r.
  - intros m1 m2 m3 last.
    unfold requestToApplyVariationWithRetrys, retryable.
    replace (3 + extra)%nat with (length [m1; m2] + S extra)%nat by (simpl; lia).
    rewrite (activation_timeouts _ o Happly [m1; m2]).
    + rewrite activation_surfaces; try assumption.
      * simpl. rewrite Hcalls. repeat split.
      * reflexivity.
    + intros i m Hi. rewrite Hcalls. simpl.
      apply (script_timeouts [m1; m2] [timeoutR m3]). assumption.
    + simpl. lia.
  - intros activate.
    destruct (activation_at_most_three activate o extra w Happly) as (w' & r & -> & Hle).
    split; [eexists; reflexivity | lia].
Qed.

End Activation.

(** Witness for C9: two timeouts and then a success make three calls and
    two waits of one second. *)
Lemma activation_retries_timeouts_three_times_witness :
  let '(w', r) := requestToApplyVariationWithRetrys
                    (script (map timeoutR ["first"; "second"]) (Ok tt))
                    (Examples.session [] (JBool true)) 3 Examples.start in
  r = Some (Ok (Examples.session [] (JBool true))) /\
  calls w' = 3%nat /\
  slept w' = [1000; 1000].
Proof.
  exact (proj1 (activation_retries_timeouts_three_times
                  (Examples.session [] (JBool true)) 0 Examples.start eq_refl eq_refl)
               ["first"; "second"] (Ok tt) (le_n 3) eq_refl).
Defined.

End PushSpec.

(** * Properties of the worker bundle builder *)

Module WorkerBundleSpec.

Import WorkerBundle.

Example build_all_steps :
  stages_of (fst (Examples.build Examples.nothing_fails [])) = stage_order /\
  snd (Examples.build Examples.nothing_fails []) = Ok "/theme/worker-bundle".
Proof. split; reflexivity. Qed.

(** When template assembly fails the output directory has already been
    created, and the error comes out as it was thrown. *)
Example build_templates_fail :
  stages_of (fst (Examples.build Examples.templates_fail []))
  = [ValidateTheme; CreateOutputDirectory; AssembleTemplates] /\
  snd (Examples.build Examples.templates_fail []) = Throw Examples.ENOENT.
Proof. split; reflexivity. Qed.

Lemma stages_of_app (a b : list event) :
  stages_of (a ++ b) = stages_of a ++ stages_of b.
Proof. apply omap_app. Qed.

Lemma stages_of_cons (ev : event) (events : list event) :
  stages_of (ev :: events)
  = match ev with
    | Enter s => s :: stages_of events
    | _ => stages_of events
    end.
Proof. destruct ev; reflexivity. Qed.

Lemma errors_of_cons (ev : event) (events : list event) :
  errors_of (ev :: events)
  = match ev with
    | ConsoleError line => line :: errors_of events
    | _ => errors_of events
    end.
Proof. destruct ev; reflexivity. Qed.

Lemma errors_of_app (a b : list event) :
  errors_of (a ++ b) = errors_of a ++ errors_of b.
Proof. apply omap_app. Qed.

Lemma console_only_bind {A B} (m : run A) (k : A -> run B) :
  console_only m -> (forall a, console_only (k a)) -> console_only (m ≫= k).
Proof.
  unfold console_only, mbind, run_bind. intros [Hquiet Hm] Hk.
  destruct (m []) as [written [a|e]] eqn:Hnil; simpl in Hquiet, Hm.
  - destruct (Hk a) as [Hka_quiet Hka]. rewrite (Hka written). simpl. split.
    + rewrite stages_of_app, Hquiet, Hka_quiet. reflexivity.
    + intros events. rewrite Hm, Hka, app_assoc. reflexivity.
  - split; [assumption|]. intros events. rewrite Hm. reflexivity.
Qed.

Lemma console_only_try_catch {A} (body : run A) (handler : error -> run A) :
  console_only body -> (forall e, console_only (handler e)) ->
  console_only (try_catch body handler).
Proof.
  unfold console_only, try_catch. intros [Hquiet Hm] Hk.
  destruct (body []) as [written [a|e]] eqn:Hnil; simpl in Hquiet, Hm.
  - split; [assumption|]. intros events. rewrite Hm. reflexivity.
  - destruct (Hk e) as [Hke_quiet Hke]. rewrite (Hke written). simpl. split.
    + rewrite stages_of_app, Hquiet, Hke_quiet. reflexivity.
    + intros events. rewrite Hm, Hke, app_assoc. reflexivity.
Qed.

Lemma console_only_call {A} (outcome : result A) : console_only (call outcome).
Proof. split; [reflexivity|]. intros events. unfold call. rewrite app_nil_r. reflexivity. Qed.

Lemma console_only_throw {A} (e : error) : console_only (@throw A e).
Proof. split; [reflexivity|]. intros events. unfold throw. rewrite app_nil_r. reflexivity. Qed.

Lemma console_only_log (line : string) : console_only (console_log line).
Proof. split; reflexivity. Qed.

Lemma console_only_error (line : string) : console_only (console_error line).
Proof. split; reflexivity. Qed.

Section Orchestrator.

Variables translations schema configuration : Type.
Variable validateTheme : option error.
Variable mkdir : string -> result unit.
Variable assembleTemplates : result (list (string * templateData)).
Variable assembleLang : result translations.
Variable getSchema : result schema.
Variable getConfig : result configuration.
Variable generateWorkerPackageJson : string -> result unit.
Variable installWorkerDependencies : string -> result unit.
Variable copyAssets : string -> result unit.
Variable generateWranglerConfig : string -> result unit.
Variable import_Handlebars : result unit.
Variable precompile : string -> result string.
Variable writeFile : string -> string -> result unit.
Variable readFile : string -> result string.
Variable unlink : string -> result unit.
Variable inlineWorkerTemplate : string.
Variable JSON_stringify : forall A : Type, A -> result string.
Variable esbuild_build : string -> string -> result unit.
Variable inspect : error -> string.
Variable dirname : string.
Variable option_apiUrl : option string.
Variable path_join : list string -> string.
Variable themePath : string.
Variable dest : option string.

Local Abbreviation the_build :=
  (initBundle translations schema configuration validateTheme mkdir
     assembleTemplates assembleLang getSchema getConfig generateWorkerPackageJson
     installWorkerDependencies copyAssets generateWranglerConfig import_Handlebars
     precompile writeFile readFile unlink inlineWorkerTemplate JSON_stringify
     esbuild_build inspect dirname option_apiUrl path_join themePath dest).

Local Abbreviation the_failure :=
  (failure translations schema configuration validateTheme mkdir
     assembleTemplates assembleLang getSchema getConfig generateWorkerPackageJson
     installWorkerDependencies copyAssets generateWranglerConfig import_Handlebars
     precompile writeFile readFile unlink inlineWorkerTemplate JSON_stringify
     esbuild_build inspect dirname option_apiUrl path_join themePath dest).

Local Abbreviation the_generateWorkerScript :=
  (_generateWorkerScript translations schema configuration import_Handlebars
     precompile writeFile readFile unlink inlineWorkerTemplate JSON_stringify
     esbuild_build inspect dirname option_apiUrl path_join).

Local Abbreviation the_outputDirectory := (outputDirectory path_join themePath dest).

Lemma stages_of_compileConsole (entries : list (string * templateData)) :
  stages_of (compileConsole precompile entries) = [].
Proof.
  induction entries as [|[templateName data] rest IH]; [reflexivity|].
  simpl. destruct (templateSource templateName data) as [src|]; [|exact IH].
  destruct (precompile src); [exact IH | reflexivity].
Qed.

(** The worker-script step enters no step of the orchestrator and only
    adds console lines. *)
Lemma generateWorkerScript_console_only outputDir templates tr sc c :
  console_only (the_generateWorkerScript outputDir templates tr sc c).
Proof.
  unfold _generateWorkerScript, _generateStaticTemplates_step, _bundleWorkerWithEsbuild.
  repeat first
    [ apply console_only_log
    | apply console_only_error
    | apply console_only_call
    | apply console_only_throw
    | apply console_only_try_catch; [|intros ?]
    | apply console_only_bind; [|intros ?]
    | match goal with
      | |- console_only (match ?p with _ => _ end) => destruct p
      end
    | progress cbv beta ].
  split; [apply stages_of_compileConsole|]. intros events. reflexivity.
Qed.

Local Ltac outcomes H :=
  cbn [failure error_of] in H;
  repeat match goal with
         | Heq : _ = Ok _ |- _ => rewrite Heq in H
         | Heq : _ = Throw _ |- _ => rewrite Heq in H
         end;
  cbn [error_of snd] in H.

Local Ltac stops f :=
  split; [reflexivity|];
  split; [eexists; reflexivity|];
  split;
    [ intros s e Hearlier Hfail; destruct s; outcomes Hfail;
      first [ discriminate Hfail
            | injection Hfail as <-; split; reflexivity
            | exfalso; specialize (Hearlier f ltac:(cbn; auto 15));
              outcomes Hearlier; discriminate Hearlier ] |];
  split; [intros Hnone; specialize (Hnone f); outcomes Hnone; discriminate Hnone|];
  exists f; split; [reflexivity|];
  cbn [failure error_of];
  repeat match goal with
         | Heq : _ = Throw _ |- _ => rewrite Heq
         end;
  reflexivity.

Local Ltac ran Hrun :=
  cbv -[outputDirectory errorMessage String.append _generateWorkerScript app] in Hrun;
  cbn [app] in Hrun.

(** C7 (amended): every build enters its steps in the order validate,
    create the output directory, assemble templates, assemble language
    files, fetch schema, fetch configuration, then package descriptor,
    dependency install, worker script, asset copy, deployment
    descriptor.  Validation is the first step.  A step that rejects when
    the steps before it have succeeded ends the build: the build rejects
    with that very error and no later step is entered.  When no step
    rejects the build returns the output directory after entering all
    of them.  A build that fails stopped at the step that threw. *)
Theorem initBundle_runs_steps_in_order :
  let '(events, r) := the_build [] in
  head (stages_of events) = Some ValidateTheme /\
  (exists later, stage_order = stages_of events ++ later) /\
  (forall s e,
     (forall s', In s' (earlier s stage_order) -> the_failure s' = None) ->
     the_failure s = Some e ->
     r = Throw e /\ stages_of events = earlier s stage_order ++ [s]) /\
  ((forall s, the_failure s = None) ->
   r = Ok the_outputDirectory /\ stages_of events = stage_order) /\
  match r with
  | Ok dir => dir = the_outputDirectory /\ forall s, the_failure s = None
  | Throw e => exists s, last (stages_of events) = Some s /\ the_failure s = Some e
  end.
Proof.
  destruct (the_build []) as [events r] eqn:Hrun.
  unfold initBundle, _validateTheme in Hrun.
  destruct validateTheme as [e0|] eqn:Hvalidate.
  { ran Hrun. injection Hrun as <- <-. cbn -[earlier stage_order failure].
    stops ValidateTheme. }
  destruct (mkdir the_outputDirectory) as [[]|e0] eqn:Hmkdir.
  2:{ ran Hrun. injection Hrun as <- <-.
      cbn -[earlier stage_order failure]. stops CreateOutputDirectory. }
  destruct assembleTemplates as [t|e0] eqn:Ht.
  2:{ ran Hrun. injection Hrun as <- <-.
      cbn -[earlier stage_order failure]. stops AssembleTemplates. }
  destruct assembleLang as [tr|e0] eqn:Htr.
  2:{ ran Hrun. injection Hrun as <- <-.
      cbn -[earlier stage_order failure]. stops AssembleLang. }
  destruct getSchema as [sc|e0] eqn:Hsc.
  2:{ ran Hrun. injection Hrun as <- <-.
      cbn -[earlier stage_order failure]. stops GetSchema. }
  destruct getConfig as [c|e0] eqn:Hc.
  2:{ ran Hrun. injection Hrun as <- <-.
      cbn -[earlier stage_order failure]. stops GetConfig. }
  destruct (generateWorkerPackageJson the_outputDirectory) as [[]|e0] eqn:Hpkg.
  2:{ ran Hrun. injection Hrun as <- <-.
      cbn -[earlier stage_order failure]. stops GenerateWorkerPackageJson. }
  destruct (installWorkerDependencies the_outputDirectory) as [[]|e0] eqn:Hinstall.
  2:{ ran Hrun. injection Hrun as <- <-.
      cbn -[earlier stage_order failure]. stops InstallWorkerDependencies. }
  ran Hrun.
  destruct (generateWorkerScript_console_only the_outputDirectory t tr sc c)
    as [Hquiet Hscript_run].
  rewrite Hscript_run in Hrun. clear Hscript_run.
  remember (fst (the_generateWorkerScript the_outputDirectory t tr sc c [])) as written
    eqn:Hwritten.
  clear Hwritten.
  destruct (snd (the_generateWorkerScript the_outputDirectory t tr sc c []))
    as [[]|e0] eqn:Hscript.
  2:{ injection Hrun as <- <-. repeat rewrite stages_of_cons. rewrite ?stages_of_app, ?Hquiet.
      cbn -[earlier stage_order failure]. stops GenerateWorkerScript. }
  destruct (copyAssets the_outputDirectory) as [[]|e0] eqn:Hcopy.
  2:{ injection Hrun as <- <-. repeat rewrite stages_of_cons. rewrite ?stages_of_app, ?Hquiet.
      cbn -[earlier stage_order failure]. stops CopyAssets. }
  destruct (generateWranglerConfig the_outputDirectory) as [[]|e0] eqn:Hwrangler.
  2:{ injection Hrun as <- <-. repeat rewrite stages_of_cons. rewrite ?stages_of_app, ?Hquiet.
      cbn -[earlier stage_order failure]. stops GenerateWranglerConfig. }
  injection Hrun as <- <-. repeat rewrite stages_of_cons. rewrite ?stages_of_app, ?Hquiet.
  cbn -[earlier stage_order failure].
  split; [reflexivity|]. split; [exists []; reflexivity|].
  split; [intros s e _ Hfail; destruct s; outcomes Hfail; discriminate Hfail|].
  split; [intros _; split; reflexivity|].
  split; [reflexivity|].
  intros s. destruct s; cbn [failure error_of];
    repeat match goal with
           | Heq : _ = Ok _ |- _ => rewrite Heq
           end;
    reflexivity.
Qed.


End Orchestrator.

(** C7 as worded fails: the output directory is created second, before
    the templates are assembled, so a build whose template assembly fails
    has entered validate, create-directory, assemble-templates, which is
    no initial part of the worded order. *)
Lemma initBundle_order_is_not_the_worded_one :
  ~ (forall failing, exists n,
       stages_of (fst (Examples.build failing [])) = firstn n worded_order).
Proof.
  intros claim. destruct (claim Examples.templates_fail) as [n Hn].
  vm_compute in Hn. destruct n as [|[|[|n]]]; discriminate Hn.
Qed.

(** Witness for C7: a build whose template assembly fails after
    validation and the creation of the output directory succeeded. *)
Lemma initBundle_runs_steps_in_order_witness :
  snd (Examples.build Examples.templates_fail []) = Throw Examples.ENOENT /\
  stages_of (fst (Examples.build Examples.templates_fail []))
  = [ValidateTheme; CreateOutputDirectory; AssembleTemplates].
Proof.
  unfold Examples.build.
  generalize (initBundle_runs_steps_in_order unit unit unit
                None (fun _ => Ok tt) (Throw Examples.ENOENT) (Ok tt) (Ok tt) (Ok tt)
                (fun _ => Ok tt) (fun _ => Ok tt) (fun _ => Ok tt) (fun _ => Ok tt)
                (Ok tt) Examples.precompile (fun _ _ => Ok tt)
                (fun _ => Throw Examples.ENOENT) (fun _ => Ok tt)
                "export default {};" (fun _ _ => Ok "{}") (fun _ _ => Ok tt)
                Examples.inspect "/cli/lib" None Examples.path_join "/theme" None).
  cbn [Examples.templates_fail Examples.step].
  match goal with
  | |- (let '(_, _) := ?b in _) -> _ => destruct b as [events r]
  end.
  intros (_ & _ & Hstops & _). cbn [fst snd].
  apply (Hstops AssembleTemplates Examples.ENOENT).
  - intros s Hin. cbn in Hin.
    repeat (destruct Hin as [<-|Hin]; [reflexivity|]). destruct Hin.
  - reflexivity.
Defined.

Section Assemble.

Variable path_join : list string -> string.
Variable path_sep : string.
Variable recursiveReadDir : string -> result (list string).
Variable readFile : string -> result string.
Variable match_externalPath : string -> option (list string).
Variable partialRegex_exec : string -> option string.
Variable packageMarker : string.
Variable assembleAndBundle : string -> string -> result templateData.
Variable themePath : string.

Lemma all_error {A} (rs : list (result A)) (e : error) :
  all rs = Throw e -> In (Throw e) rs.
Proof.
  induction rs as [|r rs IH]; simpl; [discriminate|].
  destruct r as [a|e0]; simpl.
  - destruct (all rs) as [as'|e1]; simpl; [discriminate|].
    intros [= <-]. right. apply IH. reflexivity.
  - intros [= <-]. left. reflexivity.
Qed.

Lemma externalPartials_error (files : list string) (e : error) :
  all (map externalPartial files) = Throw e -> Js.name e = "TypeError".
Proof.
  intros Hall. apply all_error in Hall. apply in_map_iff in Hall as (f & Hf & _).
  unfold externalPartial in Hf.
  destruct (Str.split_1 "node_modules" f); [discriminate|].
  injection Hf as <-. reflexivity.
Qed.

Lemma addExternal_type_error acc settled :
  type_error_or_value acc -> type_error_or_value (addExternal acc settled).
Proof.
  intros Hacc e. unfold addExternal.
  destruct acc as [partials|e0]; simpl.
  - destruct settled as [files|e1]; simpl.
    + destruct (all (map externalPartial files)) eqn:Hfiles; simpl; [discriminate|].
      intros [= <-]. eapply externalPartials_error. eassumption.
    + intros [= <-]. reflexivity.
  - intros [= <-]. apply Hacc. reflexivity.
Qed.

Lemma addExternal_rejected acc e :
  type_error_or_value acc ->
  exists e', addExternal acc (Throw e) = Throw e' /\ Js.name e' = "TypeError".
Proof.
  intros Hacc. destruct acc as [partials|e0]; simpl.
  - eexists. split; reflexivity.
  - exists e0. split; [reflexivity | apply Hacc; reflexivity].
Qed.

Lemma fold_addExternal_thrown settled e :
  fold_left addExternal settled (Throw e) = Throw e.
Proof. induction settled as [|r settled IH]; simpl; [reflexivity | apply IH]. Qed.

Lemma fold_addExternal_rejected settled : forall acc e,
  type_error_or_value acc ->
  In (Throw e) settled ->
  exists e', fold_left addExternal settled acc = Throw e' /\ Js.name e' = "TypeError".
Proof.
  induction settled as [|r settled IH]; intros acc e Hacc Hin; [destruct Hin|].
  simpl. destruct Hin as [->|Hin].
  - destruct (addExternal_rejected acc e Hacc) as (e' & -> & Hname).
    exists e'. split; [apply fold_addExternal_thrown | assumption].
  - apply (IH _ e); [apply addExternal_type_error; assumption | assumption].
Qed.

Local Abbreviation the_templatesPath := (templatesPath path_join themePath).
Local Abbreviation the_getExternalLibs :=
  (getExternalLibs readFile match_externalPath partialRegex_exec packageMarker).
Local Abbreviation the_allPartials :=
  (allPartials path_join path_sep recursiveReadDir readFile match_externalPath
     partialRegex_exec packageMarker themePath).
Local Abbreviation the_assembleTemplates :=
  (_assembleTemplates path_join path_sep recursiveReadDir readFile match_externalPath
     partialRegex_exec packageMarker assembleAndBundle themePath).

(** C3 (what the code does): when a template references an external
    library whose template directory cannot be listed, the settled entry
    of that listing has no value and the reducer calls [map] on
    undefined: template assembly rejects with a TypeError instead of
    going on with zero partials from that library. *)
Theorem missing_library_directory_throws
    (files : list string) (libs : list (list string)) (lib : string) (e : error) :
  recursiveReadDir the_templatesPath = Ok files ->
  all (map the_getExternalLibs files) = Ok libs ->
  In lib (removeDuplicates libs) ->
  recursiveReadDir (path_join [themePath; "node_modules"; lib; "templates"]) = Throw e ->
  exists e', the_assembleTemplates = Throw e' /\ Js.name e' = "TypeError".
Proof.
  intros Hroot Hlibs Hlib Hmissing.
  unfold _assembleTemplates, allPartials.
  rewrite Hroot. simpl. rewrite Hlibs. simpl.
  destruct (fold_addExternal_rejected
              (map (fun lib => recursiveReadDir
                      (path_join [themePath; "node_modules"; lib; "templates"]))
                   (removeDuplicates libs))
              (Ok []) e) as (e' & Hfold & Hname).
  - intros e0 He0. discriminate He0.
  - rewrite <- Hmissing. apply in_map_iff. exists lib. split; [reflexivity | assumption].
  - rewrite Hfold. simpl. exists e'. split; [reflexivity | assumption].
Qed.

(** A library whose directory lists as empty adds nothing: the
    behaviour the specification describes for a missing one. *)
Lemma empty_library_adds_nothing (partials : list string) :
  addExternal (Ok partials) (Ok []) = Ok partials.
Proof. simpl. rewrite app_nil_r. reflexivity. Qed.

End Assemble.

(** The failing input of C3: the template includes a partial of the
    library "lib", /theme/node_modules/lib/templates does not exist, and
    the assembly rejects. *)
Lemma missing_library_directory_throws_witness :
  exists e', Examples.assemble_home = Throw e' /\ Js.name e' = "TypeError".
Proof.
  apply (missing_library_directory_throws Examples.path_join "/"
           Examples.recursiveReadDir Examples.readFile Examples.match_externalPath
           Examples.partialRegex_exec "external/" Examples.assembleAndBundle "/theme"
           [Examples.home] [["lib"]] "lib" Examples.ENOENT).
  - reflexivity.
  - reflexivity.
  - left. reflexivity.
  - reflexivity.
Defined.

(** With the library installed the same theme assembles, the external
    partial first. *)
Example assemble_home_with_library :
  Examples.assemble_home_installed
  = Ok [ ("external/lib/templates/card", Source "<p>external/lib/templates/card</p>");
         ("pages/home", Source "<p>pages/home</p>") ].
Proof. reflexivity. Qed.

Example assemble_home_rejects :
  Examples.assemble_home
  = Throw (TypeError "Cannot read properties of undefined (reading 'map')").
Proof. reflexivity. Qed.

Lemma append_assoc (a b c : string) : (a +:+ b) +:+ c = a +:+ (b +:+ c).
Proof.
  induction a as [|x a IH]; [reflexivity|].
  change ((String x a +:+ b) +:+ c) with (String x ((a +:+ b) +:+ c)).
  rewrite IH. reflexivity.
Qed.

Lemma prefix_append (a b : string) : String.prefix a (a +:+ b) = true.
Proof.
  induction a as [|x a IH]; [destruct b; reflexivity|].
  change (String x a +:+ b) with (String x (a +:+ b)).
  cbn [String.prefix]. destruct (ascii_dec x x); [assumption | congruence].
Qed.

Lemma append_nil (a : string) : a +:+ "" = a.
Proof.
  induction a as [|x a IH]; [reflexivity|].
  change (String x a +:+ "") with (String x (a +:+ "")). rewrite IH. reflexivity.
Qed.

Lemma join_cons (x : string) (parts : list string) :
  join "" (x :: parts) = x +:+ join "" parts.
Proof. destruct parts; simpl; [symmetry; apply append_nil | reflexivity]. Qed.

Lemma safe_unit_eq (x y : codeUnit) :
  safe_unit x = safe_unit y
  <-> x = y \/ (unit_alnum x = false /\ unit_alnum y = false).
Proof.
  destruct x as [x|], y as [y|]; simpl.
  - destruct (Str.alnum x) eqn:Hx, (Str.alnum y) eqn:Hy; split.
    + intros ->. left. reflexivity.
    + intros [[= ->]|[? _]]; [reflexivity | discriminate].
    + intros ->. discriminate Hx.
    + intros [[= ->]|[? _]]; [congruence | discriminate].
    + intros <-. discriminate Hy.
    + intros [[= ->]|[_ ?]]; [congruence | discriminate].
    + intros _. right. split; reflexivity.
    + intros _. reflexivity.
  - destruct (Str.alnum x) eqn:Hx; split.
    + intros ->. discriminate Hx.
    + intros [?|[? _]]; discriminate.
    + intros _. right. split; reflexivity.
    + intros _. reflexivity.
  - destruct (Str.alnum y) eqn:Hy; split.
    + intros <-. discriminate Hy.
    + intros [?|[_ ?]]; discriminate.
    + intros _. right. split; reflexivity.
    + intros _. reflexivity.
  - split; [intros _; left; reflexivity | reflexivity].
Qed.

Lemma safe_units_eq (a : list codeUnit) : forall b,
  string_of_list_ascii (map safe_unit a) = string_of_list_ascii (map safe_unit b)
  <-> same_skeleton a b.
Proof.
  induction a as [|x a IH]; intros [|y b]; simpl; try (split; [discriminate | intros []]).
  - split; auto.
  - split.
    + intros [= Hc Hs]. split; [apply safe_unit_eq, Hc | apply IH, Hs].
    + intros [Hc Hs]. f_equal; [apply safe_unit_eq, Hc | apply IH, Hs].
Qed.

Lemma safeName_eq (a b : string) :
  safeName a = safeName b <-> same_skeleton (code_units a) (code_units b).
Proof. apply safe_units_eq. Qed.

(** On an identifier of ASCII characters the replacement works
    character by character. *)
Lemma safeName_ascii (a : string) :
  (forall c, Text.has_char c a = true -> (nat_of_ascii c < 128)%nat) ->
  safeName a = Str.map_chars (fun c => if Str.alnum c then c else "_"%char) a.
Proof.
  unfold safeName. induction a as [|x a IH]; intros Hascii; [reflexivity|].
  cbn [code_units Str.map_chars]. unfold units_of_byte at 1.
  assert (Hx : (nat_of_ascii x <? 128)%nat = true).
  { apply Nat.ltb_lt. apply Hascii. cbn [Text.has_char]. rewrite Ascii.eqb_refl. reflexivity. }
  rewrite Hx. cbn [app map string_of_list_ascii safe_unit]. f_equal. apply IH.
  intros c Hc. apply Hascii. cbn [Text.has_char]. rewrite Hc. apply orb_true_r.
Qed.

(** A character outside the ASCII range counts as many underscores as it
    has code units: one for a character of the basic plane (here U+00E9,
    bytes C3 A9), two for one beyond it (here U+1F600, bytes F0 9F 98
    80). *)
Example safeName_beyond_ascii :
  safeName ("caf" +:+ String (ascii_of_nat 195) (String (ascii_of_nat 169) "")) = "caf_" /\
  safeName (String (ascii_of_nat 240) (String (ascii_of_nat 159)
              (String (ascii_of_nat 152) (String (ascii_of_nat 128) ".html"))))
  = "___html".
Proof. split; reflexivity. Qed.

Section Compile.

Variable precompile : string -> result string.

Lemma fold_exportLine (templateExports : list templateExport) : forall text,
  fold_left (fun text e => text +:+ exportLine e) templateExports text
  = text +:+ join "" (map exportLine templateExports).
Proof.
  induction templateExports as [|e rest IH]; intros text.
  - simpl. symmetry. apply append_nil.
  - cbn [fold_left map]. rewrite IH, join_cons, append_assoc. reflexivity.
Qed.

Lemma sources_of_cons (templateName : string) (data : templateData)
    (rest : list (string * templateData)) :
  sources_of ((templateName, data) :: rest)
  = match templateSource templateName data with
    | Some src => (templateName, src) :: sources_of rest
    | None => sources_of rest
    end.
Proof. unfold sources_of. simpl. destruct (templateSource templateName data); reflexivity. Qed.

Lemma compileEntries_text (code : string -> string)
    (templates : list (string * templateData)) :
  (forall templateName data src,
     In (templateName, data) templates ->
     templateSource templateName data = Some src ->
     precompile src = Ok (code src)) ->
  forall text table,
  compileEntries precompile templates text table
  = Ok (text +:+
        join "" (map (fun entry =>
                        "// Template: " +:+ fst entry +:+ nl +:+
                        "const " +:+ functionName (fst entry) +:+
                        " = Handlebars.template(" +:+ code (snd entry) +:+ ");" +:+ nl +:+ nl)
                     (sources_of templates)),
        table ++ map (fun entry => {| export_name := fst entry;
                                      export_functionName := functionName (fst entry) |})
                     (sources_of templates)).
Proof.
  induction templates as [|[templateName data] rest IH]; intros Hcompiles text table.
  - simpl. rewrite append_nil, app_nil_r. reflexivity.
  - cbn [compileEntries]. rewrite sources_of_cons.
    destruct (templateSource templateName data) as [src|] eqn:Hsrc.
    + rewrite (Hcompiles templateName data src) by (left; reflexivity) || assumption.
      unfold mbind, result_bind.
      rewrite IH by (intros n d src' Hin; apply Hcompiles; right; assumption).
      cbn [map fst snd]. rewrite join_cons, <- app_assoc, !append_assoc. reflexivity.
    + apply IH. intros n d src' Hin. apply Hcompiles. right. assumption.
Qed.

(** C8 (what the code does): the function name of a partial is
    "template_" followed by its identifier with every code unit that is
    not a letter or a digit replaced by "_", and nothing makes the names
    unique.  (1) Two identifiers get the same function name exactly when
    they have the same number of code units and agree wherever either
    has a letter or a digit.  (2) When every source compiles, the module
    text is the header, one constant declaration per partial that has a
    source, and the export table with one line per such partial, which
    binds the original identifier to the function name derived from it.
    (3) So for two different partials whose identifiers differ only in
    other characters the module declares one constant twice and the
    table binds both identifiers to that one name. *)
Theorem function_names_and_export_table
    (templates : list (string * templateData)) (code : string -> string) :
  (forall templateName data src,
     In (templateName, data) templates ->
     templateSource templateName data = Some src ->
     precompile src = Ok (code src)) ->
  (forall a b,
     functionName a = functionName b <-> same_skeleton (code_units a) (code_units b)) /\
  _generateStaticTemplates precompile templates
  = Ok (header +:+
        join "" (map (fun entry =>
                        "// Template: " +:+ fst entry +:+ nl +:+
                        "const " +:+ functionName (fst entry) +:+
                        " = Handlebars.template(" +:+ code (snd entry) +:+ ");" +:+ nl +:+ nl)
                     (sources_of templates)) +:+
        "// Export mapping of template names to functions" +:+ nl +:+
        "export default {" +:+ nl +:+
        join "" (map (fun entry =>
                        "  '" +:+ fst entry +:+ "': " +:+ functionName (fst entry) +:+
                        "," +:+ nl)
                     (sources_of templates)) +:+
        "};" +:+ nl,
        map (fun entry => {| export_name := fst entry;
                             export_functionName := functionName (fst entry) |})
            (sources_of templates)) /\
  (forall a b source_a source_b,
     a <> b ->
     In (a, source_a) (sources_of templates) ->
     In (b, source_b) (sources_of templates) ->
     same_skeleton (code_units a) (code_units b) ->
     functionName a = functionName b /\
     In {| export_name := a; export_functionName := functionName a |}
        (map (fun entry => {| export_name := fst entry;
                              export_functionName := functionName (fst entry) |})
             (sources_of templates)) /\
     In {| export_name := b; export_functionName := functionName a |}
        (map (fun entry => {| export_name := fst entry;
                              export_functionName := functionName (fst entry) |})
             (sources_of templates))).
Proof.
  intros Hcompiles.
  assert (Hnames : forall a b,
            functionName a = functionName b
            <-> same_skeleton (code_units a) (code_units b)).
  { intros a b. rewrite <- safeName_eq. unfold functionName. simpl. split.
    - intros [= H]. exact H.
    - intros ->. reflexivity. }
  split; [exact Hnames|]. split.
  - unfold _generateStaticTemplates.
    rewrite (compileEntries_text code templates Hcompiles header []).
    cbn [mbind result_bind app]. unfold exportMapping.
    rewrite fold_exportLine. change ("" +:+ ?x) with x.
    rewrite map_map. unfold exportLine. cbn [export_name export_functionName].
    rewrite !append_assoc. reflexivity.
  - intros a b source_a source_b _ Ha Hb Hsame.
    pose proof (proj2 (Hnames a b) Hsame) as Heq. split; [exact Heq|]. split.
    + apply in_map_iff. exists (a, source_a). split; [reflexivity | assumption].
    + rewrite Heq. apply in_map_iff. exists (b, source_b). split; [reflexivity | assumption].
Qed.

End Compile.

(** Two distinct identifiers that differ only in a separator get one
    function name. *)
Lemma function_names_collide :
  ~ (forall a b : string, a <> b -> functionName a <> functionName b).
Proof.
  intros claim.
  apply (claim "components/product-card" "components/product/card");
    [discriminate | reflexivity].
Qed.

(** The failing input of C8: the two product-card partials.  The module
    declares [template_components_product_card] twice, and the table
    binds both identifiers to it. *)
Lemma function_names_and_export_table_witness :
  WorkerBundle._generateStaticTemplates Examples.precompile Examples.card_templates
  = Ok (header +:+
        "// Template: components/product-card" +:+ nl +:+
        "const template_components_product_card = Handlebars.template({ /* <a>{{name}}</a> */ });"
        +:+ nl +:+ nl +:+
        "// Template: components/product/card" +:+ nl +:+
        "const template_components_product_card = Handlebars.template({ /* <b>{{name}}</b> */ });"
        +:+ nl +:+ nl +:+
        "// Export mapping of template names to functions" +:+ nl +:+
        "export default {" +:+ nl +:+
        "  'components/product-card': template_components_product_card," +:+ nl +:+
        "  'components/product/card': template_components_product_card," +:+ nl +:+
        "};" +:+ nl,
        [ {| export_name := "components/product-card";
             export_functionName := "template_components_product_card" |};
          {| export_name := "components/product/card";
             export_functionName := "template_components_product_card" |} ]).
Proof.
  apply (proj1 (proj2 (function_names_and_export_table Examples.precompile
                         Examples.card_templates
                         (fun src => "{ /* " +:+ src +:+ " */ }")
                         (fun templateName data src _ _ => eq_refl)))).
Defined.

Section ThirdParty.

Variable helper : Type.
Variable import_default : string -> option (gmap string helper).

Local Abbreviation the_module_of := (module_of helper import_default).
Local Abbreviation the_exportGroup := (exportGroup helper import_default).
Local Abbreviation the_exportedHelpers := (exportedHelpers helper import_default).

Lemma module_of_whitelisted (spec : whitelistEntry) :
  In spec whitelist ->
  the_module_of (group spec) = import_default ("./3p/" +:+ group spec +:+ ".js").
Proof.
  intros Hin. unfold whitelist in Hin. simpl in Hin.
  repeat (destruct Hin as [<-|Hin]; [reflexivity|]). destruct Hin.
Qed.

Lemma exportGroup_names (spec : whitelistEntry) :
  map (helper_name helper) (the_exportGroup spec)
  = match the_module_of (group spec) with
    | Some _ => include spec
    | None => []
    end.
Proof.
  unfold exportGroup. destruct (the_module_of (group spec)); [|reflexivity].
  rewrite map_map. simpl. apply map_id.
Qed.


End ThirdParty.



Lemma compileEntries_appends (precompile : string -> result string)
    (templates : list (string * templateData)) :
  forall text table text' table',
  compileEntries precompile templates text table = Ok (text', table') ->
  exists more, text' = text +:+ more.
Proof.
  induction templates as [|[templateName data] rest IH]; intros text table text' table'; simpl.
  - intros [= <- _]. exists "". clear. induction text as [|x text IH]; [reflexivity|].
    change (String x text +:+ "") with (String x (text +:+ "")). rewrite <- IH. reflexivity.
  - destruct (templateSource templateName data) as [src|]; [|apply IH].
    destruct (precompile src) as [code|e]; simpl; [|discriminate].
    intros Hrest. apply IH in Hrest as (more & ->).
    eexists. rewrite append_assoc. reflexivity.
Qed.

Section Plugins.

Variable require_resolve : string -> result string.
Variables NodeModulesPolyfillPlugin NodeGlobalsPolyfillPlugin : plugin.

(** C1 (amended): the handlebars-runtime plugin, where it is registered,
    resolves the import "handlebars" to the runtime-only build; but the
    plugin list passed to the bundler holds only static-helpers and the
    two polyfill plugins, and static-helpers intercepts no import, so in
    a build the import "handlebars" is resolved by the polyfill plugins
    or by the bundler itself, without the redirect.  The generated
    templates module itself starts by importing "handlebars/runtime". *)
Theorem handlebars_redirect_is_not_registered :
  (forall plugins default,
     esbuild_resolve (handlebarsRuntimePlugin require_resolve :: plugins) default "handlebars"
     = require_resolve "handlebars/runtime") /\
  (forall default specifier,
     esbuild_resolve (build_plugins NodeModulesPolyfillPlugin NodeGlobalsPolyfillPlugin)
       default specifier
     = esbuild_resolve [NodeModulesPolyfillPlugin; NodeGlobalsPolyfillPlugin]
         default specifier) /\
  build_plugins NodeModulesPolyfillPlugin NodeGlobalsPolyfillPlugin
  = [staticHelpersPlugin; NodeModulesPolyfillPlugin; NodeGlobalsPolyfillPlugin] /\
  (forall precompile templates text table,
     _generateStaticTemplates precompile templates = Ok (text, table) ->
     String.prefix header text = true).
Proof.
  split; [|split; [|split]].
  - intros plugins default. reflexivity.
  - intros default specifier. reflexivity.
  - reflexivity.
  - intros precompile templates text table. unfold _generateStaticTemplates.
    destruct (compileEntries precompile templates header []) as [[code exports]|e] eqn:Hloop;
      simpl; [|discriminate].
    intros [= <- _]. apply compileEntries_appends in Hloop as (more & ->).
    rewrite append_assoc. apply prefix_append.
Qed.

End Plugins.

(** C1 as worded fails: with the plugin list of the build, the import
    "handlebars" resolves to the full engine's entry, not to the
    runtime-only build. *)
Lemma handlebars_import_is_not_redirected :
  ~ (forall (require_resolve default : string -> result string)
            (NodeModulesPolyfillPlugin NodeGlobalsPolyfillPlugin : plugin),
       esbuild_resolve (build_plugins NodeModulesPolyfillPlugin NodeGlobalsPolyfillPlugin)
         default "handlebars"
       = require_resolve "handlebars/runtime").
Proof.
  intros claim.
  specialize (claim Examples.node_resolve Examples.node_resolve
                Examples.NodeModulesPolyfillPlugin Examples.NodeGlobalsPolyfillPlugin).
  vm_compute in claim. discriminate claim.
Qed.

Example handlebars_resolves_to_full_engine :
  esbuild_resolve
    (build_plugins Examples.NodeModulesPolyfillPlugin Examples.NodeGlobalsPolyfillPlugin)
    Examples.node_resolve "handlebars"
  = Ok "/node_modules/handlebars.js".
Proof. reflexivity. Qed.

Example thirdParty_is_replaced :
  esbuild_load
    (build_plugins Examples.NodeModulesPolyfillPlugin Examples.NodeGlobalsPolyfillPlugin)
    "/out/node_modules/@bigcommerce/stencil-paper-handlebars/helpers/thirdParty.js"
  = Some staticHelpers.
Proof. reflexivity. Qed.

End WorkerBundleSpec.

(** * Properties of the string operations *)

Module TextSpec.

Lemma append_nil_r (s : string) : s +:+ "" = s.
Proof.
  induction s as [|x s IH]; [reflexivity|].
  change (String x s +:+ "") with (String x (s +:+ "")). rewrite IH. reflexivity.
Qed.

Lemma append_cons (x : ascii) (a b : string) :
  String x a +:+ b = String x (a +:+ b).
Proof. reflexivity. Qed.

Lemma append_assoc' (a b c : string) : (a +:+ b) +:+ c = a +:+ (b +:+ c).
Proof.
  induction a as [|x a IH]; [reflexivity|].
  rewrite !append_cons, IH. reflexivity.
Qed.

Lemma length_append (a b : string) :
  String.length (a +:+ b) = (String.length a + String.length b)%nat.
Proof.
  induction a as [|x a IH]; [reflexivity|].
  rewrite append_cons. simpl. rewrite IH. reflexivity.
Qed.

Lemma prefix_app (sep rest : string) : String.prefix sep (sep +:+ rest) = true.
Proof.
  induction sep as [|x sep IH]; [destruct rest; reflexivity|].
  rewrite append_cons. cbn [String.prefix].
  destruct (ascii_dec x x); [assumption | congruence].
Qed.

Lemma prefix_split (sep s : string) :
  String.prefix sep s = true -> s = sep +:+ Str.slice (String.length sep) s.
Proof.
  revert s. induction sep as [|x sep IH]; intros s H; [reflexivity|].
  destruct s as [|y s]; [discriminate H|]. cbn [String.prefix] in H.
  destruct (ascii_dec x y) as [->|]; [|discriminate H].
  rewrite append_cons. cbn [String.length Str.slice]. f_equal. apply IH, H.
Qed.

Lemma slice_app (a b : string) : Str.slice (String.length a) (a +:+ b) = b.
Proof.
  induction a as [|x a IH]; [destruct b; reflexivity|].
  rewrite append_cons. cbn [String.length Str.slice]. apply IH.
Qed.

(** What [split_first] returns is a split of the text at an occurrence of
    the separator. *)
Lemma split_first_Some (sep : string) : forall s before after,
  Str.split_first sep s = Some (before, after) ->
  s = before +:+ sep +:+ after.
Proof.
  induction s as [|x s IH]; intros before after H.
  - cbn [Str.split_first] in H.
    destruct (String.prefix sep "") eqn:Hp; [|discriminate H].
    injection H as Hb Ha. subst before after. exact (prefix_split _ _ Hp).
  - cbn [Str.split_first] in H.
    destruct (String.prefix sep (String x s)) eqn:Hp.
    + injection H as Hb Ha. subst before after. exact (prefix_split _ _ Hp).
    + destruct (Str.split_first sep s) as [[b a]|] eqn:Hs; [|discriminate H].
      injection H as Hb Ha. subst before after.
      rewrite append_cons. f_equal. apply IH. reflexivity.
Qed.

Lemma split_first_prefix (sep s : string) :
  String.prefix sep s = true ->
  Str.split_first sep s = Some ("", Str.slice (String.length sep) s).
Proof. intros H. destruct s; cbn [Str.split_first]; rewrite H; reflexivity. Qed.

(** The split is at the first occurrence. *)
Lemma split_first_app (sep after : string) : forall before,
  Text.absent_before sep (before +:+ sep +:+ after) (String.length before) = true ->
  Str.split_first sep (before +:+ sep +:+ after) = Some (before, after).
Proof.
  induction before as [|x before IH]; intros H.
  - change ("" +:+ sep +:+ after) with (sep +:+ after).
    rewrite split_first_prefix by apply prefix_app. rewrite slice_app. reflexivity.
  - rewrite append_cons in *. cbn [String.length Text.absent_before] in H.
    apply andb_prop in H as [Hp Hrest]. apply negb_true_iff in Hp.
    cbn [Str.split_first]. rewrite Hp, (IH Hrest). reflexivity.
Qed.

Lemma eqb_longer (a suffix : string) (x : ascii) :
  String.eqb (String x a +:+ suffix) suffix = false.
Proof.
  apply String.eqb_neq. intros H. apply (f_equal String.length) in H.
  rewrite length_append in H. simpl in H. lia.
Qed.

(** Removing a suffix that is there gives the text before it. *)
Lemma remove_suffix_app (suffix : string) : forall a,
  Str.remove_suffix suffix (a +:+ suffix) = a.
Proof.
  induction a as [|x a IH].
  - change ("" +:+ suffix) with suffix.
    destruct suffix; cbn [Str.remove_suffix]; rewrite String.eqb_refl; reflexivity.
  - pose proof (eqb_longer a suffix x) as Hne. rewrite append_cons in *.
    cbn [Str.remove_suffix]. rewrite Hne, IH. reflexivity.
Qed.

Lemma slashes_no_backslash (s : string) :
  Text.has_char Str.backslash (Str.slashes s) = false.
Proof.
  unfold Str.slashes. induction s as [|x s IH]; [reflexivity|].
  cbn [Str.map_chars Text.has_char]. rewrite IH, orb_false_r.
  destruct (Ascii.eqb x Str.backslash) eqn:Hx; [reflexivity | assumption].
Qed.

Lemma slashes_id (s : string) :
  Text.has_char Str.backslash s = false -> Str.slashes s = s.
Proof.
  unfold Str.slashes. induction s as [|x s IH]; [reflexivity|].
  cbn [Str.map_chars Text.has_char]. intros H. apply orb_false_elim in H as [Hx Hs].
  rewrite Hx, (IH Hs). reflexivity.
Qed.

End TextSpec.

(** * Properties of the partial identifiers and of template assembly *)

Module AssembleSpec.

Import WorkerBundle.

(** X1: a template file under the templates directory gets as identifier
    its path relative to that directory, without the ".html" extension
    and with every backslash turned into a slash; the identifier never
    contains a backslash. *)
Theorem internalPartial_relative_path
    (path_join : list string -> string) (path_sep themePath rel : string) :
  internalPartial path_join path_sep themePath
    (templatesPath path_join themePath +:+ path_sep +:+ rel +:+ ".html")
  = Str.slashes rel /\
  Text.has_char Str.backslash
    (internalPartial path_join path_sep themePath
       (templatesPath path_join themePath +:+ path_sep +:+ rel +:+ ".html")) = false /\
  (Text.has_char Str.backslash rel = false ->
   internalPartial path_join path_sep themePath
     (templatesPath path_join themePath +:+ path_sep +:+ rel +:+ ".html") = rel).
Proof.
  assert (H : internalPartial path_join path_sep themePath
                (templatesPath path_join themePath +:+ path_sep +:+ rel +:+ ".html")
              = Str.slashes rel).
  { unfold internalPartial, Str.remove_first.
    rewrite <- TextSpec.append_assoc'.
    rewrite TextSpec.split_first_prefix by apply TextSpec.prefix_app.
    rewrite TextSpec.slice_app. change ("" +:+ rel +:+ ".html") with (rel +:+ ".html").
    rewrite TextSpec.remove_suffix_app. reflexivity. }
  rewrite H. split; [reflexivity|]. split.
  - apply TextSpec.slashes_no_backslash.
  - apply TextSpec.slashes_id.
Qed.

(** X2: a library template file whose path holds "node_modules" once
    gets the identifier "external" followed by the path after
    "node_modules", without the ".html" extension, slashes normalised. *)
Theorem externalPartial_library_path (root tail : string) :
  Text.absent_before "node_modules" (root +:+ "node_modules" +:+ tail +:+ ".html")
    (String.length root) = true ->
  Text.includes "node_modules" (tail +:+ ".html") = false ->
  externalPartial (root +:+ "node_modules" +:+ tail +:+ ".html")
  = Ok (Str.slashes ("external" +:+ tail)).
Proof.
  intros Hfirst Honce. unfold externalPartial, Str.split_1.
  rewrite (TextSpec.split_first_app "node_modules" (tail +:+ ".html") root Hfirst).
  unfold Str.split_0. unfold Text.includes in Honce.
  destruct (Str.split_first "node_modules" (tail +:+ ".html")); [discriminate Honce|].
  rewrite TextSpec.remove_suffix_app. reflexivity.
Qed.

(** X3: when the path after the first "node_modules" holds
    "node_modules" again (a library nested in another package), the
    identifier is cut at the second one: only the text between the two is
    used. *)
Theorem externalPartial_nested_is_cut (root between rest : string) :
  Text.absent_before "node_modules"
    (root +:+ "node_modules" +:+ between +:+ "node_modules" +:+ rest)
    (String.length root) = true ->
  Text.absent_before "node_modules" (between +:+ "node_modules" +:+ rest)
    (String.length between) = true ->
  externalPartial (root +:+ "node_modules" +:+ between +:+ "node_modules" +:+ rest)
  = Ok (Str.slashes ("external" +:+ Str.remove_suffix ".html" between)).
Proof.
  intros Hfirst Hsecond. unfold externalPartial, Str.split_1.
  rewrite (TextSpec.split_first_app "node_modules"
             (between +:+ "node_modules" +:+ rest) root Hfirst).
  unfold Str.split_0.
  rewrite (TextSpec.split_first_app "node_modules" rest between Hsecond).
  reflexivity.
Qed.

(** Witness for X2. *)
Lemma externalPartial_library_path_witness :
  externalPartial "/theme/node_modules/lib/templates/card.html"
  = Ok "external/lib/templates/card".
Proof.
  exact (externalPartial_library_path "/theme/" "/lib/templates/card" eq_refl eq_refl).
Defined.

(** Witness for X3: a theme that itself lives under a node_modules
    directory; every file of the library gets the same identifier. *)
Lemma externalPartial_nested_is_cut_witness :
  externalPartial "/app/node_modules/theme/node_modules/lib/templates/card.html"
  = Ok "external/theme/".
Proof.
  exact (externalPartial_nested_is_cut "/app/" "/theme/" "/lib/templates/card.html"
           eq_refl eq_refl).
Defined.

Lemma unique_from_In (arr : list string) : forall seen x,
  In x (unique_from seen arr) <-> In x arr /\ ~ In x seen.
Proof.
  induction arr as [|y arr IH]; intros seen x; simpl.
  - tauto.
  - destruct (existsb (String.eqb y) seen) eqn:Hy.
    + apply existsb_exists in Hy as (z & Hz & Heq). apply String.eqb_eq in Heq. subst z.
      rewrite IH. split.
      * intros [? ?]. tauto.
      * intros [[->|?] Hn]; [contradiction | tauto].
    + assert (Hny : ~ In y seen).
      { intros Hin. apply not_true_iff_false in Hy. apply Hy.
        apply existsb_exists. exists y. split; [assumption | apply String.eqb_refl]. }
      simpl. rewrite IH. simpl. split.
      * intros [->|[? Hn]]; [tauto|]. split; [tauto|]. intros ?. apply Hn. tauto.
      * intros [[->|?] Hn]; [tauto|].
        destruct (String.eqb_spec y x) as [->|Hne]; [tauto|]. right.
        split; [assumption|]. intros [?|?]; [congruence | contradiction].
Qed.

Lemma unique_from_NoDup (arr : list string) : forall seen,
  List.NoDup (unique_from seen arr).
Proof.
  induction arr as [|y arr IH]; intros seen; simpl; [constructor|].
  destruct (existsb (String.eqb y) seen); [apply IH|].
  constructor; [|apply IH].
  rewrite unique_from_In. simpl. tauto.
Qed.

(** X4: the de-duplicated library list holds every referenced library
    exactly once. *)
Theorem removeDuplicates_each_once (arr : list (list string)) :
  List.NoDup (removeDuplicates arr) /\
  (forall lib, In lib (removeDuplicates arr) <-> exists libs, In libs arr /\ In lib libs).
Proof.
  unfold removeDuplicates. split; [apply unique_from_NoDup|].
  intros lib. rewrite unique_from_In, in_concat. simpl. split.
  - intros [(libs & ? & ?) _]. eauto.
  - intros (libs & ? & ?). split; eauto.
Qed.

Lemma all_map_Ok {A B} (f : A -> result B) : forall (l : list A) (rs : list B),
  all (map f l) = Ok rs -> Forall2 (fun x r => f x = Ok r) l rs.
Proof.
  induction l as [|x l IH]; intros rs; simpl.
  - intros [= <-]. constructor.
  - destruct (f x) as [r|e] eqn:Hx; simpl; [|discriminate].
    destruct (all (map f l)) as [rs'|e]; simpl; [|discriminate].
    intros [= <-]. constructor; [assumption | apply IH; reflexivity].
Qed.

Lemma all_map_Forall2 {A B} (f : A -> result B) : forall (l : list A) (rs : list B),
  Forall2 (fun x r => f x = Ok r) l rs -> all (map f l) = Ok rs.
Proof.
  induction 1 as [|x r l rs Hx _ IH]; simpl; [reflexivity|].
  rewrite Hx. simpl. rewrite IH. reflexivity.
Qed.

Section Assemble.

Variable path_join : list string -> string.
Variable path_sep : string.
Variable recursiveReadDir : string -> result (list string).
Variable readFile : string -> result string.
Variable match_externalPath : string -> option (list string).
Variable partialRegex_exec : string -> option string.
Variable packageMarker : string.
Variable assembleAndBundle : string -> string -> result templateData.
Variable themePath : string.

Local Abbreviation the_getExternalLibs :=
  (getExternalLibs readFile match_externalPath partialRegex_exec packageMarker).
Local Abbreviation the_allPartials :=
  (allPartials path_join path_sep recursiveReadDir readFile match_externalPath
     partialRegex_exec packageMarker themePath).
Local Abbreviation the_assembleTemplates :=
  (_assembleTemplates path_join path_sep recursiveReadDir readFile match_externalPath
     partialRegex_exec packageMarker assembleAndBundle themePath).
Local Abbreviation the_internalPartial := (internalPartial path_join path_sep themePath).

(** X5: the library named by an external import is the text between the
    package marker (after the opening quote) and the first "/templates/".
    A file whose imports all have that shape yields the libraries in the
    order of the imports; a file without external imports yields none. *)
Theorem getExternalLibs_names_the_library
    (file content : string) (imports libs : list string) :
  readFile file = Ok content ->
  (match_externalPath content = None -> the_getExternalLibs file = Ok []) /\
  (match_externalPath content = Some imports ->
   Forall2 (fun templateImport lib =>
              exists quote rest,
                partialRegex_exec templateImport
                = Some (quote +:+ packageMarker +:+ lib +:+ "/templates/" +:+ rest) /\
                String.length quote = 1%nat /\
                Text.absent_before "/templates/"
                  ((quote +:+ packageMarker +:+ lib) +:+ "/templates/" +:+ rest)
                  (String.length (quote +:+ packageMarker +:+ lib)) = true)
           imports libs ->
   the_getExternalLibs file = Ok libs).
Proof.
  intros Hread. unfold getExternalLibs. rewrite Hread. simpl. split.
  - intros ->. reflexivity.
  - intros -> Hshape. apply all_map_Forall2.
    eapply Forall2_impl; [exact Hshape|]. clear.
    intros templateImport lib (quote & rest & -> & Hquote & Hfirst). simpl.
    f_equal. unfold Str.split_0.
    replace (quote +:+ packageMarker +:+ lib +:+ "/templates/" +:+ rest)
      with ((quote +:+ packageMarker +:+ lib) +:+ "/templates/" +:+ rest)
      by (rewrite !TextSpec.append_assoc'; reflexivity).
    rewrite (TextSpec.split_first_app _ _ _ Hfirst).
    replace (String.length packageMarker + 1)%nat
      with (String.length (quote +:+ packageMarker))
      by (rewrite TextSpec.length_append; lia).
    rewrite <- TextSpec.append_assoc'. apply TextSpec.slice_app.
Qed.

Lemma addExternal_appends (settled : list (result (list string))) :
  forall acc out,
  fold_left addExternal settled (Ok acc) = Ok out -> exists more, out = acc ++ more.
Proof.
  induction settled as [|r settled IH]; intros acc out; simpl.
  - intros [= <-]. exists []. rewrite app_nil_r. reflexivity.
  - destruct r as [files|e]; simpl.
    + destruct (all (map externalPartial files)) as [extracted|e]; simpl.
      * intros H. apply IH in H as (more & ->). exists (extracted ++ more).
        rewrite app_assoc. reflexivity.
      * intros H. exfalso. clear IH. revert H.
        induction settled; simpl; [discriminate | assumption].
    + intros H. exfalso. clear IH. revert H.
      induction settled; simpl; [discriminate | assumption].
Qed.

Lemma fold_addExternal_listings (libs : list string) :
  forall (listings : list (list string)) (external acc : list string),
  Forall2 (fun lib listing =>
             recursiveReadDir (path_join [themePath; "node_modules"; lib; "templates"])
             = Ok listing) libs listings ->
  Forall2 (fun file partial => externalPartial file = Ok partial) (concat listings) external ->
  fold_left addExternal
    (map (fun lib => recursiveReadDir (path_join [themePath; "node_modules"; lib; "templates"]))
         libs)
    (Ok acc)
  = Ok (acc ++ external).
Proof.
  induction libs as [|lib libs IH]; intros listings external acc Hlistings Hexternal.
  - inversion Hlistings; subst. inversion Hexternal; subst.
    simpl. rewrite app_nil_r. reflexivity.
  - inversion Hlistings as [|? listing ? rest Hlib Hrest]; subst.
    cbn [concat] in Hexternal.
    apply Forall2_app_inv_l in Hexternal as (first & more & Hfirst & Hmore & ->).
    cbn [map fold_left]. rewrite Hlib. unfold addExternal at 2.
    cbn [mbind result_bind settled_value].
    rewrite (all_map_Forall2 _ _ _ Hfirst). cbn [mbind result_bind].
    rewrite (IH rest more (acc ++ first) Hrest Hmore), app_assoc. reflexivity.
Qed.


(** A theme none of whose templates references an external library has
    exactly the internal identifiers. *)
Lemma allPartials_without_libraries (files : list string) :
  recursiveReadDir (templatesPath path_join themePath) = Ok files ->
  (forall file, In file files -> the_getExternalLibs file = Ok []) ->
  the_allPartials = Ok (map the_internalPartial files).
Proof.
  intros Hroot Hnone.
  assert (Hlibs : Forall2 (fun file names => the_getExternalLibs file = Ok names)
                          files (map (fun _ => []) files)).
  { clear Hroot. induction files as [|f fs IH]; simpl; constructor.
    - apply Hnone. left. reflexivity.
    - apply IH. intros file Hin. apply Hnone. right. assumption. }
  assert (Hempty : removeDuplicates (map (fun _ : string => @nil string) files) = []).
  { unfold removeDuplicates. clear. induction files; simpl; assumption || reflexivity. }
  unfold allPartials. rewrite Hroot. cbn [mbind result_bind].
  rewrite (all_map_Forall2 _ _ _ Hlibs). cbn [mbind result_bind].
  rewrite Hempty. reflexivity.
Qed.

Lemma replace_value_keys {V} (k : string) (v : V) : forall obj,
  map fst (replace_value obj k v) = map fst obj.
Proof.
  induction obj as [|[k' v'] obj IH]; simpl; [reflexivity|].
  destruct (String.eqb_spec k' k) as [->|Hne]; simpl; [reflexivity|].
  rewrite IH. reflexivity.
Qed.

Lemma replace_value_In {V} (k : string) (v : V) : forall obj k' v',
  In (k', v') (replace_value obj k v) -> (k' = k /\ v' = v) \/ In (k', v') obj.
Proof.
  induction obj as [|[k0 v0] obj IH]; intros k' v'; simpl; [intros []|].
  destruct (String.eqb_spec k0 k) as [->|Hne]; simpl.
  - intros [[= <- <-]|Hin]; [left; split; reflexivity | right; right; assumption].
  - intros [Heq|Hin]; [right; left; assumption|].
    apply IH in Hin as [?|?]; [left; assumption | right; right; assumption].
Qed.

Lemma insert_index_keys {V} (i : Z) (k : string) (v : V) : forall obj,
  Permutation (map fst (insert_index i k v obj)) (k :: map fst obj).
Proof.
  induction obj as [|[k' v'] obj IH]; simpl; [reflexivity|].
  destruct (array_index k') as [j|]; [|reflexivity].
  destruct (j <? i); [|reflexivity].
  simpl. rewrite IH. apply perm_swap.
Qed.

Lemma insert_index_In {V} (i : Z) (k : string) (v : V) : forall obj k' v',
  In (k', v') (insert_index i k v obj) -> (k' = k /\ v' = v) \/ In (k', v') obj.
Proof.
  induction obj as [|[k0 v0] obj IH]; intros k' v'; simpl.
  - intros [[= <- <-]|[]]. left. split; reflexivity.
  - destruct (array_index k0) as [j|]; [destruct (j <? i)|]; simpl.
    + intros [Heq|Hin]; [right; left; assumption|].
      apply IH in Hin as [?|?]; [left; assumption | right; right; assumption].
    + intros [[= <- <-]|Hin]; [left; split; reflexivity | right; assumption].
    + intros [[= <- <-]|Hin]; [left; split; reflexivity | right; assumption].
Qed.

Lemma has_key_In {V} (k : string) (obj : list (string * V)) :
  existsb (fun entry => String.eqb (fst entry) k) obj = true <-> In k (map fst obj).
Proof.
  rewrite existsb_exists, in_map_iff. split.
  - intros ([k' v'] & Hin & Heq). apply String.eqb_eq in Heq. exists (k', v'). auto.
  - intros ([k' v'] & Heq & Hin). exists (k', v'). split; [assumption|].
    apply String.eqb_eq. assumption.
Qed.

(** Assignment keeps every key, adds the assigned one once, whatever
    place the engine gives it. *)
Lemma obj_set_keys {V} (k : string) (v : V) (obj : list (string * V)) :
  if existsb (fun entry => String.eqb (fst entry) k) obj
  then map fst (obj_set obj k v) = map fst obj
  else Permutation (map fst (obj_set obj k v)) (k :: map fst obj).
Proof.
  unfold obj_set. destruct (existsb _ obj); [apply replace_value_keys|].
  destruct (array_index k) as [i|]; [apply insert_index_keys|].
  rewrite map_app. simpl. symmetry. apply Permutation_cons_append.
Qed.

Lemma obj_set_In {V} (k : string) (v : V) (obj : list (string * V)) : forall k' v',
  In (k', v') (obj_set obj k v) -> (k' = k /\ v' = v) \/ In (k', v') obj.
Proof.
  intros k' v'. unfold obj_set. destruct (existsb _ obj); [apply replace_value_In|].
  destruct (array_index k) as [i|]; [apply insert_index_In|].
  rewrite in_app_iff. simpl. intros [?|[[= <- <-]|[]]]; [right; assumption|].
  left. split; reflexivity.
Qed.

Lemma assemble_fold (partials : list string) : forall results ret,
  Forall2 (fun file data => assembleAndBundle (templatesPath path_join themePath) file = Ok data)
          partials results ->
  List.NoDup (map fst ret) ->
  (forall k v, In (k, v) ret ->
     assembleAndBundle (templatesPath path_join themePath) k = Ok v) ->
  let out := fold_left (fun ret '(file, data) => obj_set ret file data)
                       (combine partials results) ret in
  List.NoDup (map fst out) /\
  (forall k, In k (map fst out) <-> In k (map fst ret) \/ In k partials) /\
  (forall k v, In (k, v) out ->
     assembleAndBundle (templatesPath path_join themePath) k = Ok v).
Proof.
  induction partials as [|file partials IH]; intros results ret Hres Hnodup Hvals.
  - inversion Hres; subst. simpl. split; [assumption|]. split; [tauto | assumption].
  - inversion Hres as [|? data ? results' Hfile Hrest]; subst. simpl.
    pose proof (obj_set_keys file data ret) as Hset.
    destruct (existsb (fun entry => String.eqb (fst entry) file) ret) eqn:Hin.
    + apply has_key_In in Hin.
      destruct (IH results' (obj_set ret file data) Hrest) as (Hn & Hkeys & Hv).
      * rewrite Hset. assumption.
      * intros k v Hkv. apply obj_set_In in Hkv as [[-> ->]|Hkv]; [assumption|].
        apply Hvals. assumption.
      * split; [assumption|]. split; [|assumption].
        intros k. rewrite Hkeys, Hset. simpl. split; [tauto|].
        intros [?|[<-|?]]; tauto.
    + assert (Hnew : ~ In file (map fst ret)).
      { intros Hk. apply has_key_In in Hk. congruence. }
      destruct (IH results' (obj_set ret file data) Hrest) as (Hn & Hkeys & Hv).
      * eapply Permutation_NoDup; [symmetry; exact Hset|].
        constructor; assumption.
      * intros k v Hkv. apply obj_set_In in Hkv as [[-> ->]|Hkv]; [assumption|].
        apply Hvals. assumption.
      * split; [assumption|]. split; [|assumption].
        intros k. rewrite Hkeys. simpl. split.
        -- intros [Hk|Hk]; [|tauto].
           apply (Permutation_in _ Hset) in Hk. simpl in Hk. destruct Hk; tauto.
        -- intros [Hk|[<-|Hk]]; [left|left|tauto].
           ++ apply (Permutation_in _ (Permutation_sym Hset)). right. assumption.
           ++ apply (Permutation_in _ (Permutation_sym Hset)). left. reflexivity.
Qed.


End Assemble.

(** Witness for X5: the home template names the library "lib". *)
Lemma getExternalLibs_names_the_library_witness :
  getExternalLibs Examples.readFile Examples.match_externalPath
    Examples.partialRegex_exec "external/" Examples.home = Ok ["lib"].
Proof.
  apply (proj2 (getExternalLibs_names_the_library Examples.readFile
                  Examples.match_externalPath Examples.partialRegex_exec "external/"
                  Examples.home ("<main>" +:+ Examples.home_import +:+ "</main>")
                  [Examples.home_import] ["lib"] eq_refl)).
  - reflexivity.
  - constructor; [|constructor]. exists "'", "card'".
    split; [reflexivity|]. split; reflexivity.
Defined.



(** The entries of an object come with the array-index keys first, in
    ascending order; "007" is no array index and keeps its place. *)
Example numbered_templates_order :
  map fst Samples.numbered_templates = ["5"; "404"; "pages/home"; "007"].
Proof. reflexivity. Qed.

Section Compile.

Variable precompile : string -> result string.

Lemma compileEntries_app (first rest : list (string * templateData)) :
  forall text table,
  compileEntries precompile (first ++ rest) text table
  = match compileEntries precompile first text table with
    | Ok (text', table') => compileEntries precompile rest text' table'
    | Throw e => Throw e
    end.
Proof.
  induction first as [|[templateName data] first IH]; intros text table; simpl;
    [reflexivity|].
  destruct (templateSource templateName data) as [src|]; [|apply IH].
  destruct (precompile src) as [code|e]; simpl; [apply IH | reflexivity].
Qed.

Lemma compileEntries_compiles (templates : list (string * templateData)) :
  (forall templateName data src,
     In (templateName, data) templates ->
     templateSource templateName data = Some src ->
     exists code, precompile src = Ok code) ->
  forall text table,
  exists out, compileEntries precompile templates text table = Ok out.
Proof.
  induction templates as [|[templateName data] rest IH]; intros Hcompiles text table; simpl.
  - eexists. reflexivity.
  - destruct (templateSource templateName data) as [src|] eqn:Hsrc.
    + destruct (Hcompiles templateName data src) as (code & ->);
        [left; reflexivity | assumption |]. simpl.
      apply IH. intros n d src' Hin. apply Hcompiles. right. assumption.
    + apply IH. intros n d src' Hin. apply Hcompiles. right. assumption.
Qed.

(** X8: a partial whose source does not compile stops the build of the
    templates module: the first such partial's error is thrown as it is,
    whatever follows it, and no module text is produced. *)
Theorem generateStaticTemplates_first_failure_is_fatal
    (before after : list (string * templateData))
    (templateName : string) (data : templateData) (src : string) (e : error) :
  (forall n d s,
     In (n, d) before -> templateSource n d = Some s -> exists code, precompile s = Ok code) ->
  templateSource templateName data = Some src ->
  precompile src = Throw e ->
  _generateStaticTemplates precompile (before ++ (templateName, data) :: after) = Throw e.
Proof.
  intros Hbefore Hsrc Hfail. unfold _generateStaticTemplates.
  rewrite compileEntries_app.
  destruct (compileEntries_compiles before Hbefore header []) as ([text table] & ->).
  simpl. rewrite Hsrc, Hfail. reflexivity.
Qed.

End Compile.

End AssembleSpec.

(** * Properties of the worker script generation *)

Module LinkSpec.

Lemma substitution_plain (r matched before after : string) :
  Text.has_char "$" r = false -> Text.substitution r matched before after = r.
Proof.
  induction r as [|c r IH]; [reflexivity|].
  cbn [Text.has_char Text.substitution]. intros H.
  apply orb_false_elim in H as [Hc Hr]. rewrite Hc, (IH Hr). reflexivity.
Qed.

Lemma substitution_app (r1 r2 matched before after : string) :
  Text.has_char "$" r1 = false ->
  Text.substitution (r1 +:+ r2) matched before after
  = r1 +:+ Text.substitution r2 matched before after.
Proof.
  induction r1 as [|c r1 IH]; [reflexivity|].
  rewrite !TextSpec.append_cons. cbn [Text.has_char]. intros H.
  apply orb_false_elim in H as [Hc Hr].
  change (Text.substitution (String c (r1 +:+ r2)) matched before after)
    with (if Ascii.eqb c "$"
          then match r1 +:+ r2 with
               | EmptyString => String c EmptyString
               | String d rest' =>
                   if Ascii.eqb d "$"
                   then String "$" (Text.substitution rest' matched before after)
                   else if Ascii.eqb d "&"
                   then matched +:+ Text.substitution rest' matched before after
                   else if Ascii.eqb d "`"
                   then before +:+ Text.substitution rest' matched before after
                   else if Ascii.eqb d "'"
                   then after +:+ Text.substitution rest' matched before after
                   else String c (Text.substitution (r1 +:+ r2) matched before after)
               end
          else String c (Text.substitution (r1 +:+ r2) matched before after)).
  rewrite Hc, (IH Hr). reflexivity.
Qed.

(** Replacing the first occurrence of a token by text without a dollar
    sign puts that text in the token's place. *)
Lemma replace_plain (token data before after : string) :
  Text.has_char "$" data = false ->
  Text.absent_before token (before +:+ token +:+ after) (String.length before) = true ->
  Text.replace token data (before +:+ token +:+ after) = before +:+ data +:+ after.
Proof.
  intros Hdata Hfirst. unfold Text.replace.
  rewrite (TextSpec.split_first_app _ _ _ Hfirst), substitution_plain by assumption.
  reflexivity.
Qed.

Lemma replace_absent (token data text : string) :
  Text.includes token text = false -> Text.replace token data text = text.
Proof.
  unfold Text.includes, Text.replace.
  destruct (Str.split_first token text) as [[? ?]|]; [discriminate | reflexivity].
Qed.

(** X9: for an entry template that holds the four placeholders once each,
    in the order translations, schema, configuration, API URL, and data
    without a dollar sign, the worker script is the template with each
    placeholder replaced by its data.  The conditions say that each
    placeholder's first occurrence, in the text as it stands when that
    placeholder is replaced, is the intended one. *)
Theorem workerScript_fills_placeholders
    (a b c d e translations schema configuration : string) (option_apiUrl : option string) :
  Text.has_char "$" translations = false ->
  Text.has_char "$" schema = false ->
  Text.has_char "$" configuration = false ->
  Text.has_char "$" (Link.apiUrl option_apiUrl) = false ->
  Text.absent_before "__TRANSLATIONS_DATA__"
    (a +:+ "__TRANSLATIONS_DATA__" +:+
     (b +:+ "__SCHEMA_DATA__" +:+ c +:+ "__CONFIG_DATA__" +:+ d +:+ "__API_URL__" +:+ e))
    (String.length a) = true ->
  Text.absent_before "__SCHEMA_DATA__"
    ((a +:+ translations +:+ b) +:+ "__SCHEMA_DATA__" +:+
     (c +:+ "__CONFIG_DATA__" +:+ d +:+ "__API_URL__" +:+ e))
    (String.length (a +:+ translations +:+ b)) = true ->
  Text.absent_before "__CONFIG_DATA__"
    ((a +:+ translations +:+ b +:+ schema +:+ c) +:+ "__CONFIG_DATA__" +:+
     (d +:+ "__API_URL__" +:+ e))
    (String.length (a +:+ translations +:+ b +:+ schema +:+ c)) = true ->
  Text.absent_before "__API_URL__"
    ((a +:+ translations +:+ b +:+ schema +:+ c +:+ configuration +:+ d) +:+
     "__API_URL__" +:+ e)
    (String.length (a +:+ translations +:+ b +:+ schema +:+ c +:+ configuration +:+ d))
  = true ->
  Link.workerScript
    (a +:+ "__TRANSLATIONS_DATA__" +:+ b +:+ "__SCHEMA_DATA__" +:+ c +:+
     "__CONFIG_DATA__" +:+ d +:+ "__API_URL__" +:+ e)
    translations schema configuration option_apiUrl
  = a +:+ translations +:+ b +:+ schema +:+ c +:+ configuration +:+ d +:+
    Link.apiUrl option_apiUrl +:+ e.
Proof.
  intros Ht Hs Hc Hu H1 H2 H3 H4. unfold Link.workerScript.
  rewrite (replace_plain _ _ _ _ Ht H1).
  replace (a +:+ translations +:+ b +:+ "__SCHEMA_DATA__" +:+ c +:+
           "__CONFIG_DATA__" +:+ d +:+ "__API_URL__" +:+ e)
    with ((a +:+ translations +:+ b) +:+ "__SCHEMA_DATA__" +:+
          (c +:+ "__CONFIG_DATA__" +:+ d +:+ "__API_URL__" +:+ e))
    by (rewrite !TextSpec.append_assoc'; reflexivity).
  rewrite (replace_plain _ _ _ _ Hs H2).
  replace ((a +:+ translations +:+ b) +:+ schema +:+
           c +:+ "__CONFIG_DATA__" +:+ d +:+ "__API_URL__" +:+ e)
    with ((a +:+ translations +:+ b +:+ schema +:+ c) +:+ "__CONFIG_DATA__" +:+
          (d +:+ "__API_URL__" +:+ e))
    by (rewrite !TextSpec.append_assoc'; reflexivity).
  rewrite (replace_plain _ _ _ _ Hc H3).
  replace ((a +:+ translations +:+ b +:+ schema +:+ c) +:+ configuration +:+
           d +:+ "__API_URL__" +:+ e)
    with ((a +:+ translations +:+ b +:+ schema +:+ c +:+ configuration +:+ d) +:+
          "__API_URL__" +:+ e)
    by (rewrite !TextSpec.append_assoc'; reflexivity).
  rewrite (replace_plain _ _ _ _ Hu H4).
  rewrite !TextSpec.append_assoc'. reflexivity.
Qed.


(** X11: an entry template that holds none of the four placeholders is
    written out unchanged: the data is dropped without an error. *)
Theorem workerScript_without_placeholders
    (workerTemplate translations schema configuration : string)
    (option_apiUrl : option string) :
  Text.includes "__TRANSLATIONS_DATA__" workerTemplate = false ->
  Text.includes "__SCHEMA_DATA__" workerTemplate = false ->
  Text.includes "__CONFIG_DATA__" workerTemplate = false ->
  Text.includes "__API_URL__" workerTemplate = false ->
  Link.workerScript workerTemplate translations schema configuration option_apiUrl
  = workerTemplate.
Proof.
  intros Ht Hs Hc Hu. unfold Link.workerScript.
  rewrite (replace_absent _ _ _ Ht), (replace_absent _ _ _ Hs),
          (replace_absent _ _ _ Hc), (replace_absent _ _ _ Hu).
  reflexivity.
Qed.

(** X12: the dependency descriptor always names both runtime packages
    with a usable (truthy) version: a package file that is missing,
    unreadable or without a version gives the default range, "^5.3.0" and
    "^6.4.1"; a version found is kept as it is. *)
Theorem dependencies_always_have_versions (paper paperHandlebars : result jsval) :
  map fst (Link.dependencies paper paperHandlebars)
  = ["@bigcommerce/stencil-paper"; "@bigcommerce/stencil-paper-handlebars"] /\
  Forall (fun entry => truthy (snd entry) = true) (Link.dependencies paper paperHandlebars) /\
  (forall v, paper = Ok v -> truthy v = true -> Link._getPaperVersion paper = v) /\
  (forall v, paperHandlebars = Ok v -> truthy v = true ->
             Link._getPaperHandlebarsVersion paperHandlebars = v) /\
  ((forall v, paper = Ok v -> truthy v = false) ->
   Link._getPaperVersion paper = JStr "^5.3.0") /\
  ((forall v, paperHandlebars = Ok v -> truthy v = false) ->
   Link._getPaperHandlebarsVersion paperHandlebars = JStr "^6.4.1").
Proof.
  unfold Link.dependencies, Link._getPaperVersion, Link._getPaperHandlebarsVersion,
    Link.packageVersion.
  split; [reflexivity|]. split; [|split; [|split; [|split]]].
  - repeat constructor; simpl.
    + destruct paper as [v|]; [destruct (truthy v) eqn:Hv; [exact Hv|] |]; reflexivity.
    + destruct paperHandlebars as [v|];
        [destruct (truthy v) eqn:Hv; [exact Hv|] |]; reflexivity.
  - intros v -> ->. reflexivity.
  - intros v -> ->. reflexivity.
  - intros H. destruct paper as [v|]; [rewrite (H v eq_refl)|]; reflexivity.
  - intros H. destruct paperHandlebars as [v|]; [rewrite (H v eq_refl)|]; reflexivity.
Qed.

End LinkSpec.

(** * Properties of the other push workflow steps *)

Module UploadSpec.

Import Upload.

(** X13: option validation succeeds exactly when every required field is
    present, and otherwise throws for the first missing field in the
    order given, with the message "<field> is required!". *)
Theorem validateOptions_reports_first_missing (has : string -> bool) (fields : list string) :
  (validateOptions has fields = Ok tt <-> forall field, In field fields -> has field = true) /\
  (forall present field rest,
     fields = present ++ field :: rest ->
     (forall x, In x present -> has x = true) ->
     has field = false ->
     validateOptions has fields = Throw (required field)).
Proof.
  split.
  - induction fields as [|f fields IH]; simpl.
    + split; [intros _ field [] | reflexivity].
    + destruct (has f) eqn:Hf.
      * rewrite IH. split.
        -- intros H field [<-|Hin]; [assumption | apply H; assumption].
        -- intros H field Hin. apply H. right. assumption.
      * split; [discriminate|]. intros H. rewrite (H f) in Hf; [discriminate|].
        left. reflexivity.
  - intros present field rest -> Hpresent Hmissing.
    induction present as [|x present IH]; simpl.
    + rewrite Hmissing. reflexivity.
    + rewrite (Hpresent x) by (left; reflexivity).
      apply IH. intros y Hy. apply Hpresent. right. assumption.
Qed.

Section Steps.

Variable parseJsonFile : string -> result stencilConfig.
Variable URL_host : string -> result string.
Variable fetch : string -> result response.
Variable deleteThemeById : string -> result unit.

(** X14: reading the deployment configuration.  Without a configuration
    path the step throws the plain error "dotStencilFilePath is
    required!"; a file that cannot be read or parsed gives that failure's
    message under the name StencilConfigReadError; otherwise the parsed
    configuration is added to the session and nothing else changes. *)
Theorem readStencilConfigFile_outcomes (s : session) :
  (dotStencilFilePath s = None ->
   readStencilConfigFile parseJsonFile s = Throw (required "dotStencilFilePath")) /\
  (forall path err,
     dotStencilFilePath s = Some path -> parseJsonFile path = Throw err ->
     readStencilConfigFile parseJsonFile s
     = Throw {| Js.name := "StencilConfigReadError"; message := message err |}) /\
  (forall path c,
     dotStencilFilePath s = Some path -> parseJsonFile path = Ok c ->
     readStencilConfigFile parseJsonFile s = Ok (with_config s c)).
Proof.
  unfold readStencilConfigFile, has. simpl. split; [|split].
  - intros ->. reflexivity.
  - intros path err -> ->. reflexivity.
  - intros path c -> ->. reflexivity.
Qed.

(** X15: resolving the store identity.  The step succeeds exactly when
    the store URL is valid, the discovery request is answered with an ok
    response and its payload carries a non-empty store hash; the session
    then carries that very hash and nothing else changes.  When it
    fails, the failure is either the missing-option error, or the
    TypeError of an invalid store URL (both thrown before the request and
    left untagged), or it bears the name StoreHashReadError; a response
    that is not ok fails with its status text as message. *)
Theorem getStoreHash_outcomes (s : session) :
  match getStoreHash URL_host fetch s with
  | Ok s' =>
      exists c url host r body h,
        config s = Some c /\ normalStoreUrl c = Some url /\ URL_host url = Ok host /\
        fetch ("https://" +:+ host +:+ "/admin/oauth/info") = Ok r /\ ok r = true /\
        json r = Ok body /\ store_hash body = Some h /\ h <> "" /\
        s' = with_storeHash s h
  | Throw e =>
      e = required "config.normalStoreUrl" \/
      (exists c url, config s = Some c /\ normalStoreUrl c = Some url /\
                     URL_host url = Throw e) \/
      Js.name e = "StoreHashReadError"
  end /\
  (forall c url host r body h,
     config s = Some c -> normalStoreUrl c = Some url -> URL_host url = Ok host ->
     fetch ("https://" +:+ host +:+ "/admin/oauth/info") = Ok r -> ok r = true ->
     json r = Ok body -> store_hash body = Some h -> h <> "" ->
     getStoreHash URL_host fetch s = Ok (with_storeHash s h)) /\
  (forall c url host r,
     config s = Some c -> normalStoreUrl c = Some url -> URL_host url = Ok host ->
     fetch ("https://" +:+ host +:+ "/admin/oauth/info") = Ok r -> ok r = false ->
     getStoreHash URL_host fetch s
     = Throw {| Js.name := "StoreHashReadError"; message := statusText r |}).
Proof.
  split; [|split].
  - unfold getStoreHash, has. simpl.
    destruct (config s) as [c|] eqn:Hc; simpl; [|left; reflexivity].
    destruct (normalStoreUrl c) as [url|] eqn:Hurl; simpl; [|left; reflexivity].
    destruct (URL_host url) as [host|e] eqn:Hhost; simpl;
      [|right; left; exists c, url; auto].
    destruct (fetch _) as [r|e] eqn:Hfetch; simpl; [|right; right; reflexivity].
    destruct (ok r) eqn:Hok; simpl; [|right; right; reflexivity].
    destruct (json r) as [body|e] eqn:Hjson; simpl; [|right; right; reflexivity].
    destruct (store_hash body) as [h|] eqn:Hhash; [|right; right; reflexivity].
    destruct (String.eqb_spec h ""); simpl; [right; right; reflexivity|].
    exists c, url, host, r, body, h. repeat split; assumption.
  - intros c url host r body h Hc Hurl Hhost Hfetch Hok Hjson Hhash Hne.
    unfold getStoreHash, has. simpl. rewrite Hc. simpl. rewrite Hurl. simpl.
    rewrite Hhost. simpl. rewrite Hfetch. simpl. rewrite Hok. simpl.
    rewrite Hjson. simpl. rewrite Hhash.
    destruct (String.eqb_spec h ""); [contradiction | reflexivity].
  - intros c url host r Hc Hurl Hhost Hfetch Hok.
    unfold getStoreHash, has. simpl. rewrite Hc. simpl. rewrite Hurl. simpl.
    rewrite Hhost. simpl. rewrite Hfetch. simpl. rewrite Hok. reflexivity.
Qed.

(** X16: the upload step stores the job identifier and the limit flag
    coerced to a boolean, and a failed upload is rethrown under the name
    ThemeUploadError with its message.  The repeated upload happens only
    when the limit was reached; it overwrites the job identifier and the
    limit flag with the second answer, so a second "limit reached" stays
    in the session. *)
Theorem upload_again_overwrites_job (s : session) (c : stencilConfig)
    (posted : result uploaded) :
  config s = Some c ->
  (Push.themeLimitReached (options s) = false ->
   uploadBundleAgainIfNecessary posted s = Ok s) /\
  (Push.themeLimitReached (options s) = true ->
   uploadBundleAgainIfNecessary posted s = uploadBundle posted s) /\
  (forall r, posted = Ok r ->
     exists s', uploadBundle posted s = Ok s' /\
                jobId s' = Some (uploaded_jobId r) /\
                Push.themeLimitReached (options s')
                = truthy (uploaded_themeLimitReached r) /\
                Push.themes (options s') = Push.themes (options s) /\
                bundleZipPath s' = bundleZipPath s) /\
  (forall err, posted = Throw err ->
     uploadBundle posted s
     = Throw {| Js.name := "ThemeUploadError"; message := message err |}).
Proof.
  intros Hc. unfold uploadBundleAgainIfNecessary, uploadBundle, destructure_config.
  rewrite Hc. simpl. split; [|split; [|split]].
  - intros ->. reflexivity.
  - intros ->. reflexivity.
  - intros r ->. eexists. split; [reflexivity|]. repeat split.
  - intros err ->. reflexivity.
Qed.

Lemma all_Ok_iff {A} (rs : list (result A)) :
  (exists vs, WorkerBundle.all rs = Ok vs) <-> (forall r, In r rs -> exists v, r = Ok v).
Proof.
  induction rs as [|r rs IH]; simpl.
  - split; [intros _ r [] | intros _; eexists; reflexivity].
  - destruct r as [v|e]; simpl.
    + destruct (WorkerBundle.all rs) as [vs|e] eqn:Hall; simpl.
      * split; [|intros _; eexists; reflexivity].
        intros _ r [<-|Hin]; [eexists; reflexivity|].
        apply IH; [eexists; reflexivity | assumption].
      * split; [intros [vs [=]]|]. intros H.
        destruct (proj2 IH) as [vs [=]]. intros r Hin. apply H. right. assumption.
    + split; [intros [vs [=]]|]. intros H.
      destruct (H (Throw e)) as [v [=]]. left. reflexivity.
Qed.

(** X17: deleting the selected themes.  With the limit reached the step
    issues one delete request per selected identifier, in order, whether
    or not some of them fail; it returns the session unchanged exactly
    when every deletion succeeds, and every failure, also that of a
    selection that was never made, bears the name ThemeDeletionError.
    Without the limit reached nothing is requested. *)
Theorem deleteThemesIfNecessary_requests_every_id (s : session) (c : stencilConfig) :
  config s = Some c ->
  (Push.themeLimitReached (options s) = false ->
   deleteThemesIfNecessary deleteThemeById s = ([], Ok s)) /\
  (Push.themeLimitReached (options s) = true ->
   (forall ids, Push.themeIdsToDelete (options s) = Some ids ->
      fst (deleteThemesIfNecessary deleteThemeById s) = ids /\
      (snd (deleteThemesIfNecessary deleteThemeById s) = Ok s <->
       forall id, In id ids -> deleteThemeById id = Ok tt)) /\
   (forall e, snd (deleteThemesIfNecessary deleteThemeById s) = Throw e ->
      Js.name e = "ThemeDeletionError")).
Proof.
  intros Hc. unfold deleteThemesIfNecessary, destructure_config. rewrite Hc.
  split; [intros ->; reflexivity|]. intros ->. simpl. split.
  - intros ids ->. simpl. split; [reflexivity|].
    destruct (WorkerBundle.all (map deleteThemeById ids)) as [vs|err] eqn:Hall.
    + split; [|reflexivity]. intros _ id Hin.
      destruct (proj1 (all_Ok_iff (map deleteThemeById ids)) (ex_intro _ vs Hall)
                  (deleteThemeById id)) as [[] Hid]; [apply in_map; assumption|].
      exact Hid.
    + split; [discriminate|]. intros Hevery.
      destruct (proj2 (all_Ok_iff (map deleteThemeById ids))) as [vs Hvs].
      * intros r Hr. apply in_map_iff in Hr as (id & <- & Hin).
        exists tt. apply Hevery. assumption.
      * rewrite Hvs in Hall. discriminate Hall.
  - intros e. destruct (Push.themeIdsToDelete (options s)) as [ids|]; simpl.
    + destruct (WorkerBundle.all (map deleteThemeById ids)); [discriminate|].
      intros [= <-]. reflexivity.
    + intros [= <-]. reflexivity.
Qed.

Variable getRawConfig : result unit.
Variable initBundle : string * string -> result string.
Variables THEME_PATH tmpdir uuid : string.

Local Abbreviation the_generateBundle :=
  (generateBundle getRawConfig initBundle THEME_PATH tmpdir uuid).

(** X18: producing the bundle.  A bundle path already in the session is
    reused: nothing is built and no collaborator's failure matters.
    Otherwise the bundle is built under the given name in the theme
    directory, or under a fresh name in the temporary directory when no
    name was given; a failed build is rethrown under the name
    BundleInitError with its message, while a failure to read the raw
    configuration is thrown as it is. *)
Theorem generateBundle_reuses_or_builds (s : session) :
  (forall path, bundleZipPath s = Some path -> path <> "" ->
     the_generateBundle s = Ok s) /\
  ((bundleZipPath s = None \/ bundleZipPath s = Some "") ->
   (forall e, getRawConfig = Throw e -> the_generateBundle s = Throw e) /\
   (getRawConfig = Ok tt ->
    let output :=
      match saveBundleName s with
      | Some name => if String.eqb name "" then (tmpdir, uuid) else (THEME_PATH, name)
      | None => (tmpdir, uuid)
      end in
    match initBundle output with
    | Ok path => the_generateBundle s = Ok (with_bundleZipPath s path)
    | Throw err =>
        the_generateBundle s
        = Throw {| Js.name := "BundleInitError"; message := message err |}
    end)).
Proof.
  unfold generateBundle. split.
  - intros path -> Hpath. simpl.
    destruct (String.eqb_spec path ""); [contradiction | reflexivity].
  - intros Hnone.
    assert (Hskip : match bundleZipPath s with
                    | Some path => truthy (JStr path)
                    | None => false
                    end = false)
      by (destruct Hnone as [->| ->]; reflexivity).
    rewrite Hskip. split.
    + intros e ->. reflexivity.
    + intros ->. simpl.
      destruct (saveBundleName s) as [name|]; simpl.
      * destruct (String.eqb name ""); simpl; destruct (initBundle _); reflexivity.
      * destruct (initBundle _); reflexivity.
Qed.

End Steps.

Section DeleteOldest.

Variable Date_valueOf : string -> option Z.
Variable Inquirer_prompt : list Push.choice -> list string.
Variable deleteThemeById : string -> result unit.

Lemma fold_older_picks (rest : list Push.dated) : forall acc,
  In (fold_left Push.older rest acc) (acc :: rest).
Proof.
  induction rest as [|c rest IH]; intros acc; simpl; [left; reflexivity|].
  destruct (IH (Push.older acc c)) as [H|H].
  - rewrite <- H. unfold Push.older.
    destruct (num_lt (Push.dated_updated_at acc) (Push.dated_updated_at c));
      [left | right; left]; reflexivity.
  - right. right. exact H.
Qed.

Lemma oldestTheme_is_a_candidate (themes : list Theme.t) (oldest : Push.dated) :
  Push.oldestTheme Date_valueOf themes = Ok oldest ->
  exists theme, In theme themes /\
                Theme.is_private theme = true /\ Theme.is_active theme = false /\
                Push.dated_uuid oldest = Theme.uuid theme.
Proof.
  unfold Push.oldestTheme, reduce.
  destruct (map (Push.to_dated Date_valueOf) (List.filter Push.deletable themes))
    as [|first rest] eqn:Hmap; [discriminate|].
  intros [= <-].
  pose proof (fold_older_picks rest first) as Hin. rewrite <- Hmap in Hin.
  apply in_map_iff in Hin as (theme & Heq & Hin).
  apply filter_In in Hin as [Hin Hdel].
  exists theme. split; [assumption|].
  unfold Push.deletable in Hdel. apply andb_prop in Hdel as [Hp Ha].
  split; [assumption|]. split; [destruct (Theme.is_active theme); [discriminate|reflexivity]|].
  rewrite <- Heq. reflexivity.
Qed.

(** X19: delete-oldest from selection to deletion.  Whatever the dates
    are (valid or not), when the selection step succeeds with the limit
    reached and delete-oldest chosen, the deletion step issues exactly
    one delete request, and it is for a theme of the list that is private
    and not active: the active theme and public themes are never
    deleted. *)
Theorem delete_oldest_deletes_one_inactive_private_theme
    (s : Upload.session) (c : stencilConfig) (o' : Push.options) :
  config s = Some c ->
  Push.themeLimitReached (options s) = true ->
  Push.deleteOldest (options s) = true ->
  Push.promptUserToDeleteThemesIfNecessary Date_valueOf Inquirer_prompt (options s) = Ok o' ->
  exists theme,
    In theme (Push.themes (options s)) /\
    Theme.is_private theme = true /\ Theme.is_active theme = false /\
    fst (deleteThemesIfNecessary deleteThemeById (with_options s o')) = [Theme.uuid theme].
Proof.
  intros Hc Hlimit Hdel Hprompt.
  unfold Push.promptUserToDeleteThemesIfNecessary in Hprompt.
  rewrite Hlimit, Hdel in Hprompt. simpl in Hprompt.
  destruct (Push.oldestTheme Date_valueOf (Push.themes (options s))) as [oldest|e] eqn:Hold;
    simpl in Hprompt; [|discriminate].
  injection Hprompt as <-.
  destruct (oldestTheme_is_a_candidate _ _ Hold) as (theme & Hin & Hp & Ha & Hid).
  exists theme. repeat (split; [assumption|]).
  unfold deleteThemesIfNecessary, destructure_config. simpl.
  rewrite Hc, Hlimit. simpl. rewrite Hid. reflexivity.
Qed.

(** X20: a candidate with an unparsable date wins every comparison made
    after it: when the last private, inactive theme of the list has an
    invalid date, delete-oldest selects that theme, whatever the dates
    of the others. *)
Theorem delete_oldest_prefers_trailing_invalid_date
    (o : Push.options) (before : list Theme.t) (theme : Theme.t) :
  Push.themeLimitReached o = true ->
  Push.deleteOldest o = true ->
  List.filter Push.deletable (Push.themes o) = before ++ [theme] ->
  Date_valueOf (Theme.updated_at theme) = None ->
  Push.promptUserToDeleteThemesIfNecessary Date_valueOf Inquirer_prompt o
  = Ok (Push.with_themeIdsToDelete o [Theme.uuid theme]).
Proof.
  intros Hlimit Hdel Hcands Hnan.
  unfold Push.promptUserToDeleteThemesIfNecessary, Push.oldestTheme.
  rewrite Hlimit, Hdel, Hcands. simpl.
  rewrite map_app. simpl.
  destruct (map (Push.to_dated Date_valueOf) before) as [|first rest] eqn:Hmap; simpl.
  - reflexivity.
  - rewrite fold_left_app. simpl. unfold Push.older at 1. simpl.
    rewrite Hnan.
    destruct (Push.dated_updated_at (fold_left Push.older rest first)); reflexivity.
Qed.

End DeleteOldest.

End UploadSpec.

(** * Further properties of variation selection and activation *)

Module VariationSpec.

Import Push.

Section Variations.

Variable getVariationsByThemeId : string -> result (list Variation.t).
Variable prompt : list (string * string) -> string.

(** X21: the lookup by name is reached only for a falsy activation value
    other than undefined, and for false, null and 0 it can match no
    variation: once the user has agreed to apply the theme, the step
    fails with the invalid-variation error, whose message lists the
    names of all variations separated by ", ". *)
Theorem getVariations_falsy_activation_is_rejected (o : options) (vs : list Variation.t) :
  applyTheme o = true ->
  getVariationsByThemeId (themeId o) = Ok vs ->
  activate o = JBool false \/ activate o = JNull \/ activate o = JNum 0 ->
  getVariations getVariationsByThemeId o =
  Throw {| Js.name := "Error";
           message := "Invalid theme variation provided!. Available options "
                      +:+ join ", " (map Variation.name vs) +:+ "..." |}.
Proof.
  intros Happly Hvs Hactivate. unfold getVariations. rewrite Happly, Hvs.
  assert (Hfind : find (fun item => strict_eq (JStr (Variation.name item)) (activate o)) vs
                  = None).
  { assert (Hne : forall n, strict_eq (JStr n) (activate o) = false)
      by (intros n; destruct Hactivate as [->|[->| ->]]; reflexivity).
    clear Hvs. induction vs as [|v rest IH]; [reflexivity|]. cbn [find].
    rewrite Hne. exact IH. }
  cbn [negb]. unfold mbind, result_bind. rewrite Hfind.
  destruct Hactivate as [->|[->| ->]]; reflexivity.
Qed.

(** X22: variation selection followed by the variation prompt, for a
    session in which no variation was fetched or chosen before, when the
    selection step has succeeded.  (1) When the theme is not applied the
    prompt step returns the session unchanged.  (2) When it is applied
    and no activation value was given, the user is asked over exactly the
    variations that were fetched, and the answer becomes the variation
    identifier.  (3) When it is applied and an activation value was
    given, the selection step has chosen an identifier; the user is not
    asked: the prompt step returns the session unchanged, except that an
    empty identifier makes it throw the TypeError of reading [map] of
    undefined, since no variation list was stored. *)
Theorem variation_prompt_follows_selection (o o' : options) :
  variationId o = None ->
  variations o = None ->
  getVariations getVariationsByThemeId o = Ok o' ->
  (applyTheme o = false -> Upload.promptUserForVariation prompt o' = Ok o') /\
  (applyTheme o = true -> activate o = JUndefined ->
   exists vs,
     getVariationsByThemeId (themeId o) = Ok vs /\
     Upload.promptUserForVariation prompt o'
     = Ok (with_variationId o'
             (prompt (map (fun v => (Variation.name v, Variation.uuid v)) vs)))) /\
  (applyTheme o = true -> activate o <> JUndefined ->
   exists id,
     variationId o' = Some id /\
     (id <> "" -> Upload.promptUserForVariation prompt o' = Ok o') /\
     (id = "" ->
      Upload.promptUserForVariation prompt o'
      = Throw (TypeError "Cannot read properties of undefined (reading 'map')"))).
Proof.
  intros Hid Hvars Hsel. unfold getVariations in Hsel.
  destruct (applyTheme o) eqn:Happly; simpl in Hsel.
  2:{ injection Hsel as <-. split; [|split]; try discriminate.
      intros _. unfold Upload.promptUserForVariation. rewrite Happly. reflexivity. }
  split; [discriminate|].
  destruct (getVariationsByThemeId (themeId o)) as [vs|e]; simpl in Hsel; [|discriminate].
  destruct (truthy (activate o)) eqn:Htruthy; simpl in Hsel.
  - split; [intros _ Hundef; rewrite Hundef in Htruthy; discriminate Htruthy|].
    intros _ _. destruct vs as [|first rest]; [discriminate|]. injection Hsel as <-.
    exists (Variation.uuid first). split; [reflexivity|].
    unfold Upload.promptUserForVariation. simpl. rewrite Happly, Hvars. simpl.
    split.
    + intros Hne. destruct (String.eqb_spec (Variation.uuid first) "");
        [contradiction | reflexivity].
    + intros ->. reflexivity.
  - destruct (is_undefined (activate o)) eqn:Hundef; simpl in Hsel.
    + injection Hsel as <-. split.
      * intros _ _. exists vs. split; [reflexivity|].
        unfold Upload.promptUserForVariation. simpl. rewrite Happly, Hid. reflexivity.
      * intros _ Hgiven. exfalso. apply Hgiven.
        destruct (activate o); try discriminate Hundef. reflexivity.
    + split; [intros _ Hgiven; rewrite Hgiven in Hundef; discriminate Hundef|].
      intros _ _.
      destruct (find _ vs) as [found|]; [|discriminate].
      destruct (String.eqb_spec (Variation.uuid found) "") as [|Hne]; simpl in Hsel;
        [discriminate|].
      injection Hsel as <-. exists (Variation.uuid found). split; [reflexivity|].
      unfold Upload.promptUserForVariation. simpl. rewrite Happly. simpl.
      split.
      * intros _. destruct (String.eqb_spec (Variation.uuid found) "");
          [contradiction | reflexivity].
      * intros Hempty. contradiction.
Qed.

End Variations.

Section Prompt.

Variable Date_valueOf : string -> option Z.
Variable Inquirer_prompt : list choice -> list string.

(** X23: when the limit is reached and delete-oldest was not chosen, the
    deletion prompt offers one choice per theme, in list order, carrying
    the theme's name and identifier, and a choice is disabled exactly
    when the theme is not a candidate of delete-oldest (it is active or
    not private); the answer becomes the deletion list. *)
Theorem deletion_prompt_offers_the_candidates (o : options) :
  themeLimitReached o = true ->
  deleteOldest o = false ->
  exists choices,
    promptUserToDeleteThemesIfNecessary Date_valueOf Inquirer_prompt o
    = Ok (with_themeIdsToDelete o (Inquirer_prompt choices)) /\
    Forall2 (fun theme c =>
               value c = Theme.uuid theme /\ choice_name c = Theme.name theme /\
               disabled c = negb (deletable theme))
            (themes o) choices.
Proof.
  intros Hlimit Hdel. unfold promptUserToDeleteThemesIfNecessary.
  rewrite Hlimit, Hdel. simpl. eexists. split; [reflexivity|].
  induction (themes o) as [|theme rest IH]; simpl; constructor; [|exact IH].
  simpl. repeat split. unfold deletable.
  destruct (Theme.is_private theme), (Theme.is_active theme); reflexivity.
Qed.

End Prompt.

End VariationSpec.

(** * Properties of the worker entry script *)

Module WorkerEntrySpec.

Import WorkerEntry.

Lemma has_char_app (c : ascii) (a b : string) :
  Text.has_char c (a +:+ b) = Text.has_char c a || Text.has_char c b.
Proof.
  induction a as [|x a IH]; [reflexivity|].
  rewrite TextSpec.append_cons. cbn [Text.has_char]. rewrite IH, orb_assoc. reflexivity.
Qed.

Lemma from_last_absent (c : ascii) (s : string) :
  Text.has_char c s = false -> Text.from_last c s = s.
Proof.
  destruct s as [|x s]; [reflexivity|]. cbn [Text.has_char Text.from_last].
  intros H. apply orb_false_elim in H as [_ ->]. reflexivity.
Qed.

Lemma from_last_present (c : ascii) (s : string) :
  Text.has_char c s = true -> exists rest, Text.from_last c s = String c rest.
Proof.
  induction s as [|x s IH]; [discriminate|]. cbn [Text.has_char Text.from_last].
  destruct (Text.has_char c s) eqn:Hs; [intros _; apply IH; reflexivity|].
  rewrite orb_false_r. intros Hx. apply Ascii.eqb_eq in Hx. subst x.
  exists s. reflexivity.
Qed.

Lemma from_last_app (c : ascii) (stem ext : string) :
  Text.has_char c ext = false ->
  Text.from_last c (stem +:+ String c ext) = String c ext.
Proof.
  intros Hext. induction stem as [|x stem IH].
  - change ("" +:+ String c ext) with (String c ext).
    cbn [Text.from_last]. rewrite Hext. reflexivity.
  - rewrite TextSpec.append_cons. cbn [Text.from_last].
    rewrite has_char_app. cbn [Text.has_char]. rewrite Ascii.eqb_refl.
    rewrite orb_true_r. exact IH.
Qed.

Lemma own_values_truthy (key type : string) :
  own key MIME_TYPES = Some type -> truthy (JStr type) = true.
Proof.
  unfold MIME_TYPES. cbn [own].
  repeat (destruct (String.eqb _ key); [intros [= <-]; reflexivity|]).
  discriminate.
Qed.

(** X24: the content type is decided by the text after the last dot of
    the path, compared without regard to case: a path that ends in a
    listed extension, in any mix of upper and lower case, gets that
    extension's type, whatever precedes the last dot. *)
Theorem getMimeType_by_extension (stem ext type : string) :
  Text.has_char "." ext = false ->
  own (String "." (Text.toLowerCase ext)) MIME_TYPES = Some type ->
  getMimeType (stem +:+ String "." ext) = Mime type.
Proof.
  intros Hext Hown. unfold getMimeType.
  rewrite (from_last_app "." stem ext Hext).
  change (Text.toLowerCase (String "." ext)) with (String "." (Text.toLowerCase ext)).
  rewrite Hown, (own_values_truthy _ _ Hown). reflexivity.
Qed.

Lemma lower_keeps (c : ascii) : Str.is_upper c = false -> Text.lower c = c.
Proof. unfold Text.lower. intros ->. reflexivity. Qed.

(** X25: for a URL path (one that starts with a slash) the result is
    always a type: the listed type of the lower-cased text from the last
    dot on, and the default "application/octet-stream" when that text is
    not listed, in particular when the path has no dot or its last dot
    lies in a directory name. *)
Theorem getMimeType_of_url_path (rest : string) :
  getMimeType (String "/" rest)
  = Mime match own (Text.toLowerCase (Text.from_last "." (String "/" rest))) MIME_TYPES with
         | Some type => type
         | None => "application/octet-stream"
         end.
Proof.
  unfold getMimeType.
  destruct (own _ MIME_TYPES) as [type|] eqn:Hown.
  - rewrite (own_values_truthy _ _ Hown). reflexivity.
  - assert (Hhead : exists c tail,
              Text.toLowerCase (Text.from_last "." (String "/" rest)) = String c tail /\
              (c = "."%char \/ c = "/"%char)).
    { destruct (Text.has_char "." (String "/" rest)) eqn:Hdot.
      - destruct (from_last_present _ _ Hdot) as (tail & ->).
        exists "."%char, (Text.toLowerCase tail). split; [reflexivity | left; reflexivity].
      - rewrite (from_last_absent _ _ Hdot).
        exists "/"%char, (Text.toLowerCase rest). split; [reflexivity | right; reflexivity]. }
    destruct Hhead as (c & tail & -> & [-> | ->]); reflexivity.
Qed.

Section Handler.

Variable stencilData : Type.
Variable template_file : stencilData -> jsval.
Variable ToString : jsval -> string.
Variable templateFunc : string -> option (stencilData -> result string).
Variable apiUrl : location -> result string.
Variable fetch : string -> bool -> result response.
Variable json : response -> result (parsed stencilData).
Variable stringify : stencilData -> string.

Local Abbreviation the_handle :=
  (handle stencilData template_file ToString templateFunc apiUrl fetch json stringify).

(** X26: a request under /assets/ or /content/ is answered with the
    upstream response's status, status text, other headers and body, and
    with the content type of the path's extension in place of the
    upstream one; no template is looked up or rendered for it. *)
Theorem assets_are_proxied_with_type_by_extension
    (loc : location) (target : string) (upstream : response) :
  String.prefix "/assets/" (pathname loc) = true \/
  String.prefix "/content/" (pathname loc) = true ->
  apiUrl loc = Ok target ->
  fetch target false = Ok upstream ->
  the_handle (Ok loc)
  = {| status := status upstream; statusText := statusText upstream;
       content_type := Some (getMimeType (pathname loc));
       headers := headers upstream; body := body upstream |}.
Proof.
  intros Hpath Htarget Hfetch. unfold handle, serve. simpl.
  assert (Hasset : String.prefix "/assets/" (pathname loc)
                   || String.prefix "/content/" (pathname loc) = true)
    by (destruct Hpath as [-> | ->]; [reflexivity | apply orb_true_r]).
  rewrite Hasset, Htarget. simpl. rewrite Hfetch. reflexivity.
Qed.

(** X27: a page request whose upstream answer is a JSON context.  With a
    falsy [template_file] the context is sent back as JSON and nothing
    is rendered: the "pages/home" default of the renderer is never used.
    With a truthy one the page is the output of the template function of
    that name; when there is no such function, or it throws, the answer
    is a 500 whose body is "Internal Server Error: " followed by the
    error's message. *)
Theorem page_request_outcomes
    (loc : location) (target : string) (apiResponse : response) (d : stencilData) :
  String.prefix "/assets/" (pathname loc) = false ->
  String.prefix "/content/" (pathname loc) = false ->
  apiUrl loc = Ok target ->
  fetch target true = Ok apiResponse ->
  Text.includes "application/json" (contentTypeText apiResponse) = true ->
  json apiResponse = Ok (Data d) ->
  (truthy (template_file d) = false ->
   the_handle (Ok loc) = respond "application/json" (stringify d)) /\
  (truthy (template_file d) = true ->
   match templateFunc (ToString (template_file d)) with
   | None =>
       the_handle (Ok loc)
       = {| status := 500; statusText := ""; content_type := Some (Mime "text/plain");
            headers := [];
            body := "Internal Server Error: Template not found: "
                    +:+ ToString (template_file d) |}
   | Some render =>
       match render d with
       | Ok html => the_handle (Ok loc) = respond "text/html;charset=UTF-8" html
       | Throw err => the_handle (Ok loc) = internalServerError err
       end
   end).
Proof.
  intros Hassets Hcontent Htarget Hfetch Hjson Hdata.
  unfold handle, serve. simpl. rewrite Hassets, Hcontent, Htarget. simpl.
  rewrite Hfetch. simpl. rewrite Hjson. simpl. rewrite Hdata. simpl. split.
  - intros ->. reflexivity.
  - intros Htruthy. rewrite Htruthy. simpl. unfold renderTemplate. rewrite Htruthy.
    destruct (templateFunc (ToString (template_file d))) as [render|]; [|reflexivity].
    destruct (render d); reflexivity.
Qed.

End Handler.

End WorkerEntrySpec.

(** * Further properties of the bundler set-up and of the orchestrator *)

Module BundlerSpec.

Import WorkerBundle.

Lemma ends_with_app (suffix : string) : forall before,
  ends_with suffix (before +:+ suffix) = true.
Proof.
  induction before as [|x before IH].
  - change ("" +:+ suffix) with suffix.
    destruct suffix; cbn [ends_with]; rewrite String.eqb_refl; reflexivity.
  - rewrite TextSpec.append_cons. cbn [ends_with]. rewrite IH.
    destruct (String.eqb _ suffix); reflexivity.
Qed.

Lemma ends_with_length (suffix : string) : forall path,
  ends_with suffix path = true -> (String.length suffix <= String.length path)%nat.
Proof.
  induction path as [|x path IH]; cbn [ends_with].
  - destruct (String.eqb_spec "" suffix) as [<-|]; [reflexivity | discriminate].
  - destruct (String.eqb_spec (String x path) suffix) as [<-|_]; [reflexivity|].
    intros H. apply IH in H. simpl. lia.
Qed.

(** Of two suffixes of one text the shorter is a suffix of the longer. *)
Lemma ends_with_nested (long short : string) : forall path,
  ends_with long path = true -> ends_with short path = true ->
  (String.length short <= String.length long)%nat ->
  ends_with short long = true.
Proof.
  induction path as [|x path IH]; cbn [ends_with]; intros Hlong Hshort Hlen.
  - destruct (String.eqb_spec "" long) as [<-|]; [|discriminate].
    destruct (String.eqb_spec "" short) as [<-|]; [reflexivity | discriminate].
  - destruct (String.eqb_spec (String x path) long) as [<-|_].
    + cbn [ends_with]. exact Hshort.
    + destruct (String.eqb_spec (String x path) short) as [<-|_].
      * apply ends_with_length in Hlong. simpl in Hlen. lia.
      * apply IH; assumption.
Qed.

(** X28: what the bundler loads in place of files.  Every file whose
    path ends in "stencil-paper-handlebars/helpers.js" is replaced by the
    static helper index, and every file whose path ends in
    "helpers/thirdParty.js", in whatever package, by the static
    third-party module; no path gets both, and the static-helpers plugin
    comes first, so the polyfill plugins cannot take these files.  Every
    other file is left to the polyfill plugins or to the bundler. *)
Theorem static_helpers_replace_two_modules
    (NodeModulesPolyfillPlugin NodeGlobalsPolyfillPlugin : plugin) :
  (forall before,
     esbuild_load (build_plugins NodeModulesPolyfillPlugin NodeGlobalsPolyfillPlugin)
       (before +:+ "stencil-paper-handlebars/helpers.js") = Some staticHelpersIndex) /\
  (forall before,
     esbuild_load (build_plugins NodeModulesPolyfillPlugin NodeGlobalsPolyfillPlugin)
       (before +:+ "helpers/thirdParty.js") = Some staticHelpers) /\
  (forall path,
     ends_with "stencil-paper-handlebars/helpers.js" path = true ->
     ends_with "helpers/thirdParty.js" path = true -> False) /\
  (forall path,
     ends_with "stencil-paper-handlebars/helpers.js" path = false ->
     ends_with "helpers/thirdParty.js" path = false ->
     esbuild_load (build_plugins NodeModulesPolyfillPlugin NodeGlobalsPolyfillPlugin) path
     = esbuild_load [NodeModulesPolyfillPlugin; NodeGlobalsPolyfillPlugin] path).
Proof.
  assert (Hdisjoint : forall path,
            ends_with "stencil-paper-handlebars/helpers.js" path = true ->
            ends_with "helpers/thirdParty.js" path = true -> False).
  { intros path Hindex Hthird.
    assert (H : ends_with "helpers/thirdParty.js" "stencil-paper-handlebars/helpers.js"
                = true)
      by (apply (ends_with_nested _ _ path Hindex Hthird); simpl; lia).
    vm_compute in H. discriminate H. }
  split; [|split; [|split]].
  - intros before. unfold esbuild_load, build_plugins. cbn [flat_map staticHelpersPlugin loaders app find load_filter].
    rewrite ends_with_app. reflexivity.
  - intros before. unfold esbuild_load, build_plugins. cbn [flat_map staticHelpersPlugin loaders app find load_filter].
    destruct (ends_with "stencil-paper-handlebars/helpers.js" (before +:+ "helpers/thirdParty.js"))
      eqn:Hindex.
    + exfalso. apply (Hdisjoint _ Hindex). apply ends_with_app.
    + rewrite ends_with_app. reflexivity.
  - exact Hdisjoint.
  - intros path Hindex Hthird. unfold esbuild_load, build_plugins.
    cbn [flat_map staticHelpersPlugin loaders app find load_filter].
    rewrite Hindex, Hthird. reflexivity.
Qed.

Section Orchestrator.

Variables translations schema configuration : Type.
Variable validateTheme : option error.
Variable mkdir : string -> result unit.
Variable assembleTemplates : result (list (string * templateData)).
Variable assembleLang : result translations.
Variable getSchema : result schema.
Variable getConfig : result configuration.
Variable generateWorkerPackageJson : string -> result unit.
Variable installWorkerDependencies : string -> result unit.
Variable copyAssets : string -> result unit.
Variable generateWranglerConfig : string -> result unit.
Variable import_Handlebars : result unit.
Variable precompile : string -> result string.
Variable writeFile : string -> string -> result unit.
Variable readFile : string -> result string.
Variable unlink : string -> result unit.
Variable inlineWorkerTemplate : string.
Variable JSON_stringify : forall A : Type, A -> result string.
Variable esbuild_build : string -> string -> result unit.
Variable inspect : error -> string.
Variable dirname : string.
Variable option_apiUrl : option string.
Variable path_join : list string -> string.
Variable themePath : string.
Variable dest : option string.

Local Abbreviation the_build :=
  (initBundle translations schema configuration validateTheme mkdir
     assembleTemplates assembleLang getSchema getConfig generateWorkerPackageJson
     installWorkerDependencies copyAssets generateWranglerConfig import_Handlebars
     precompile writeFile readFile unlink inlineWorkerTemplate JSON_stringify
     esbuild_build inspect dirname option_apiUrl path_join themePath dest).

Local Abbreviation the_failure :=
  (failure translations schema configuration validateTheme mkdir
     assembleTemplates assembleLang getSchema getConfig generateWorkerPackageJson
     installWorkerDependencies copyAssets generateWranglerConfig import_Handlebars
     precompile writeFile readFile unlink inlineWorkerTemplate JSON_stringify
     esbuild_build inspect dirname option_apiUrl path_join themePath dest).

Local Abbreviation the_generateWorkerScript :=
  (_generateWorkerScript translations schema configuration import_Handlebars
     precompile writeFile readFile unlink inlineWorkerTemplate JSON_stringify
     esbuild_build inspect dirname option_apiUrl path_join).

Local Abbreviation the_outputDirectory := (outputDirectory path_join themePath dest).

(** The message of the error line: the error's own message, or its name
    when the message is empty. *)
Lemma errorMessage_falls_back_to_name (e : error) :
  errorMessage e = if String.eqb (message e) "" then Js.name e else message e.
Proof. unfold errorMessage. simpl. destruct (String.eqb (message e) ""); reflexivity. Qed.

(** The loop writes an error line exactly when it throws, and then
    one. *)
Lemma compileConsole_errors (entries : list (string * templateData)) :
  forall text table,
  match compileEntries precompile entries text table with
  | Ok _ => errors_of (compileConsole precompile entries) = []
  | Throw _ => length (errors_of (compileConsole precompile entries)) = 1%nat
  end.
Proof.
  induction entries as [|[templateName data] rest IH]; intros text table; [reflexivity|].
  cbn [compileEntries compileConsole].
  destruct (templateSource templateName data) as [src|].
  - destruct (precompile src) as [code|e]; [|reflexivity].
    unfold mbind, result_bind. apply IH.
  - rewrite WorkerBundleSpec.errors_of_cons. apply IH.
Qed.

Lemma compileConsole_first_failure (before after : list (string * templateData))
    (templateName : string) (data : templateData) (src : string) (e : error) :
  (forall n d s,
     In (n, d) before -> templateSource n d = Some s -> exists code, precompile s = Ok code) ->
  templateSource templateName data = Some src ->
  precompile src = Throw e ->
  errors_of (compileConsole precompile (before ++ (templateName, data) :: after))
  = ["Error pre-compiling template " +:+ templateName +:+ ": " +:+ message e].
Proof.
  intros Hbefore Hsrc Hfail.
  induction before as [|[n d] before IH].
  - cbn [app compileConsole]. rewrite Hsrc, Hfail. reflexivity.
  - cbn [app compileConsole]. destruct (templateSource n d) as [s|] eqn:Hs.
    + destruct (Hbefore n d s) as (code & ->); [left; reflexivity | assumption |].
      apply IH. intros n' d' s' Hin. apply Hbefore. right. assumption.
    + rewrite WorkerBundleSpec.errors_of_cons.
      apply IH. intros n' d' s' Hin. apply Hbefore. right. assumption.
Qed.

Local Ltac script_runs :=
  cbv -[compileConsole _generateStaticTemplates Link.workerScript String.append
        NilEmpty.string_of_uint Nat.to_uint length app errors_of Nat.le exportMapping].

Local Ltac known :=
  script_runs;
  repeat match goal with
         | Heq : _ = Ok _ |- _ => rewrite Heq; script_runs
         | Heq : _ = Throw _ |- _ => rewrite Heq; script_runs
         end.

Local Ltac count_errors :=
  repeat first [ rewrite WorkerBundleSpec.errors_of_app
               | rewrite WorkerBundleSpec.errors_of_cons ];
  change (errors_of []) with (@nil string); cbn [app].

(** The worker-script step writes no error line when it succeeds and at
    most one when it fails. *)
Lemma generateWorkerScript_errors outputDir templates tr sc c :
  match snd (the_generateWorkerScript outputDir templates tr sc c []) with
  | Ok _ => errors_of (fst (the_generateWorkerScript outputDir templates tr sc c [])) = []
  | Throw _ =>
      (length (errors_of (fst (the_generateWorkerScript outputDir templates tr sc c [])))
       <= 1)%nat
  end.
Proof.
  pose proof (compileConsole_errors templates header []) as Hloop.
  unfold _generateWorkerScript, _generateStaticTemplates_step, _bundleWorkerWithEsbuild.
  destruct import_Handlebars as [[]|e]; [|script_runs; auto].
  unfold _generateStaticTemplates.
  destruct (compileEntries precompile templates header []) as [[text exports]|e].
  2:{ known. count_errors. rewrite Hloop. auto. }
  destruct (writeFile (path_join [outputDir; "templates.js"])
              (text +:+ exportMapping exports)) as [[]|e] eqn:Hwrite.
  2:{ known. count_errors. rewrite Hloop. auto. }
  destruct (JSON_stringify translations tr) as [translationsText|e] eqn:Htr.
  2:{ known. count_errors. rewrite Hloop. auto. }
  destruct (JSON_stringify schema sc) as [schemaText|e] eqn:Hsc.
  2:{ known. count_errors. rewrite Hloop. auto. }
  destruct (JSON_stringify configuration c) as [configurationText|e] eqn:Hc.
  2:{ known. count_errors. rewrite Hloop. auto. }
  known.
  match goal with
  | |- context [writeFile ?path ?text] => destruct (writeFile path text) as [[]|e] eqn:Hsource
  end.
  2:{ known. count_errors. rewrite Hloop. auto. }
  known.
  match goal with
  | |- context [esbuild_build ?entry ?out] =>
      destruct (esbuild_build entry out) as [[]|e] eqn:Hbuild
  end.
  2:{ known. count_errors. rewrite Hloop. auto. }
  known.
  match goal with
  | |- context [unlink ?path] => destruct (unlink path) as [[]|e] eqn:Hunlink
  end.
  2:{ known. count_errors. rewrite Hloop. auto. }
  known. count_errors. rewrite Hloop. reflexivity.
Qed.



Lemma generateStaticTemplates_throws (before after : list (string * templateData))
    (templateName : string) (data : templateData) (src : string) (e : error) :
  (forall n d s,
     In (n, d) before -> templateSource n d = Some s -> exists code, precompile s = Ok code) ->
  templateSource templateName data = Some src ->
  precompile src = Throw e ->
  _generateStaticTemplates precompile (before ++ (templateName, data) :: after) = Throw e.
Proof.
  intros Hbefore Hsrc Hfail. unfold _generateStaticTemplates.
  rewrite AssembleSpec.compileEntries_app.
  destruct (AssembleSpec.compileEntries_compiles precompile before Hbefore header [])
    as ([text table] & ->).
  simpl. rewrite Hsrc, Hfail. reflexivity.
Qed.

(** A template that does not compile: the step throws the compiler's
    error after one error line of its own. *)
Lemma generateWorkerScript_precompile_failure outputDir tr sc c
    (before after : list (string * templateData))
    (templateName : string) (data : templateData) (src : string) (e : error) :
  import_Handlebars = Ok tt ->
  (forall n d s,
     In (n, d) before -> templateSource n d = Some s -> exists code, precompile s = Ok code) ->
  templateSource templateName data = Some src ->
  precompile src = Throw e ->
  snd (the_generateWorkerScript outputDir (before ++ (templateName, data) :: after)
         tr sc c []) = Throw e /\
  errors_of (fst (the_generateWorkerScript outputDir
                    (before ++ (templateName, data) :: after) tr sc c []))
  = ["Error pre-compiling template " +:+ templateName +:+ ": " +:+ message e].
Proof.
  intros Himport Hbefore Hsrc Hfail.
  pose proof (generateStaticTemplates_throws before after templateName data src e
                Hbefore Hsrc Hfail) as Hthrows.
  pose proof (compileConsole_first_failure before after templateName data src e
                Hbefore Hsrc Hfail) as Hline.
  unfold _generateWorkerScript, _generateStaticTemplates_step, _bundleWorkerWithEsbuild.
  rewrite Himport, Hthrows. script_runs. split; [reflexivity|].
  count_errors. rewrite Hline. reflexivity.
Qed.

(** A bundling failure: the step throws the bundler's error after one
    error line of its own. *)
Lemma generateWorkerScript_bundling_failure outputDir templates tr sc c
    (text translationsText schemaText configurationText : string)
    (exports : list templateExport) (e : error) :
  import_Handlebars = Ok tt ->
  _generateStaticTemplates precompile templates = Ok (text, exports) ->
  writeFile (path_join [outputDir; "templates.js"]) text = Ok tt ->
  JSON_stringify translations tr = Ok translationsText ->
  JSON_stringify schema sc = Ok schemaText ->
  JSON_stringify configuration c = Ok configurationText ->
  writeFile (path_join [outputDir; "worker.source.js"])
    (Link.workerScript
       match readFile (path_join [dirname; "../templates/worker-entry.js"]) with
       | Ok template => template
       | Throw _ => inlineWorkerTemplate
       end translationsText schemaText configurationText option_apiUrl) = Ok tt ->
  esbuild_build (path_join [outputDir; "worker.source.js"])
    (path_join [outputDir; "worker.js"]) = Throw e ->
  snd (the_generateWorkerScript outputDir templates tr sc c []) = Throw e /\
  errors_of (fst (the_generateWorkerScript outputDir templates tr sc c []))
  = ["esbuild bundling failed: " +:+ inspect e].
Proof.
  intros Himport Hstatic Hwrite Htr Hsc Hc Hsource Hbuild.
  pose proof (compileConsole_errors templates header []) as Hloop.
  unfold _generateStaticTemplates in Hstatic.
  destruct (compileEntries precompile templates header []) as [[text' exports']|e0] eqn:Hentries;
    [|discriminate Hstatic].
  simpl in Hstatic. injection Hstatic as <- <-.
  unfold _generateWorkerScript, _generateStaticTemplates_step, _bundleWorkerWithEsbuild,
    _generateStaticTemplates.
  rewrite Himport, Hentries, Htr, Hsc, Hc. known.
  split; [reflexivity|]. count_errors. rewrite Hloop. reflexivity.
Qed.

Local Ltac ran Hrun :=
  cbv -[outputDirectory errorMessage String.append _generateWorkerScript app] in Hrun.

Local Ltac split_run Hrun :=
  let Hevents := fresh "Hevents" in
  let Hresult := fresh "Hresult" in
  pose proof (f_equal fst Hrun) as Hevents; pose proof (f_equal snd Hrun) as Hresult;
  cbn [fst snd] in Hevents, Hresult; clear Hrun;
  match type of Hevents with _ = ?events => subst events end;
  match type of Hresult with _ = ?r => subst r end.

Local Ltac count_stages :=
  repeat first [ rewrite WorkerBundleSpec.stages_of_app
               | rewrite WorkerBundleSpec.stages_of_cons ];
  change (stages_of []) with (@nil stage); cbn [app].

Local Ltac reported :=
  eexists; split; [reflexivity|]; split;
    [ count_errors; auto
    | intros Hsome; exfalso; apply Hsome; count_errors; reflexivity ].

Lemma initBundle_failure_line :
  let '(events, r) := the_build [] in
  match r with
  | Ok _ => errors_of events = []
  | Throw e =>
      exists earlier,
        events = earlier ++ [ConsoleError ("failed  -- " +:+ errorMessage e)] /\
        (length (errors_of earlier) <= 1)%nat /\
        (errors_of earlier <> [] -> last (stages_of events) = Some GenerateWorkerScript)
  end.
Proof.
  destruct (the_build []) as [events r] eqn:Hrun.
  unfold initBundle, _validateTheme in Hrun.
  destruct validateTheme as [e0|] eqn:Hvalidate.
  { ran Hrun. split_run Hrun. reported. }
  destruct (mkdir the_outputDirectory) as [[]|e0] eqn:Hmkdir.
  2:{ ran Hrun. split_run Hrun. reported. }
  destruct assembleTemplates as [t|e0] eqn:Ht.
  2:{ ran Hrun. split_run Hrun. reported. }
  destruct assembleLang as [tr|e0] eqn:Htr.
  2:{ ran Hrun. split_run Hrun. reported. }
  destruct getSchema as [sc|e0] eqn:Hsc.
  2:{ ran Hrun. split_run Hrun. reported. }
  destruct getConfig as [c|e0] eqn:Hc.
  2:{ ran Hrun. split_run Hrun. reported. }
  destruct (generateWorkerPackageJson the_outputDirectory) as [[]|e0] eqn:Hpkg.
  2:{ ran Hrun. split_run Hrun. reported. }
  destruct (installWorkerDependencies the_outputDirectory) as [[]|e0] eqn:Hinstall.
  2:{ ran Hrun. split_run Hrun. reported. }
  ran Hrun.
  destruct (WorkerBundleSpec.generateWorkerScript_console_only
              translations schema configuration import_Handlebars precompile writeFile
              readFile unlink inlineWorkerTemplate JSON_stringify esbuild_build inspect
              dirname option_apiUrl path_join the_outputDirectory t tr sc c)
    as [Hquiet Hscript_run].
  pose proof (generateWorkerScript_errors the_outputDirectory t tr sc c) as Herrors.
  rewrite Hscript_run in Hrun. clear Hscript_run.
  remember (fst (the_generateWorkerScript the_outputDirectory t tr sc c [])) as written
    eqn:Hwritten.
  clear Hwritten.
  destruct (snd (the_generateWorkerScript the_outputDirectory t tr sc c []))
    as [[]|e0] eqn:Hscript.
  2:{ split_run Hrun. eexists. split; [reflexivity|]. split.
      - count_errors. exact Herrors.
      - intros _. count_stages. rewrite Hquiet. reflexivity. }
  destruct (copyAssets the_outputDirectory) as [[]|e0] eqn:Hcopy.
  2:{ split_run Hrun. eexists. split; [reflexivity|]. split.
      - count_errors. rewrite Herrors. auto.
      - intros Hsome. exfalso. apply Hsome. count_errors. rewrite Herrors. reflexivity. }
  destruct (generateWranglerConfig the_outputDirectory) as [[]|e0] eqn:Hwrangler.
  2:{ split_run Hrun. eexists. split; [reflexivity|]. split.
      - count_errors. rewrite Herrors. auto.
      - intros Hsome. exfalso. apply Hsome. count_errors. rewrite Herrors. reflexivity. }
  split_run Hrun. count_errors. rewrite Herrors. reflexivity.
Qed.

Local Ltac succeeded Hearlier s H :=
  pose proof (Hearlier s ltac:(cbn; auto 15)) as H; cbn [failure error_of] in H.

(** A build whose steps before the worker script succeed and whose
    worker-script step throws: the console gets the lines of that step
    and then the line of [initBundle]. *)
Lemma initBundle_fails_in_script t tr sc c e :
  (forall s, In s (earlier GenerateWorkerScript stage_order) -> the_failure s = None) ->
  assembleTemplates = Ok t -> assembleLang = Ok tr ->
  getSchema = Ok sc -> getConfig = Ok c ->
  snd (the_generateWorkerScript the_outputDirectory t tr sc c []) = Throw e ->
  snd (the_build []) = Throw e /\
  errors_of (fst (the_build []))
  = errors_of (fst (the_generateWorkerScript the_outputDirectory t tr sc c []))
    ++ ["failed  -- " +:+ errorMessage e].
Proof.
  intros Hearlier Ht Htr Hsc Hc Hscript.
  succeeded Hearlier ValidateTheme Hvalidate.
  succeeded Hearlier CreateOutputDirectory Hmkdir.
  succeeded Hearlier GenerateWorkerPackageJson Hpkg.
  succeeded Hearlier InstallWorkerDependencies Hinstall.
  destruct (the_build []) as [events r] eqn:Hrun.
  unfold initBundle, _validateTheme in Hrun.
  rewrite Hvalidate, Ht, Htr, Hsc, Hc in Hrun.
  destruct (mkdir the_outputDirectory) as [[]|]; [|discriminate Hmkdir].
  destruct (generateWorkerPackageJson the_outputDirectory) as [[]|]; [|discriminate Hpkg].
  destruct (installWorkerDependencies the_outputDirectory) as [[]|];
    [|discriminate Hinstall].
  ran Hrun.
  destruct (WorkerBundleSpec.generateWorkerScript_console_only
              translations schema configuration import_Handlebars precompile writeFile
              readFile unlink inlineWorkerTemplate JSON_stringify esbuild_build inspect
              dirname option_apiUrl path_join the_outputDirectory t tr sc c)
    as [_ Hscript_run].
  rewrite Hscript_run, Hscript in Hrun. split_run Hrun. cbn [fst snd].
  split; [reflexivity|]. count_errors. reflexivity.
Qed.

(** X29: what a build reports.  A build that succeeds writes no error
    line.  A build that fails ends its console output with the line
    "failed  -- " followed by the error's message, or by the error's
    name when the message is empty; before it there is at most one
    other error line, and only when the build stopped in the
    worker-script step.  That step reports a template that does not
    compile and a bundling failure itself before it throws, so these two
    failures are reported twice. *)
Theorem initBundle_reports_failure :
  let build :=
    initBundle translations schema configuration validateTheme mkdir
      assembleTemplates assembleLang getSchema getConfig generateWorkerPackageJson
      installWorkerDependencies copyAssets generateWranglerConfig import_Handlebars
      precompile writeFile readFile unlink inlineWorkerTemplate JSON_stringify
      esbuild_build inspect dirname option_apiUrl path_join themePath dest [] in
  let failed (e : error) :=
    "failed  -- " +:+ (if String.eqb (message e) "" then Js.name e else message e) in
  match snd build with
  | Ok _ => errors_of (fst build) = []
  | Throw e =>
      exists earlier,
        fst build = earlier ++ [ConsoleError (failed e)] /\
        (length (errors_of earlier) <= 1)%nat /\
        (errors_of earlier <> [] ->
         last (stages_of (fst build)) = Some GenerateWorkerScript)
  end /\
  (forall before templateName data after src e,
     (forall s, In s (earlier GenerateWorkerScript stage_order) -> the_failure s = None) ->
     assembleTemplates = Ok (before ++ (templateName, data) :: after) ->
     import_Handlebars = Ok tt ->
     (forall n d s, In (n, d) before -> templateSource n d = Some s ->
                    exists code, precompile s = Ok code) ->
     templateSource templateName data = Some src ->
     precompile src = Throw e ->
     snd build = Throw e /\
     errors_of (fst build)
     = [ "Error pre-compiling template " +:+ templateName +:+ ": " +:+ message e;
         failed e ]) /\
  (forall templates tr sc c text exports translationsText schemaText configurationText e,
     (forall s, In s (earlier GenerateWorkerScript stage_order) -> the_failure s = None) ->
     assembleTemplates = Ok templates -> assembleLang = Ok tr ->
     getSchema = Ok sc -> getConfig = Ok c ->
     import_Handlebars = Ok tt ->
     _generateStaticTemplates precompile templates = Ok (text, exports) ->
     writeFile (path_join [the_outputDirectory; "templates.js"]) text = Ok tt ->
     JSON_stringify translations tr = Ok translationsText ->
     JSON_stringify schema sc = Ok schemaText ->
     JSON_stringify configuration c = Ok configurationText ->
     writeFile (path_join [the_outputDirectory; "worker.source.js"])
       (Link.workerScript
          match readFile (path_join [dirname; "../templates/worker-entry.js"]) with
          | Ok template => template
          | Throw _ => inlineWorkerTemplate
          end translationsText schemaText configurationText option_apiUrl) = Ok tt ->
     esbuild_build (path_join [the_outputDirectory; "worker.source.js"])
       (path_join [the_outputDirectory; "worker.js"]) = Throw e ->
     snd build = Throw e /\
     errors_of (fst build) = [ "esbuild bundling failed: " +:+ inspect e; failed e ]).
Proof.
  cbv zeta. split; [|split].
  - pose proof initBundle_failure_line as H.
    destruct (the_build []) as [events [dir|e]]; [exact H|].
    cbn [fst snd]. rewrite <- errorMessage_falls_back_to_name. exact H.
  - intros before templateName data after src e Hearlier Ht Himport Hbefore Hsrc Hfail.
    succeeded Hearlier AssembleLang Htr.
    succeeded Hearlier GetSchema Hsc.
    succeeded Hearlier GetConfig Hc.
    assert (Hlang : exists tr, assembleLang = Ok tr)
      by (destruct assembleLang; [eauto | discriminate Htr]).
    assert (Hschema : exists sc, getSchema = Ok sc)
      by (destruct getSchema; [eauto | discriminate Hsc]).
    assert (Hconfig : exists c, getConfig = Ok c)
      by (destruct getConfig; [eauto | discriminate Hc]).
    destruct Hlang as [tr Hlang], Hschema as [sc Hschema], Hconfig as [c Hconfig].
    destruct (generateWorkerScript_precompile_failure the_outputDirectory tr sc c
                before after templateName data src e Himport Hbefore Hsrc Hfail)
      as [Hthrows Hline].
    destruct (initBundle_fails_in_script _ tr sc c e Hearlier Ht Hlang Hschema Hconfig
                Hthrows) as [Hresult Herrors].
    rewrite Hresult, Herrors, Hline, <- errorMessage_falls_back_to_name.
    split; reflexivity.
  - intros templates tr sc c text exports translationsText schemaText configurationText e
      Hearlier Ht Htr Hsc Hc Himport Hstatic Hwrite Htext Hschema Hconfig Hsource Hbuild.
    destruct (generateWorkerScript_bundling_failure the_outputDirectory templates tr sc c
                text translationsText schemaText configurationText exports e
                Himport Hstatic Hwrite Htext Hschema Hconfig Hsource Hbuild)
      as [Hthrows Hline].
    destruct (initBundle_fails_in_script templates tr sc c e Hearlier Ht Htr Hsc Hc Hthrows)
      as [Hresult Herrors].
    rewrite Hresult, Herrors, Hline, <- errorMessage_falls_back_to_name.
    split; reflexivity.
Qed.

End Orchestrator.

End BundlerSpec.

(** * Concrete instances *)

Module Instances.

(** Witness for X8: the second of three partials does not compile. *)
Lemma generateStaticTemplates_first_failure_is_fatal_witness :
  WorkerBundle._generateStaticTemplates Samples.precompile Samples.broken_templates
  = Throw Samples.parse_error.
Proof.
  apply (AssembleSpec.generateStaticTemplates_first_failure_is_fatal Samples.precompile
           [("layout/base", WorkerBundle.Source "<html>{{{body}}}</html>")]
           [("pages/home", WorkerBundle.Source "<h1>home</h1>")]
           "pages/broken" (WorkerBundle.Source "{{#if}}") "{{#if}}" Samples.parse_error).
  - intros n d s [[= <- <-]|[]] [= <-]. eexists. reflexivity.
  - reflexivity.
  - reflexivity.
Defined.

(** Witness for X9. *)
Lemma workerScript_fills_placeholders_witness :
  Link.workerScript
    ("const TRANSLATIONS = " +:+ "__TRANSLATIONS_DATA__" +:+ "; const SCHEMA = " +:+
     "__SCHEMA_DATA__" +:+ "; const CONFIG = " +:+ "__CONFIG_DATA__" +:+
     "; const API_BASE_URL = '" +:+ "__API_URL__" +:+ "';")
    "{}" "[]" "{}" None
  = "const TRANSLATIONS = " +:+ "{}" +:+ "; const SCHEMA = " +:+ "[]" +:+
    "; const CONFIG = " +:+ "{}" +:+ "; const API_BASE_URL = '" +:+
    Link.apiUrl None +:+ "';".
Proof.
  exact (LinkSpec.workerScript_fills_placeholders
           "const TRANSLATIONS = " "; const SCHEMA = " "; const CONFIG = "
           "; const API_BASE_URL = '" "';" "{}" "[]" "{}" None
           eq_refl eq_refl eq_refl eq_refl eq_refl eq_refl eq_refl eq_refl).
Defined.


(** Witness for X11. *)
Lemma workerScript_without_placeholders_witness :
  Link.workerScript "export default {};" "{}" "[]" "{}" None = "export default {};".
Proof.
  exact (LinkSpec.workerScript_without_placeholders "export default {};" "{}" "[]" "{}" None
           eq_refl eq_refl eq_refl eq_refl).
Defined.

(** Witness for X15: the store answers with the hash "abc123". *)
Lemma getStoreHash_outcomes_witness :
  Upload.getStoreHash Samples.URL_host Samples.fetch_info
    (Samples.session (Examples.session [] JUndefined))
  = Ok (Upload.with_storeHash (Samples.session (Examples.session [] JUndefined)) "abc123").
Proof.
  apply (proj1 (proj2
           (UploadSpec.getStoreHash_outcomes Samples.URL_host Samples.fetch_info
              (Samples.session (Examples.session [] JUndefined))))
           Samples.store_config "https://store.example.com" "store.example.com"
           Samples.store_info {| Upload.store_hash := Some "abc123" |} "abc123");
    try reflexivity.
  discriminate.
Defined.

(** Witness for X16: the second upload still reports the limit. *)
Lemma upload_again_overwrites_job_witness :
  exists s',
    Upload.uploadBundle
      (Ok {| Upload.uploaded_jobId := "job-2";
             Upload.uploaded_themeLimitReached := JNum 1 |})
      (Samples.session (Examples.session [] JUndefined)) = Ok s' /\
    Upload.jobId s' = Some "job-2" /\
    Push.themeLimitReached (Upload.options s') = true /\
    Push.themes (Upload.options s') = [] /\
    Upload.bundleZipPath s' = Some "/tmp/bundle.zip".
Proof.
  exact (proj1 (proj2 (proj2
           (UploadSpec.upload_again_overwrites_job
              (Samples.session (Examples.session [] JUndefined)) Samples.store_config
              (Ok {| Upload.uploaded_jobId := "job-2";
                     Upload.uploaded_themeLimitReached := JNum 1 |})
              eq_refl))) _ eq_refl).
Defined.

(** Witness for X17: all three deletions are requested although the
    second one fails. *)
Lemma deleteThemesIfNecessary_requests_every_id_witness :
  fst (Upload.deleteThemesIfNecessary Samples.deleteThemeById
         (Samples.session
            (Push.with_themeIdsToDelete (Examples.session [] JUndefined) ["a"; "b"; "c"])))
  = ["a"; "b"; "c"].
Proof.
  exact (proj1 (proj1 (proj2
           (UploadSpec.deleteThemesIfNecessary_requests_every_id Samples.deleteThemeById
              (Samples.session
                 (Push.with_themeIdsToDelete (Examples.session [] JUndefined)
                    ["a"; "b"; "c"]))
              Samples.store_config eq_refl) eq_refl) ["a"; "b"; "c"] eq_refl)).
Defined.

(** Witness for X19. *)
Lemma delete_oldest_deletes_one_inactive_private_theme_witness :
  exists theme,
    In theme Examples.tied_themes /\
    Theme.is_private theme = true /\ Theme.is_active theme = false /\
    fst (Upload.deleteThemesIfNecessary Samples.deleteThemeById
           (Upload.with_options
              (Samples.session (Examples.session Examples.tied_themes JUndefined))
              (Push.with_themeIdsToDelete
                 (Examples.session Examples.tied_themes JUndefined) ["b"])))
    = [Theme.uuid theme].
Proof.
  exact (UploadSpec.delete_oldest_deletes_one_inactive_private_theme
           IsoDate.valueOf Examples.no_prompt Samples.deleteThemeById
           (Samples.session (Examples.session Examples.tied_themes JUndefined))
           Samples.store_config
           (Push.with_themeIdsToDelete (Examples.session Examples.tied_themes JUndefined) ["b"])
           eq_refl eq_refl eq_refl eq_refl).
Defined.

(** Witness for X20: "x", whose date does not parse, is chosen over the
    dated theme "a". *)
Lemma delete_oldest_prefers_trailing_invalid_date_witness :
  Push.promptUserToDeleteThemesIfNecessary IsoDate.valueOf Examples.no_prompt
    (Examples.session Samples.undated_themes JUndefined)
  = Ok (Push.with_themeIdsToDelete (Examples.session Samples.undated_themes JUndefined) ["x"]).
Proof.
  exact (UploadSpec.delete_oldest_prefers_trailing_invalid_date
           IsoDate.valueOf Examples.no_prompt
           (Examples.session Samples.undated_themes JUndefined)
           [Examples.theme "a" "2021-01-01T00:00:00Z" true false]
           (Examples.theme "x" "last week" true false)
           eq_refl eq_refl eq_refl eq_refl).
Defined.

(** Witness for X21. *)
Lemma getVariations_falsy_activation_is_rejected_witness :
  Push.getVariations Examples.variations_of (Examples.session [] (JBool false))
  = Throw {| Js.name := "Error";
             message := "Invalid theme variation provided!. Available options "
                        +:+ join ", " (map Variation.name Examples.light_dark) +:+ "..." |}.
Proof.
  exact (VariationSpec.getVariations_falsy_activation_is_rejected Examples.variations_of
           (Examples.session [] (JBool false)) Examples.light_dark
           eq_refl eq_refl (or_introl eq_refl)).
Defined.

(** Witness for X22: without an activation flag the prompt asks over the
    two fetched variations. *)
Lemma variation_prompt_follows_selection_witness :
  exists vs,
    Examples.variations_of (Push.themeId (Examples.session [] JUndefined)) = Ok vs /\
    Upload.promptUserForVariation Samples.pick_first
      (Push.with_variations (Examples.session [] JUndefined) Examples.light_dark)
    = Ok (Push.with_variationId
            (Push.with_variations (Examples.session [] JUndefined) Examples.light_dark)
            (Samples.pick_first
               (map (fun v => (Variation.name v, Variation.uuid v)) vs))).
Proof.
  exact (proj1 (proj2
           (VariationSpec.variation_prompt_follows_selection Examples.variations_of
              Samples.pick_first (Examples.session [] JUndefined)
              (Push.with_variations (Examples.session [] JUndefined) Examples.light_dark)
              eq_refl eq_refl eq_refl)) eq_refl eq_refl).
Defined.

(** Witness for X23. *)
Lemma deletion_prompt_offers_the_candidates_witness :
  exists choices,
    Push.promptUserToDeleteThemesIfNecessary IsoDate.valueOf Examples.no_prompt
      (Samples.manual Examples.no_deletable)
    = Ok (Push.with_themeIdsToDelete (Samples.manual Examples.no_deletable)
            (Examples.no_prompt choices)) /\
    Forall2 (fun theme c =>
               Push.value c = Theme.uuid theme /\ Push.choice_name c = Theme.name theme /\
               Push.disabled c = negb (Push.deletable theme))
            (Push.themes (Samples.manual Examples.no_deletable)) choices.
Proof.
  exact (VariationSpec.deletion_prompt_offers_the_candidates IsoDate.valueOf
           Examples.no_prompt (Samples.manual Examples.no_deletable) eq_refl eq_refl).
Defined.

(** Witness for X24: an upper-case extension. *)
Lemma getMimeType_by_extension_witness :
  WorkerEntry.getMimeType "/assets/img/Logo.PNG" = WorkerEntry.Mime "image/png".
Proof.
  exact (WorkerEntrySpec.getMimeType_by_extension "/assets/img/Logo" "PNG" "image/png"
           eq_refl eq_refl).
Defined.

(** Witness for X26: the upstream 404 page for a missing image is passed
    on with the type of the path's extension. *)
Lemma assets_are_proxied_with_type_by_extension_witness :
  WorkerEntry.handle jsval Samples.template_file Samples.ToString Samples.templateFunc
    Samples.apiUrl Samples.fetch Samples.json Samples.stringify
    (Ok {| WorkerEntry.pathname := "/assets/img/logo.png"; WorkerEntry.search := "" |})
  = {| WorkerEntry.status := 404; WorkerEntry.statusText := "Not Found";
       WorkerEntry.content_type := Some (WorkerEntry.Mime "image/png");
       WorkerEntry.headers := []; WorkerEntry.body := "<p>not found</p>" |}.
Proof.
  exact (WorkerEntrySpec.assets_are_proxied_with_type_by_extension jsval
           Samples.template_file Samples.ToString Samples.templateFunc
           Samples.apiUrl Samples.fetch Samples.json Samples.stringify
           {| WorkerEntry.pathname := "/assets/img/logo.png"; WorkerEntry.search := "" |}
           "https://api.example.com/assets/img/logo.png" Samples.not_found
           (or_introl eq_refl) eq_refl eq_refl).
Defined.

(** Witness for X27: the context names a template the worker lacks. *)
Lemma page_request_outcomes_witness :
  WorkerEntry.handle jsval Samples.template_file Samples.ToString Samples.templateFunc
    Samples.apiUrl Samples.fetch Samples.json Samples.stringify
    (Ok {| WorkerEntry.pathname := "/cart"; WorkerEntry.search := "" |})
  = {| WorkerEntry.status := 500; WorkerEntry.statusText := "";
       WorkerEntry.content_type := Some (WorkerEntry.Mime "text/plain");
       WorkerEntry.headers := [];
       WorkerEntry.body := "Internal Server Error: Template not found: pages/cart" |}.
Proof.
  exact (proj2 (WorkerEntrySpec.page_request_outcomes jsval
                  Samples.template_file Samples.ToString Samples.templateFunc
                  Samples.apiUrl Samples.fetch Samples.json Samples.stringify
                  {| WorkerEntry.pathname := "/cart"; WorkerEntry.search := "" |}
                  "https://api.example.com/cart" Samples.context_response
                  (JStr "pages/cart")
                  eq_refl eq_refl eq_refl eq_refl eq_refl eq_refl) eq_refl).
Defined.

(** Witness for X29: the template "pages/broken" does not compile; the
    worker-script step reports it and [initBundle] reports it again. *)
Lemma initBundle_reports_failure_witness :
  snd (Samples.build []) = Throw Samples.parse_error /\
  WorkerBundle.errors_of (fst (Samples.build []))
  = [ "Error pre-compiling template pages/broken: Parse error on line 1";
      "failed  -- Parse error on line 1" ].
Proof.
  apply (proj1 (proj2
           (BundlerSpec.initBundle_reports_failure unit unit unit
              None (fun _ => Ok tt) (Ok Samples.broken_templates) (Ok tt) (Ok tt) (Ok tt)
              (fun _ => Ok tt) (fun _ => Ok tt) (fun _ => Ok tt) (fun _ => Ok tt)
              (Ok tt) Samples.precompile (fun _ _ => Ok tt)
              (fun _ => Ok "export default {};")
              (fun _ => Ok tt) "" (fun _ _ => Ok "{}") (fun _ _ => Ok tt)
              Examples.inspect "/cli/lib" None Examples.path_join "/theme" None))
           [("layout/base", WorkerBundle.Source "<html>{{{body}}}</html>")]
           "pages/broken" (WorkerBundle.Source "{{#if}}")
           [("pages/home", WorkerBundle.Source "<h1>home</h1>")]
           "{{#if}}" Samples.parse_error).
  - intros s Hin. cbn in Hin.
    repeat (destruct Hin as [<-|Hin]; [reflexivity|]). destruct Hin.
  - reflexivity.
  - reflexivity.
  - intros n d s [[= <- <-]|[]] [= <-]. eexists. reflexivity.
  - reflexivity.
  - reflexivity.
Defined.

End Instances.
